(** * The content-creator assistant (app.py): retrieval, prompt and save workflow

app.py is a Streamlit script: every user action re-executes the whole
module from the top.  One execution is modelled as a computation in a
small state-and-exception monad that also records, in order, what the
script renders and which external services it calls.

- Python names bound only on some paths ([my_style_collection],
  [inspiration_source], ...) are kept in a record of optional bindings;
  reading an unbound one raises [NameError].
- [st.session_state] and the persistent vector store survive from one
  execution to the next; the module namespace does not.
- Text is [string], one [ascii] per character; a Python slice [s[:n]]
  is [str_take n s].
- The vector store, the embedding distance and the two generation SDKs
  are libraries: the store follows the contract of the specification,
  the other two are parameters.  Streamlit's own checks on widgets
  (unique keys, selections among the options) are not part of the
  model. *)

From Stdlib Require Import Ascii String.
From stdpp Require Import base option list strings gmap pretty.

Open Scope string_scope.
Open Scope list_scope.
Open Scope nat_scope.

(** ** Text helpers *)

Definition dquote : string := String (ascii_of_nat 34) EmptyString.
Definition nl : string := String (ascii_of_nat 10) EmptyString.

(** [s[:n]] *)
Fixpoint str_take (n : nat) (s : string) : string :=
  match n, s with
  | S n', String c s' => String c (str_take n' s')
  | _, _ => EmptyString
  end.

Definition ascii_lower (c : ascii) : ascii :=
  let n := nat_of_ascii c in
  if (65 <=? n) && (n <=? 90) then ascii_of_nat (n + 32) else c.

(** [s.lower()], on the ASCII range *)
Fixpoint str_lower (s : string) : string :=
  match s with
  | EmptyString => EmptyString
  | String c s' => String (ascii_lower c) (str_lower s')
  end.

(** Truth value of a Python string: empty is false. *)
Definition truthy (s : string) : bool :=
  match s with EmptyString => false | String _ _ => true end.

(** Truth value of what [os.getenv] returns: [None] and the empty string
    are false. *)
Definition truthy_env (v : option string) : bool :=
  match v with Some s => truthy s | None => false end.

(** Truth value of a Python list. *)
Definition nonempty {A} (l : list A) : bool :=
  match l with [] => false | _ :: _ => true end.

(** [sep.join(parts)] *)
Definition str_join (sep : string) (parts : list string) : string :=
  String.concat sep parts.

(** [str(n)] for a non-negative integer *)
Definition str_of_nat (n : nat) : string := pretty n.
Arguments str_of_nat : simpl never.

(** [t] occurs inside [s] as a contiguous run of characters. *)
Definition occurs_in (t s : string) : Prop :=
  ∃ pre post, s = pre +:+ t +:+ post.

(** ** The vector store *)

Record record := Record_ {
  rec_id : string;
  rec_document : string;
  rec_metadata : gmap string string
}.

(** A collection keeps its records in insertion order. *)
Abbreviation collection := (list record).

(** A [where] argument of the shape [{field: {"$in": values}}]. *)
Abbreviation where_clause := (option (string * list string)).

Module Chroma.

(** Modelled from the spec: chromadb's [collection.add], a third-party
    library call; by the store contract it appends one record to the
    collection, which grows by one entry.  It does not inspect the ids
    already present. *)
Definition add (c : collection) (document : string)
    (metadata : gmap string string) (id : string) : collection :=
  c ++ [Record_ id document metadata].

(** Modelled from the spec: chromadb's [collection.get()], the list-all
    of the store contract: every record, in order. *)
Definition get (c : collection) : collection := c.

(** Modelled from the spec: the ['ids'] column of a chromadb result. *)
Definition ids (c : collection) : list string := rec_id <$> c.

(** Modelled from the spec: the ['documents'] column of a chromadb
    result. *)
Definition documents (c : collection) : list string := rec_document <$> c.

(** Modelled from the spec: the ['metadatas'] column of a chromadb
    result. *)
Definition metadatas (c : collection) : list (gmap string string) :=
  rec_metadata <$> c.

(** Modelled from the spec: chromadb's [collection.get(ids=[id])],
    retrieval by id. *)
Definition get_id (c : collection) (id : string) : collection :=
  filter (λ r, rec_id r = id) c.

(** Modelled from the spec: chromadb's [collection.delete(ids=[id])]; it
    removes what carries [id] and does nothing when the id is absent. *)
Definition delete (c : collection) (id : string) : collection :=
  filter (λ r, rec_id r ≠ id) c.

(** Modelled from the spec: chromadb's metadata filter, an "is one of"
    constraint over a named field; no filter lets every record through. *)
Definition satisfies (w : where_clause) (r : record) : bool :=
  match w with
  | None => true
  | Some (field, values) =>
      match rec_metadata r !! field with
      | Some v => bool_decide (v ∈ values)
      | None => false
      end
  end.

Section Similarity.
(** Modelled from the spec: the embedding function and its index are
    an opaque similarity service; [distance probe document] stands for
    the distance it assigns, smaller meaning closer. *)
Variable distance : string → string → nat.

(** Modelled from the spec: nearest-first order of the similarity
    service, here by insertion, ties in stored order. *)
Fixpoint insert_by (probe : string) (r : record) (l : list record)
    : list record :=
  match l with
  | [] => [r]
  | x :: l' =>
      if distance probe (rec_document r) <=? distance probe (rec_document x)
      then r :: l
      else x :: insert_by probe r l'
  end.

(** Modelled from the spec: the records of [l], nearest to [probe]
    first. *)
Definition nearest (probe : string) (l : list record) : list record :=
  foldr (insert_by probe) [] l.

(** Modelled from the spec: chromadb's
    [collection.query(query_texts=[probe], n_results=k, where=w)]: up to
    [k] nearest records among those that satisfy [w]; an empty result,
    not an error, when the collection is empty or nothing satisfies
    [w]. *)
Definition query (c : collection) (probe : string) (k : nat)
    (w : where_clause) : list record :=
  take k (nearest probe (filter (λ r, satisfies w r = true) c)).
End Similarity.
Arguments query : simpl never.

(** Modelled from the spec: chromadb's
    [client.get_or_create_collection(name=...)]; a collection that does
    not exist yet is created empty. *)
Definition get_or_create_collection (name : string)
    (client : gmap string collection) : gmap string collection :=
  match client !! name with
  | Some _ => client
  | None => <[name := []]> client
  end.

End Chroma.

(** ** Exceptions *)

Inductive exn :=
| NameError (name : string)
| KeyError (key : string)
| BackendError (message : string)
| RerunException.

(** [isinstance(e, Exception)]: the exception that [st.rerun()] uses to
    stop the script is not one, so [except Exception] lets it through. *)
Definition is_Exception (e : exn) : bool :=
  match e with RerunException => false | _ => true end.

(** [str(e)] *)
Definition str_exn (e : exn) : string :=
  match e with
  | NameError name => "name '" +:+ name +:+ "' is not defined"
  | KeyError key => "'" +:+ key +:+ "'"
  | BackendError message => message
  | RerunException => EmptyString
  end.

(** ** What one execution shows and calls *)

Inductive st_display :=
| st_title | st_write | st_subheader | st_markdown
| st_info | st_warning | st_success | st_error.

Inductive st_input :=
| st_text_area | st_text_input | st_selectbox | st_radio | st_multiselect.

Inductive st_layout := st_tabs | st_columns | st_expander | st_spinner.

Inductive event :=
| Display (kind : st_display) (body : string)
| Input (kind : st_input) (label : string) (options : list string)
| Button (label key : string)
| DownloadButton (label data file_name : string)
| Layout (kind : st_layout) (labels : list string)
| Query (collection_name probe : string) (n_results : nat) (w : where_clause)
| Completion (provider model prompt : string).

(** ** Program state *)

(** The module-level names that are bound on some paths only.  A
    collection variable holds the name of the collection it refers to;
    [creator_selection] is [Some None] when bound to Python's [None]. *)
Record globals := Globals {
  selected_model : option (string * string);
  my_style_collection : option string;
  creators_collection : option string;
  make_ai_call : option unit;
  inspiration_source : option string;
  creator_selection : option (option (list string));
  improvement_focus : option string
}.

Definition unbound : globals := Globals None None None None None None None.

Record state := State {
  session_state : gmap string string;
  client : gmap string collection;
  names : globals
}.

Definition with_session (f : gmap string string → gmap string string)
    (s : state) : state :=
  State (f (session_state s)) (client s) (names s).

Definition with_client (f : gmap string collection → gmap string collection)
    (s : state) : state :=
  State (session_state s) (f (client s)) (names s).

Definition with_names (f : globals → globals) (s : state) : state :=
  State (session_state s) (client s) (f (names s)).

Definition collection_of (s : state) (name : string) : collection :=
  default [] (client s !! name).

(** ** The script monad *)

Inductive outcome (A : Type) :=
| Return (a : A)
| Raise (e : exn).
Arguments Return {A} a.
Arguments Raise {A} e.

Definition script (A : Type) : Type := state → outcome A * state * list event.

Definition ret {A} (a : A) : script A := λ s, (Return a, s, []).

Definition bind {A B} (m : script A) (k : A → script B) : script B :=
  λ s, match m s with
       | (Return a, s1, out1) =>
           match k a s1 with (r, s2, out2) => (r, s2, out1 ++ out2) end
       | (Raise e, s1, out1) => (Raise e, s1, out1)
       end.

#[global] Instance script_ret : MRet script := @ret.
#[global] Instance script_bind : MBind script := λ A B k m, bind m k.

Definition raise {A} (e : exn) : script A := λ s, (Raise e, s, []).
Definition emit (e : event) : script unit := λ s, (Return tt, s, [e]).
Definition modify (f : state → state) : script unit := λ s, (Return tt, f s, []).
Definition gets {A} (f : state → A) : script A := λ s, (Return (f s), s, []).

(** [try: body except Exception as e: handler e] *)
Definition try_except {A} (body : script A) (handler : exn → script A)
    : script A :=
  λ s, match body s with
       | (Raise e, s1, out1) =>
           if is_Exception e then
             match handler e s1 with (r, s2, out2) => (r, s2, out1 ++ out2) end
           else (Raise e, s1, out1)
       | done => done
       end.

(** Reading a module-level name. *)
Definition read_name {A} (name : string) (binding : globals → option A)
    : script A :=
  λ s, match binding (names s) with
       | Some v => (Return v, s, [])
       | None => (Raise (NameError name), s, [])
       end.

(** [d[key]] *)
Definition getitem (d : gmap string string) (key : string) : script string :=
  match d !! key with
  | Some v => ret v
  | None => raise (KeyError key)
  end.

(** [for x in xs: body x] *)
Fixpoint for_each {A} (body : A → script unit) (xs : list A) : script unit :=
  match xs with
  | [] => ret tt
  | x :: xs' => body x ;; for_each body xs'
  end.

(** [[f x for x in xs]] *)
Fixpoint comprehension {A B} (f : A → script B) (xs : list A)
    : script (list B) :=
  match xs with
  | [] => ret []
  | x :: xs' => y ← f x; ys ← comprehension f xs'; ret (y :: ys)
  end.

(** [enumerate(xs, 1)] *)
Definition enumerate1 {A} (xs : list A) : list (nat * A) :=
  zip (seq 1 (length xs)) xs.

(** Assignments to the conditionally bound names. *)
Definition bind_selected_model (v : string * string) : script unit :=
  modify (with_names (λ g, Globals (Some v) (my_style_collection g)
    (creators_collection g) (make_ai_call g) (inspiration_source g)
    (creator_selection g) (improvement_focus g))).

Definition bind_collections (mine creators : string) : script unit :=
  modify (with_names (λ g, Globals (selected_model g) (Some mine)
    (Some creators) (make_ai_call g) (inspiration_source g)
    (creator_selection g) (improvement_focus g))).

Definition bind_make_ai_call : script unit :=
  modify (with_names (λ g, Globals (selected_model g) (my_style_collection g)
    (creators_collection g) (Some tt) (inspiration_source g)
    (creator_selection g) (improvement_focus g))).

Definition bind_inspiration_source (v : string) : script unit :=
  modify (with_names (λ g, Globals (selected_model g) (my_style_collection g)
    (creators_collection g) (make_ai_call g) (Some v)
    (creator_selection g) (improvement_focus g))).

Definition bind_creator_selection (v : option (list string)) : script unit :=
  modify (with_names (λ g, Globals (selected_model g) (my_style_collection g)
    (creators_collection g) (make_ai_call g) (inspiration_source g)
    (Some v) (improvement_focus g))).

Definition bind_improvement_focus (v : string) : script unit :=
  modify (with_names (λ g, Globals (selected_model g) (my_style_collection g)
    (creators_collection g) (make_ai_call g) (inspiration_source g)
    (creator_selection g) (Some v))).

(** ** Widget values of one execution *)

Inductive model_option := Claude_Sonnet_4 | GPT_5.

Definition model_label (m : model_option) : string :=
  match m with
  | Claude_Sonnet_4 => "Claude Sonnet 4"
  | GPT_5 => "GPT-5"
  end.

Inductive inspiration_option := style_only | creators_only | style_and_creators.

Definition inspiration_label (i : inspiration_option) : string :=
  match i with
  | style_only => "My personal style only"
  | creators_only => "Favorite creators only"
  | style_and_creators => "Both my style and favorite creators"
  end.

Inductive focus_option :=
| storytelling | hook | call_to_action | clarity | emotional | personal_voice.

Definition focus_label (f : focus_option) : string :=
  match f with
  | storytelling => "Overall storytelling and flow"
  | hook => "Hook and opening strength"
  | call_to_action => "Call-to-action effectiveness"
  | clarity => "Clarity and structure"
  | emotional => "Emotional engagement"
  | personal_voice => "Match my personal voice"
  end.

(** The environment and the widget values that one execution reads.
    [clicked] is the key of the button whose press triggered it (a button
    without an explicit key is identified by its label); [clock] is
    [str(datetime.now())]. *)
Record inputs := Inputs {
  OPENAI_API_KEY : option string;
  ANTHROPIC_API_KEY : option string;
  clock : string;
  chosen_model : model_option;
  user_script : string;
  chosen_inspiration : inspiration_option;
  chosen_creators : list string;
  chosen_focus : focus_option;
  example_title : string;
  example_script : string;
  example_notes : string;
  creator_name : string;
  content_title : string;
  creator_content : string;
  content_notes : string;
  clicked : option string
}.

(** ** The prompt template (lines 184-202) *)

Definition indent : string := "                ".

Definition enhancement_prompt (user_script improvement_focus context : string)
    : string :=
  "You are an expert script editor specializing in content creation and storytelling." +:+ nl +:+
  nl +:+
  indent +:+ "ORIGINAL SCRIPT TO IMPROVE:" +:+ nl +:+
  indent +:+ dquote +:+ user_script +:+ dquote +:+ nl +:+
  nl +:+
  indent +:+ "FOCUS AREA: " +:+ improvement_focus +:+ nl +:+
  nl +:+
  indent +:+ "INSPIRATION SOURCES:" +:+ nl +:+
  indent +:+ context +:+ nl +:+
  nl +:+
  indent +:+ "Your task:" +:+ nl +:+
  indent +:+ "1. Rewrite and improve the original script, focusing specifically on " +:+ str_lower improvement_focus +:+ nl +:+
  indent +:+ "2. Draw inspiration from the provided examples while maintaining the user's authentic voice" +:+ nl +:+
  indent +:+ "3. Enhance storytelling elements, structure, and engagement" +:+ nl +:+
  indent +:+ "4. Keep the core message but elevate the execution" +:+ nl +:+
  nl +:+
  indent +:+ "Provide the improved script." +:+ nl +:+
  nl +:+
  indent +:+ "Make it compelling, authentic, and ready to use.".

Arguments enhancement_prompt : simpl never.

(** [model_mapping] (lines 46-49): display name to provider and model. *)
Definition model_mapping : gmap string (string * string) :=
  {[ "Claude Sonnet 4" := ("claude", "claude-sonnet-4-20250514");
     "GPT-5" := ("openai", "gpt-5") ]}.

(** Insertion into [creators_dict] (lines 331-334): a new creator opens a
    group at the end, a known one gets the item appended to its group. *)
Fixpoint group_add {A} (creator : string) (item : A)
    (d : list (string * list A)) : list (string * list A) :=
  match d with
  | [] => [(creator, [item])]
  | (k, items) :: d' =>
      if bool_decide (k = creator) then (k, items ++ [item]) :: d'
      else (k, items) :: group_add creator item d'
  end.

(** ** The script *)

Section Script.
(** The similarity service and the two text-generation SDK calls are
    outside the program.  A generation call gives the completion text
    or fails with an exception carrying a message. *)
Variable distance : string → string → nat.
Variable openai_chat : string → string → string + string.
Variable anthropic_messages : string → nat → string → string + string.
Variable inp : inputs.

Definition display (kind : st_display) (body : string) : script unit :=
  emit (Display kind body).

(** A text or choice widget shows itself and gives its current value. *)
Definition widget {A} (kind : st_input) (label : string)
    (options : list string) (value : A) : script A :=
  emit (Input kind label options) ;; ret value.

(** [st.button]: true in the execution that its press triggered. *)
Definition button (label key : string) : script bool :=
  emit (Button label key) ;; ret (bool_decide (clicked inp = Some key)).

Definition collection_get (name : string) : script collection :=
  gets (λ s, Chroma.get (collection_of s name)).

Definition collection_add (name document : string)
    (metadata : gmap string string) (id : string) : script unit :=
  modify (λ s, with_client
    <[name := Chroma.add (collection_of s name) document metadata id]> s).

Definition collection_delete (name id : string) : script unit :=
  modify (λ s, with_client
    <[name := Chroma.delete (collection_of s name) id]> s).

Definition collection_query (name probe : string) (k : nat)
    (w : where_clause) : script (list record) :=
  emit (Query name probe k w) ;;
  gets (λ s, Chroma.query distance (collection_of s name) probe k w).

(** [init_vector_databases] (lines 55-71) and the assignment of line 73. *)
Definition init_vector_databases : script unit :=
  modify (with_client (Chroma.get_or_create_collection "my_content_style")) ;;
  modify (with_client (Chroma.get_or_create_collection "favorite_creators")) ;;
  bind_collections "my_content_style" "favorite_creators".

(** Lines 25-94: greeting, credential check, and in its [else] branch
    the model choice, the collections and [make_ai_call]. *)
Definition startup : script unit :=
  display st_title "My Content Creator AI Assistant" ;;
  display st_write "Welcome to your AI-powered content creation tool!" ;;
  if negb (truthy_env (OPENAI_API_KEY inp))
     || negb (truthy_env (ANTHROPIC_API_KEY inp))
  then
    display st_error
      "Please set both OPENAI_API_KEY and ANTHROPIC_API_KEY in your .env file!"
  else
    display st_subheader "🤖 Choose Your AI Model" ;;
    model_choice ← widget st_selectbox "Select AI model:"
      ["Claude Sonnet 4"; "GPT-5"] (model_label (chosen_model inp));
    match model_mapping !! model_choice with
    | None => raise (KeyError model_choice)
    | Some m =>
        bind_selected_model m ;;
        init_vector_databases ;;
        display st_info ("Selected: " +:+ model_choice) ;;
        bind_make_ai_call
    end.

(** The body of [make_ai_call] (lines 79-94). *)
Definition make_ai_call_body (prompt : string) : script string :=
  m ← read_name "selected_model" selected_model;
  if bool_decide (m.1 = "openai") then
    emit (Completion "openai" m.2 prompt) ;;
    match openai_chat m.2 prompt with
    | inl text => ret text
    | inr message => raise (BackendError message)
    end
  else
    emit (Completion "claude" m.2 prompt) ;;
    match anthropic_messages m.2 1000 prompt with
    | inl text => ret text
    | inr message => raise (BackendError message)
    end.

(** Lines 96-149: the draft area and, once a draft is present, the
    inspiration, creator and focus choices. *)
Definition script_editor : script unit :=
  display st_subheader "Script Editor & Improvement" ;;
  display st_write "Transform your rough draft into a polished script using inspiration from your style and favorite creators." ;;
  draft ← widget st_text_area "Your rough draft:" [] (user_script inp);
  if truthy draft then
    display st_markdown "### Choose Your Inspiration Sources" ;;
    source ← widget st_radio "What should inspire the improvement?"
      ["My personal style only"; "Favorite creators only";
       "Both my style and favorite creators"]
      (inspiration_label (chosen_inspiration inp));
    bind_inspiration_source source ;;
    bind_creator_selection None ;;
    (if bool_decide (source ∈ ["Favorite creators only";
                               "Both my style and favorite creators"])
     then
       c ← read_name "creators_collection" creators_collection;
       creator_stored ← collection_get c;
       if nonempty (Chroma.documents creator_stored) then
         all_names ← comprehension (λ meta, getitem meta "creator_name")
                       (Chroma.metadatas creator_stored);
         selection ← widget st_multiselect
           "Select specific creators (leave empty for all):"
           (remove_dups all_names) (chosen_creators inp);
         bind_creator_selection (Some selection) ;;
         if nonempty selection then
           flags ← comprehension
             (λ meta, name ← getitem meta "creator_name";
                      ret (bool_decide (name ∈ selection)))
             (Chroma.metadatas creator_stored);
           display st_info
             ("Using " +:+ str_of_nat (length (filter (λ b, b = true) flags))
              +:+ " pieces of content from "
              +:+ str_of_nat (length selection) +:+ " creators")
         else ret tt
       else
         display st_warning
           "No creator content stored yet. Add some in the Favorite Creators tab."
     else ret tt) ;;
    focus ← widget st_selectbox "Focus area for improvement:"
      ["Overall storytelling and flow"; "Hook and opening strength";
       "Call-to-action effectiveness"; "Clarity and structure";
       "Emotional engagement"; "Match my personal voice"]
      (focus_label (chosen_focus inp));
    bind_improvement_focus focus
  else ret tt.

(** One style block (line 165). *)
Definition style_block (i : nat) (r : record) : script string :=
  title ← getitem (rec_metadata r) "title";
  ret ("Your Style Example " +:+ str_of_nat i +:+ " - '" +:+ title +:+ "':"
       +:+ nl +:+ str_take 400 (rec_document r) +:+ "...").

(** One creator block (line 180). *)
Definition creator_block (i : nat) (r : record) : script string :=
  name ← getitem (rec_metadata r) "creator_name";
  title ← getitem (rec_metadata r) "content_title";
  ret ("Creator Example " +:+ str_of_nat i +:+ " - " +:+ name +:+ ": '"
       +:+ title +:+ "':" +:+ nl +:+ str_take 400 (rec_document r) +:+ "...").

(** Lines 157-165: what the personal-style branch appends to
    [context_parts]. *)
Definition style_part : script (list string) :=
  source ← read_name "inspiration_source" inspiration_source;
  if bool_decide (source ∈ ["My personal style only";
                            "Both my style and favorite creators"])
  then
    c ← read_name "my_style_collection" my_style_collection;
    my_examples ← collection_query c (str_take 500 (user_script inp)) 2 None;
    if nonempty my_examples then
      blocks ← comprehension (λ ir, style_block ir.1 ir.2)
                 (enumerate1 my_examples);
      ret ("Your personal writing style examples:" :: blocks)
    else ret []
  else ret [].

(** The filter of lines 168-170. *)
Definition where_filter (selection : option (list string)) : where_clause :=
  match selection with
  | Some names => if nonempty names then Some ("creator_name", names) else None
  | None => None
  end.

(** Lines 167-180: what the creators branch appends. *)
Definition creator_part : script (list string) :=
  source ← read_name "inspiration_source" inspiration_source;
  if bool_decide (source ∈ ["Favorite creators only";
                            "Both my style and favorite creators"])
  then
    selection ← read_name "creator_selection" creator_selection;
    c ← read_name "creators_collection" creators_collection;
    creator_examples ← collection_query c (str_take 500 (user_script inp)) 3
                         (where_filter selection);
    if nonempty creator_examples then
      blocks ← comprehension (λ ir, creator_block ir.1 ir.2)
                 (enumerate1 creator_examples);
      ret ((nl +:+ "Successful creator examples for inspiration:") :: blocks)
    else ret []
  else ret [].

(** Lines 155-182: the value of [context]. *)
Definition context_builder : script string :=
  mine ← style_part;
  theirs ← creator_part;
  let context_parts := mine ++ theirs in
  ret (if nonempty context_parts
       then str_join (nl +:+ nl) context_parts
       else "No relevant examples found.").

(** Lines 184-209: the prompt, the generation call and the session
    slot. *)
Definition generate (context : string) : script unit :=
  focus ← read_name "improvement_focus" improvement_focus;
  let prompt := enhancement_prompt (user_script inp) focus context in
  _ ← read_name "make_ai_call" make_ai_call;
  improved_script ← make_ai_call_body prompt;
  modify (with_session <["enhanced_script" := improved_script]>) ;;
  display st_success "Script improved successfully!".

(** Lines 155-209: the body of the [try]. *)
Definition improve_body : script unit :=
  context ← context_builder;
  generate context.

(** Lines 151-212: the Improve button and its handler. *)
Definition improve_action : script unit :=
  pressed ← button "Improve My Script" "Improve My Script";
  if (pressed : bool) then
    source ← read_name "inspiration_source" inspiration_source;
    emit (Layout st_spinner
            ["Improving your script using " +:+ str_lower source +:+ "..."]) ;;
    try_except improve_body
      (λ e, display st_error ("Error improving script: " +:+ str_exn e))
  else ret tt.

(** Lines 215-224. *)
Definition show_enhanced : script unit :=
  slot ← gets (λ s, session_state s !! "enhanced_script");
  match slot with
  | Some text =>
      display st_markdown "### Your Enhanced Script" ;;
      display st_write text ;;
      emit (DownloadButton "Download Enhanced Script" text "enhanced_script.txt")
  | None => ret tt
  end.

(** Lines 237-262: the form that saves a style example. *)
Definition save_style_form : script unit :=
  display st_write "Add examples of your successful content:" ;;
  title ← widget st_text_input "Content title/topic:" [] (example_title inp);
  body ← widget st_text_area "Your script or content:" [] (example_script inp);
  notes ← widget st_text_input "Style notes (optional):" [] (example_notes inp);
  pressed ← button "Save My Style Example" "Save My Style Example";
  if (pressed : bool) then
    if truthy title && truthy body then
      c ← read_name "my_style_collection" my_style_collection;
      let metadata : gmap string string :=
        {[ "title" := title; "notes" := notes; "timestamp" := clock inp ]} in
      stored ← collection_get c;
      collection_add c body metadata
        ("my_style_" +:+ str_of_nat (length (Chroma.ids stored) + 1)) ;;
      display st_success ("Saved: " +:+ title)
    else ret tt
  else ret tt.

(** Lines 264-286: the list of style examples with their Delete
    buttons. *)
Definition style_row (c : string) (r : record) : script unit :=
  emit (Layout st_columns []) ;;
  title ← getitem (rec_metadata r) "title";
  emit (Layout st_expander ["My Content: " +:+ title]) ;;
  display st_write
    ("**Notes:** " +:+ default "None" (rec_metadata r !! "notes")) ;;
  display st_write
    ("**Content:** " +:+ str_take 300 (rec_document r) +:+ "...") ;;
  pressed ← button "Delete" ("delete_my_" +:+ rec_id r);
  if (pressed : bool) then
    collection_delete c (rec_id r) ;; raise RerunException
  else ret tt.

Definition view_style : script unit :=
  c ← read_name "my_style_collection" my_style_collection;
  my_stored_examples ← collection_get c;
  if nonempty (Chroma.documents my_stored_examples) then
    display st_write
      ("You have " +:+ str_of_nat (length (Chroma.documents my_stored_examples))
       +:+ " style examples:") ;;
    for_each (style_row c) my_stored_examples
  else display st_info "No style examples stored yet.".

(** Lines 292-319: the form that saves a creator example. *)
Definition save_creator_form : script unit :=
  display st_write "Add content from creators you admire:" ;;
  name ← widget st_text_input "Creator name:" [] (creator_name inp);
  title ← widget st_text_input "Video/content title:" [] (content_title inp);
  body ← widget st_text_area "Creator's script/transcript:" []
           (creator_content inp);
  notes ← widget st_text_input "What you like about this content:" []
            (content_notes inp);
  pressed ← button "Save Creator Content" "Save Creator Content";
  if (pressed : bool) then
    if truthy name && truthy title && truthy body then
      c ← read_name "creators_collection" creators_collection;
      let metadata : gmap string string :=
        {[ "creator_name" := name; "content_title" := title;
           "notes" := notes; "timestamp" := clock inp ]} in
      stored ← collection_get c;
      collection_add c body metadata
        ("creator_" +:+ str_of_nat (length (Chroma.ids stored) + 1)) ;;
      display st_success
        ("Saved content from " +:+ name +:+ ": " +:+ title)
    else ret tt
  else ret tt.

(** Lines 321-353: the creator library, grouped by creator. *)
Fixpoint group_by_creator (rs : list record)
    (creators_dict : list (string * list record))
    : script (list (string * list record)) :=
  match rs with
  | [] => ret creators_dict
  | r :: rs' =>
      creator ← getitem (rec_metadata r) "creator_name";
      group_by_creator rs' (group_add creator r creators_dict)
  end.

Definition creator_row (c : string) (r : record) : script unit :=
  emit (Layout st_columns []) ;;
  title ← getitem (rec_metadata r) "content_title";
  display st_write ("**" +:+ title +:+ "**") ;;
  display st_write
    ("Notes: " +:+ default "None" (rec_metadata r !! "notes")) ;;
  display st_write
    ("Content: " +:+ str_take 200 (rec_document r) +:+ "...") ;;
  pressed ← button "Delete" ("delete_creator_" +:+ rec_id r);
  if (pressed : bool) then
    collection_delete c (rec_id r) ;; raise RerunException
  else ret tt.

Definition creator_group (c : string) (group : string * list record)
    : script unit :=
  emit (Layout st_expander
          ["Content from " +:+ group.1 +:+ " ("
           +:+ str_of_nat (length group.2) +:+ " videos)"]) ;;
  for_each (creator_row c) group.2.

Definition browse_creators : script unit :=
  c ← read_name "creators_collection" creators_collection;
  creator_stored ← collection_get c;
  if nonempty (Chroma.documents creator_stored) then
    creators_dict ← group_by_creator creator_stored [];
    display st_write
      ("Content from " +:+ str_of_nat (length creators_dict) +:+ " creators:") ;;
    for_each (creator_group c) creators_dict
  else display st_info "No creator content stored yet.".

(** Lines 226-353. *)
Definition memory_banks : script unit :=
  display st_markdown "---" ;;
  display st_subheader "Content Memory Banks" ;;
  emit (Layout st_tabs ["My Style Library"; "Favorite Creators"]) ;;
  emit (Layout st_tabs ["Add Style Example"; "View My Content"]) ;;
  save_style_form ;;
  view_style ;;
  emit (Layout st_tabs ["Add Creator Content"; "Browse Creator Library"]) ;;
  save_creator_form ;;
  browse_creators.

(** The whole module, top to bottom. *)
Definition app_py : script unit :=
  startup ;;
  script_editor ;;
  improve_action ;;
  show_enhanced ;;
  memory_banks.

End Script.

(** ** Executions and sessions *)

(** A new execution starts with an empty module namespace; session state
    and the store are what the previous one left. *)
Definition reloaded (s : state) : state :=
  State (session_state s) (client s) unbound.

Definition initial : state := State ∅ ∅ unbound.

Definition no_click (inp : inputs) : inputs :=
  Inputs (OPENAI_API_KEY inp) (ANTHROPIC_API_KEY inp) (clock inp)
    (chosen_model inp) (user_script inp) (chosen_inspiration inp)
    (chosen_creators inp) (chosen_focus inp) (example_title inp)
    (example_script inp) (example_notes inp) (creator_name inp)
    (content_title inp) (creator_content inp) (content_notes inp) None.

Section Session.
Variable distance : string → string → nat.
Variable openai_chat : string → string → string + string.
Variable anthropic_messages : string → nat → string → string + string.

Definition execute (inp : inputs) (s : state)
    : outcome unit * state * list event :=
  app_py distance openai_chat anthropic_messages inp (reloaded s).

(** One user action: the execution it triggers and, when that one ends
    in [st.rerun()], the execution that follows with no button pressed. *)
Definition interact (inp : inputs) (s : state)
    : outcome unit * state * list event :=
  match execute inp s with
  | (Raise RerunException, s1, _) => execute (no_click inp) s1
  | done => done
  end.

(** The state after a sequence of user actions. *)
Definition session (actions : list inputs) (s : state) : state :=
  foldl (λ s inp, (interact inp s).1.2) s actions.
End Session.

(** ** Vocabulary of the statements *)

(** The generation calls made during an execution, as (provider, model,
    prompt), and the prompts alone. *)
Definition completions (out : list event) : list (string * string * string) :=
  omap (λ e, match e with
             | Completion provider model prompt => Some (provider, model, prompt)
             | _ => None
             end) out.

Definition prompts_sent (out : list event) : list string :=
  snd <$> completions out.

(** What the SDK call behind a [Completion] event answered: the
    dispatch of [make_ai_call] read as a function. *)
Definition backend_reply (openai_chat : string → string → string + string)
    (anthropic_messages : string → nat → string → string + string)
    (provider model prompt : string) : string + string :=
  if bool_decide (provider = "openai") then openai_chat model prompt
  else anthropic_messages model 1000 prompt.

Definition is_query (e : event) : Prop :=
  match e with Query _ _ _ _ => True | _ => False end.

(** [frames R Q m]: whatever [m] does, the state it leaves is related to
    the one it started from by [R], and everything it emits satisfies
    [Q]. *)
Definition frames {A} (R : relation state) (Q : event → Prop) (m : script A)
    : Prop :=
  ∀ s r s' out, m s = (r, s', out) → R s s' ∧ Forall Q out.

(** The metadata of [r] has every key of [keys]. *)
Definition has_keys (keys : list string) (r : record) : Prop :=
  Forall (λ k, is_Some (rec_metadata r !! k)) keys.

(** Every style record has a title, every creator record a creator name
    and a content title. *)
Definition well_formed_store (client : gmap string collection) : Prop :=
  Forall (has_keys ["title"]) (default [] (client !! "my_content_style"))
  ∧ Forall (has_keys ["creator_name"; "content_title"])
      (default [] (client !! "favorite_creators")).

(** A collection variable, when bound, refers to its own collection. *)
Definition well_bound (g : globals) : Prop :=
  (∀ c, my_style_collection g = Some c → c = "my_content_style")
  ∧ (∀ c, creators_collection g = Some c → c = "favorite_creators").

Definition consistent (s : state) : Prop :=
  well_formed_store (client s) ∧ well_bound (names s).

(** Between [s] and [s'] the collection variables keep their bindings and
    no collection gains a record. *)
Definition steady (s s' : state) : Prop :=
  my_style_collection (names s') = my_style_collection (names s)
  ∧ creators_collection (names s') = creators_collection (names s)
  ∧ ∀ name, collection_of s' name ⊆ collection_of s name.

(** [consistent] carries over from [s] to [s']. *)
Definition keeps_consistent (s s' : state) : Prop :=
  consistent s → consistent s'.

(** [throws P m]: an exception that [m] lets out satisfies [P]. *)
Definition throws {A} (P : exn → Prop) (m : script A) : Prop :=
  ∀ s e s' out, m s = (Raise e, s', out) → P e.

(** What [make_ai_call] makes of an SDK reply: the text is returned, a
    failure is raised. *)
Definition outcome_of_reply (reply : string + string) : outcome string :=
  match reply with
  | inl text => Return text
  | inr message => Raise (BackendError message)
  end.

(** The session state is the same in [s] and [s']. *)
Definition same_session (s s' : state) : Prop :=
  session_state s' = session_state s.

(** No collection has a record in [s'] that it did not have in [s]. *)
Definition no_gain (s s' : state) : Prop :=
  ∀ name, collection_of s' name ⊆ collection_of s name.

(** An execution changes the session state only by storing the text of
    a generation call that succeeded. *)
Definition session_follows_success
    (openai_chat : string → string → string + string)
    (anthropic_messages : string → nat → string → string + string)
    (s s' : state) (out : list event) : Prop :=
  session_state s' = session_state s
  ∨ ∃ provider model prompt text,
      (provider, model, prompt) ∈ completions out
      ∧ backend_reply openai_chat anthropic_messages provider model prompt
        = inl text
      ∧ session_state s' = <["enhanced_script" := text]> (session_state s).

(** [d] groups the records [rs] by creator: one group per creator, each
    holding that creator's records in stored order. *)
Definition grouped (d : list (string * list record)) (rs : list record) : Prop :=
  NoDup d.*1
  ∧ (∀ k items, (k, items) ∈ d →
       items ≠ []
       ∧ items = filter (λ r, rec_metadata r !! "creator_name" = Some k) rs)
  ∧ (∀ r, r ∈ rs →
       ∃ k, rec_metadata r !! "creator_name" = Some k ∧ k ∈ d.*1).

(** The state of an execution when it reaches the Improve button
    (lines 25-149 done). *)
Definition prepared (inp : inputs) (s : state) : state :=
  ((startup inp ;; script_editor inp) (reloaded s)).1.2.

(** A run of save-form submissions, nothing else in between. *)
Definition style_saves (submissions : list inputs) (s : state) : state :=
  foldl (λ s inp, (save_style_form inp s).1.2) s submissions.

Definition creator_saves (submissions : list inputs) (s : state) : state :=
  foldl (λ s inp, (save_creator_form inp s).1.2) s submissions.

(** The ids of a collection that has only ever grown: prefix and
    position, counted from 1. *)
Definition numbered (prefix : string) (c : collection) : Prop :=
  Chroma.ids c = (λ i, prefix +:+ str_of_nat i) <$> seq 1 (length c).

(** Session state and the content of every collection are the same in
    [s] and [s']. *)
Definition unchanged (s s' : state) : Prop :=
  session_state s' = session_state s
  ∧ ∀ name, collection_of s' name = collection_of s name.

(** An event that calls no service: neither a similarity query nor a
    generation call. *)
Definition quiet (e : event) : Prop :=
  match e with
  | Query _ _ _ _ | Completion _ _ _ => False
  | _ => True
  end.

(** The collection variables are bound to their collections and the
    store is well formed: the state of a configured application after
    its start-up. *)
Definition ready (s : state) : Prop :=
  well_formed_store (client s)
  ∧ my_style_collection (names s) = Some "my_content_style"
  ∧ creators_collection (names s) = Some "favorite_creators".

(** The press of a Delete button of one of the two lists. *)
Definition delete_pressed (inp : inputs) : Prop :=
  ∃ id, clicked inp = Some ("delete_my_" +:+ id)
        ∨ clicked inp = Some ("delete_creator_" +:+ id).

(** An execution that ends normally or in the rerun a deletion asks
    for. *)
Definition ends_well (inp : inputs) (r : outcome unit) : Prop :=
  r = Return tt ∨ (r = Raise RerunException ∧ delete_pressed inp).

(** ** Sample data *)

Definition length_distance (probe document : string) : nat :=
  (String.length probe - String.length document)
  + (String.length document - String.length probe).

Definition canned_openai (model prompt : string) : string + string :=
  inl "An improved script.".

Definition canned_anthropic (model : string) (max_tokens : nat)
    (prompt : string) : string + string :=
  inl "An improved script.".

Definition failing_openai (model prompt : string) : string + string :=
  inr "Rate limit exceeded".

Definition failing_anthropic (model : string) (max_tokens : nat)
    (prompt : string) : string + string :=
  inr "Overloaded".

(** Both credentials set, nothing typed, nothing pressed. *)
Definition visitor : inputs :=
  Inputs (Some "sk-test") (Some "sk-ant-test") "2024-05-01 10:00:00"
    Claude_Sonnet_4 EmptyString style_only [] storytelling
    EmptyString EmptyString EmptyString
    EmptyString EmptyString EmptyString EmptyString None.

(** The same visitor with no OPENAI_API_KEY in the environment. *)
Definition visitor_without_key : inputs :=
  Inputs None (Some "sk-ant-test") "2024-05-01 10:00:00"
    Claude_Sonnet_4 EmptyString style_only [] storytelling
    EmptyString EmptyString EmptyString
    EmptyString EmptyString EmptyString EmptyString None.

Definition saving_style (title body notes : string) : inputs :=
  Inputs (Some "sk-test") (Some "sk-ant-test") "2024-05-01 10:00:00"
    Claude_Sonnet_4 EmptyString style_only [] storytelling
    title body notes
    EmptyString EmptyString EmptyString EmptyString
    (Some "Save My Style Example").

Definition saving_creator (name title body notes : string) : inputs :=
  Inputs (Some "sk-test") (Some "sk-ant-test") "2024-05-01 10:00:00"
    Claude_Sonnet_4 EmptyString style_only [] storytelling
    EmptyString EmptyString EmptyString
    name title body notes
    (Some "Save Creator Content").

Definition deleting_style (id : string) : inputs :=
  Inputs (Some "sk-test") (Some "sk-ant-test") "2024-05-01 10:00:00"
    Claude_Sonnet_4 EmptyString style_only [] storytelling
    EmptyString EmptyString EmptyString
    EmptyString EmptyString EmptyString EmptyString
    (Some ("delete_my_" +:+ id)).

Definition deleting_creator (id : string) : inputs :=
  Inputs (Some "sk-test") (Some "sk-ant-test") "2024-05-01 10:00:00"
    Claude_Sonnet_4 EmptyString style_only [] storytelling
    EmptyString EmptyString EmptyString
    EmptyString EmptyString EmptyString EmptyString
    (Some ("delete_creator_" +:+ id)).

Definition improving (model : model_option) (draft : string)
    (mode : inspiration_option) (creators : list string)
    (focus : focus_option) : inputs :=
  Inputs (Some "sk-test") (Some "sk-ant-test") "2024-05-01 10:00:00"
    model draft mode creators focus
    EmptyString EmptyString EmptyString
    EmptyString EmptyString EmptyString EmptyString
    (Some "Improve My Script").

(** A draft of 50 characters. *)
Definition draft50 : string :=
  "Today I want to show you how I plan my week ahead.".

(** The store after one style example has been saved. *)
Definition one_style_example : state :=
  session length_distance canned_openai canned_anthropic
    [saving_style "Intro Hook" "Hey everyone, welcome back..." EmptyString]
    initial.

(** The store after three creator examples by two creators. *)
Definition three_creator_examples : state :=
  session length_distance canned_openai canned_anthropic
    [saving_creator "Ali" "Morning routine" "I wake up at five." EmptyString;
     saving_creator "Bea" "Desk tour" "This is where I work every day." EmptyString;
     saving_creator "Ali" "Evening routine" "I read before bed." EmptyString]
    initial.

Definition intro_hook : record :=
  Record_ "my_style_1" "Hey everyone, welcome back..."
    {[ "title" := "Intro Hook"; "notes" := EmptyString;
       "timestamp" := "2024-05-01 10:00:00" ]}.

Definition morning_routine : record :=
  Record_ "creator_1" "I wake up at five."
    {[ "creator_name" := "Ali"; "content_title" := "Morning routine";
       "notes" := EmptyString; "timestamp" := "2024-05-01 10:00:00" ]}.

(** A session in which an earlier improvement has left its result. *)
Definition with_earlier_result (s : state) : state :=
  with_session <["enhanced_script" := "An earlier result."]> s.

(** * Properties *)

(** ** Text *)

Lemma str_app_assoc (a b c : string) : (a +:+ b) +:+ c = a +:+ b +:+ c.
Proof.
  induction a as [|x a IH]; [reflexivity|].
  change (String x ((a +:+ b) +:+ c) = String x (a +:+ b +:+ c)).
  by rewrite IH.
Qed.

Lemma str_take_all (n : nat) (s : string) :
  String.length s ≤ n → str_take n s = s.
Proof.
  revert n. induction s as [|c s IH]; intros [|n] Hlen; simpl in *;
    try reflexivity; try lia.
  f_equal. apply IH. lia.
Qed.

Lemma str_take_length (n : nat) (s : string) :
  String.length (str_take n s) = n `min` String.length s.
Proof.
  revert n. induction s as [|c s IH]; intros [|n]; simpl; try reflexivity.
  by rewrite IH.
Qed.

Lemma str_take_prefix (n : nat) (s : string) :
  ∃ rest, s = str_take n s +:+ rest.
Proof.
  revert n. induction s as [|c s IH]; intros [|n].
  - by exists EmptyString.
  - by exists EmptyString.
  - by exists (String c s).
  - destruct (IH n) as [rest Hrest]. exists rest.
    change (String c s = String c (str_take n s +:+ rest)). by f_equal.
Qed.

(** The probe of a query depends on the first 500 characters only. *)
Lemma str_take_app (n : nat) (s t u : string) :
  String.length s = n → str_take n (s +:+ t) = str_take n (s +:+ u).
Proof.
  revert n. induction s as [|c s IH]; intros [|n] Hlen; simpl in *;
    try reflexivity; try lia.
  f_equal. apply IH. lia.
Qed.

Lemma truthy_true (s : string) : truthy s = true ↔ s ≠ EmptyString.
Proof. destruct s; simpl; split; congruence. Qed.

Lemma truthy_false (s : string) : truthy s = false ↔ s = EmptyString.
Proof. destruct s; simpl; split; congruence. Qed.

Lemma nonempty_true {A} (l : list A) : nonempty l = true ↔ l ≠ [].
Proof. destruct l; simpl; split; congruence. Qed.

(** The draft sits between the quotation marks of the template, whatever
    the focus and the context are. *)
Lemma prompt_embeds_script (draft focus context : string) :
  occurs_in (dquote +:+ draft +:+ dquote)
            (enhancement_prompt draft focus context).
Proof.
  exists ("You are an expert script editor specializing in content creation and storytelling."
          +:+ nl +:+ nl +:+ indent +:+ "ORIGINAL SCRIPT TO IMPROVE:" +:+ nl
          +:+ indent).
  eexists. unfold enhancement_prompt.
  rewrite !str_app_assoc. reflexivity.
Qed.

Example str_take_cuts : str_take 3 "welcome" = "wel".
Proof. reflexivity. Qed.

Example str_take_short : str_take 400 "welcome" = "welcome".
Proof. reflexivity. Qed.

Example str_lower_label :
  str_lower "Call-to-action effectiveness" = "call-to-action effectiveness".
Proof. reflexivity. Qed.

Example str_join_parts :
  str_join (nl +:+ nl) ["a"; "b"; "c"]
  = "a" +:+ nl +:+ nl +:+ "b" +:+ nl +:+ nl +:+ "c".
Proof. reflexivity. Qed.

Example str_of_nat_twelve :
  "my_style_" +:+ str_of_nat (11 + 1) = "my_style_12".
Proof. reflexivity. Qed.

Example truthy_blank : truthy " " = true ∧ truthy EmptyString = false.
Proof. by split. Qed.

Arguments str_take : simpl never.

(** ** The store *)

Module ChromaFacts.
Import Chroma.

Lemma length_add c document metadata id :
  length (add c document metadata id) = length c + 1.
Proof. unfold add. by rewrite length_app. Qed.

Lemma ids_add c document metadata id :
  ids (add c document metadata id) = ids c ++ [id].
Proof. unfold ids, add. by rewrite fmap_app. Qed.

Lemma get_id_add c document metadata id :
  Record_ id document metadata ∈ get_id (add c document metadata id) id.
Proof.
  unfold get_id, add. apply list_elem_of_filter. split; [done|].
  apply elem_of_app. right. by apply list_elem_of_singleton.
Qed.

Lemma delete_absent c id : id ∉ ids c → delete c id = c.
Proof.
  unfold delete, ids. induction c as [|r c IH]; intros Hid; [done|].
  rewrite fmap_cons, not_elem_of_cons in Hid. destruct Hid as [Hne Hid].
  rewrite filter_cons_True by congruence. f_equal. by apply IH.
Qed.

Section Similarity.
Variable distance : string → string → nat.

Lemma insert_by_perm probe r l : insert_by distance probe r l ≡ₚ r :: l.
Proof.
  induction l as [|x l IH]; simpl; [done|].
  case_match; [done|]. rewrite IH. apply Permutation_swap.
Qed.

Lemma nearest_perm probe l : nearest distance probe l ≡ₚ l.
Proof.
  induction l as [|r l IH]; simpl; [done|].
  by rewrite insert_by_perm, IH.
Qed.

Lemma query_empty probe k w : query distance [] probe k w = [].
Proof. unfold query. simpl. by rewrite take_nil. Qed.

(** Every result comes from the collection and satisfies the filter. *)
Lemma query_sound c probe k w r :
  r ∈ query distance c probe k w → r ∈ c ∧ satisfies w r = true.
Proof.
  unfold query. intros Hin.
  apply (subseteq_take k) in Hin.
  rewrite nearest_perm in Hin.
  by apply list_elem_of_filter in Hin as [? ?].
Qed.

Lemma query_length c probe k w :
  length (query distance c probe k w)
  = k `min` length (filter (λ r, satisfies w r = true) c).
Proof.
  unfold query. rewrite length_take. f_equal.
  apply Permutation_length, nearest_perm.
Qed.

Lemma query_no_match c probe k w :
  Forall (λ r, satisfies w r = false) c → query distance c probe k w = [].
Proof.
  intros Hall. apply length_zero_iff_nil. rewrite query_length.
  replace (filter (λ r, satisfies w r = true) c) with (@nil record);
    [simpl; lia|].
  symmetry. induction Hall as [|r c Hr _ IH]; [done|].
  rewrite filter_cons_False by congruence. done.
Qed.

Lemma query_unrestricted c probe k :
  query distance c probe k None = take k (nearest distance probe c)
  ∧ length (query distance c probe k None) = k `min` length c.
Proof.
  assert (Hall : filter (λ r, satisfies None r = true) c = c).
  { induction c as [|r c IH]; [done|].
    rewrite filter_cons_True by done. by rewrite IH. }
  split; [unfold query | rewrite query_length]; by rewrite Hall.
Qed.
End Similarity.
End ChromaFacts.

(** ** Executions *)

Section Frames.
Context (R : relation state) `{!PreOrder R} (Q : event → Prop).

Lemma frames_ret {A} (a : A) : frames R Q (mret a).
Proof. intros s r s' out [= <- <- <-]. by split. Qed.

Lemma frames_raise {A} (e : exn) : frames R Q (@raise A e).
Proof. intros s r s' out [= <- <- <-]. by split. Qed.

Lemma frames_gets {A} (f : state → A) : frames R Q (gets f).
Proof. intros s r s' out [= <- <- <-]. by split. Qed.

Lemma frames_emit (e : event) : Q e → frames R Q (emit e).
Proof. intros He s r s' out [= <- <- <-]. split; [done|]. by constructor. Qed.

Lemma frames_modify (f : state → state) :
  (∀ s, R s (f s)) → frames R Q (modify f).
Proof. intros Hf s r s' out [= <- <- <-]. by split. Qed.

Lemma frames_read_name {A} (name : string) (binding : globals → option A) :
  frames R Q (read_name name binding).
Proof.
  intros s r s' out. unfold read_name.
  destruct (binding (names s)); intros [= <- <- <-]; by split.
Qed.

Lemma frames_getitem (d : gmap string string) (key : string) :
  frames R Q (getitem d key).
Proof.
  unfold getitem. destruct (d !! key); [apply frames_ret | apply frames_raise].
Qed.

Lemma frames_bind {A B} (m : script A) (k : A → script B) :
  frames R Q m → (∀ a, frames R Q (k a)) → frames R Q (m ≫= k).
Proof.
  intros Hm Hk s r s' out. unfold mbind, script_bind, bind.
  destruct (m s) as [[[a|e] s1] out1] eqn:Em.
  - destruct (k a s1) as [[r2 s2] out2] eqn:Ek. intros [= <- <- <-].
    destruct (Hm _ _ _ _ Em) as [? ?], (Hk _ _ _ _ _ Ek) as [? ?].
    split; [by etrans | by apply Forall_app].
  - intros [= <- <- <-]. eauto.
Qed.

Lemma frames_try_except {A} (body : script A) (handler : exn → script A) :
  frames R Q body → (∀ e, frames R Q (handler e)) →
  frames R Q (try_except body handler).
Proof.
  intros Hb Hh s r s' out. unfold try_except.
  destruct (body s) as [[[a|e] s1] out1] eqn:Eb.
  - intros [= <- <- <-]. eauto.
  - destruct (is_Exception e).
    + destruct (handler e s1) as [[r2 s2] out2] eqn:Eh. intros [= <- <- <-].
      destruct (Hb _ _ _ _ Eb) as [? ?], (Hh _ _ _ _ _ Eh) as [? ?].
      split; [by etrans | by apply Forall_app].
    + intros [= <- <- <-]. eauto.
Qed.

Lemma frames_for_each {A} (body : A → script unit) (xs : list A) :
  (∀ x, frames R Q (body x)) → frames R Q (for_each body xs).
Proof.
  intros Hb. induction xs as [|x xs IH]; simpl.
  - apply frames_ret.
  - apply frames_bind; [apply Hb | intros _; apply IH].
Qed.

Lemma frames_comprehension {A B} (f : A → script B) (xs : list A) :
  (∀ x, frames R Q (f x)) → frames R Q (comprehension f xs).
Proof.
  intros Hf. induction xs as [|x xs IH]; simpl.
  - apply frames_ret.
  - apply frames_bind; [apply Hf | intros y].
    apply frames_bind; [apply IH | intros ys]. apply frames_ret.
Qed.
End Frames.

(** Breaks a composite computation into its steps. *)
Ltac frames_order :=
  try lazymatch goal with |- PreOrder _ => apply _ end.

Ltac frames_step :=
  lazymatch goal with
  | |- frames _ _ (mbind _ _) => apply frames_bind; [.. | intros ?]
  | |- frames _ _ (mret _) => apply frames_ret
  | |- frames _ _ (ret _) => apply (frames_ret _ _)
  | |- frames _ _ (raise _) => apply frames_raise
  | |- frames _ _ (gets _) => apply frames_gets
  | |- frames _ _ (emit _) => apply frames_emit; simpl; trivial
  | |- frames _ _ (read_name _ _) => apply frames_read_name
  | |- frames _ _ (getitem _ _) => apply frames_getitem
  | |- frames _ _ (try_except _ _) => apply frames_try_except; [.. | intros ?]
  | |- frames _ _ (for_each _ _) => apply frames_for_each; [.. | intros ?]
  | |- frames _ _ (comprehension _ _) =>
      apply frames_comprehension; [.. | intros ?]
  | |- frames _ _ (if ?b then _ else _) => destruct b
  | |- frames _ _ (match ?x with _ => _ end) => destruct x
  end; frames_order.

(** ** The context builder *)

Section Context.
Variable distance : string → string → nat.

Lemma style_block_run i r s title :
  rec_metadata r !! "title" = Some title →
  style_block i r s
  = (Return ("Your Style Example " +:+ str_of_nat i +:+ " - '" +:+ title
             +:+ "':" +:+ nl +:+ str_take 400 (rec_document r) +:+ "..."),
     s, []).
Proof. intros Ht. unfold style_block, getitem. by rewrite Ht. Qed.

Lemma creator_block_run i r s name title :
  rec_metadata r !! "creator_name" = Some name →
  rec_metadata r !! "content_title" = Some title →
  creator_block i r s
  = (Return ("Creator Example " +:+ str_of_nat i +:+ " - " +:+ name +:+ ": '"
             +:+ title +:+ "':" +:+ nl +:+ str_take 400 (rec_document r)
             +:+ "..."),
     s, []).
Proof. intros Hn Ht. unfold creator_block, getitem. by rewrite Hn, Ht. Qed.

(** A comprehension whose element computation always returns, silently
    and without touching the state, does the same. *)
Lemma comprehension_quiet {A B} (f : A → script B) (g : A → B) xs s :
  (∀ x, x ∈ xs → f x s = (Return (g x), s, [])) →
  comprehension f xs s = (Return (g <$> xs), s, []).
Proof.
  induction xs as [|x xs IH]; intros Hf; [done|].
  simpl. unfold mbind, script_bind, bind.
  rewrite (Hf x) by left. rewrite IH by (intros; apply Hf; by right). done.
Qed.

Lemma comprehension_events {A B} (f : A → script B) xs s r s' out :
  (∀ x, frames eq (λ _, False) (f x)) →
  comprehension f xs s = (r, s', out) → s' = s ∧ out = [].
Proof.
  intros Hf E.
  destruct (frames_comprehension eq (λ _, False) f xs Hf _ _ _ _ E) as [-> Hout].
  split; [done|]. by destruct Hout.
Qed.

Lemma enumerate1_lookup {A} (xs : list A) i x :
  xs !! i = Some x → enumerate1 xs !! i = Some (S i, x).
Proof.
  intros Hx. unfold enumerate1.
  assert (Hi : i < length xs) by by eapply lookup_lt_Some.
  apply lookup_zip_Some. split; [|done]. by rewrite lookup_seq_lt.
Qed.

Lemma enumerate1_length {A} (xs : list A) : length (enumerate1 xs) = length xs.
Proof.
  unfold enumerate1. rewrite length_zip_with, length_seq. lia.
Qed.

Lemma enumerate1_elem {A} (xs : list A) ix :
  ix ∈ enumerate1 xs → ix.2 ∈ xs.
Proof.
  unfold enumerate1. destruct ix as [i x]. apply elem_of_zip_r.
Qed.

(** C6: when the mode includes the personal style, the builder issues
    one query on the personal collection, with the first 500 characters
    of the draft as probe and 2 results requested; it returns the header
    followed by one block per result, the i-th (from 1) reading
    "Your Style Example i - 'title':", a newline, the first 400
    characters of the stored text and "..."; and the draft stands
    unchanged, between quotation marks, in the prompt built from it. *)
Theorem style_context inp s source mine :
  inspiration_source (names s) = Some source →
  source ∈ ["My personal style only"; "Both my style and favorite creators"] →
  my_style_collection (names s) = Some mine →
  Forall (λ r, is_Some (rec_metadata r !! "title")) (collection_of s mine) →
  let probe := str_take 500 (user_script inp) in
  let results := Chroma.query distance (collection_of s mine) probe 2 None in
  ∃ blocks,
    style_part distance inp s
    = (Return (if nonempty results
               then "Your personal writing style examples:" :: blocks
               else []),
       s, [Query mine probe 2 None])
    ∧ length blocks = length results
    ∧ length results ≤ 2
    ∧ (∀ i r, results !! i = Some r →
         ∃ title, rec_metadata r !! "title" = Some title
           ∧ blocks !! i
             = Some ("Your Style Example " +:+ str_of_nat (S i) +:+ " - '"
                     +:+ title +:+ "':" +:+ nl
                     +:+ str_take 400 (rec_document r) +:+ "..."))
    ∧ (∀ focus context,
         occurs_in (dquote +:+ user_script inp +:+ dquote)
                   (enhancement_prompt (user_script inp) focus context)).
Proof.
  intros Hsource Hmode Hmine Htitles probe results.
  set (text := λ ir : nat * record,
         "Your Style Example " +:+ str_of_nat ir.1 +:+ " - '"
         +:+ default EmptyString (rec_metadata ir.2 !! "title") +:+ "':" +:+ nl
         +:+ str_take 400 (rec_document ir.2) +:+ "...").
  exists (text <$> enumerate1 results).
  assert (Hres : ∀ r, r ∈ results → is_Some (rec_metadata r !! "title")).
  { intros r Hr. apply ChromaFacts.query_sound in Hr as [Hr _].
    by eapply Forall_forall in Htitles. }
  repeat split.
  - unfold style_part, read_name, collection_query.
    unfold mbind, script_bind, bind, emit, gets, ret.
    rewrite Hsource. simpl. rewrite (bool_decide_eq_true_2 _ Hmode).
    rewrite Hmine. simpl. fold probe results.
    destruct (nonempty results) eqn:Hne; [|done].
    rewrite (comprehension_quiet _ text).
    + done.
    + intros [i r] Hir. apply enumerate1_elem, Hres in Hir as [title Ht].
      simpl in *. rewrite (style_block_run _ _ _ title) by done.
      unfold text. simpl. by rewrite Ht.
  - by rewrite length_fmap, enumerate1_length.
  - unfold results. rewrite ChromaFacts.query_length. lia.
  - intros i r Hr. destruct (Hres r) as [title Ht].
    { by eapply list_elem_of_lookup_2. }
    exists title. split; [done|].
    rewrite list_lookup_fmap, (enumerate1_lookup _ _ _ Hr). simpl.
    unfold text. simpl. by rewrite Ht.
  - intros. apply prompt_embeds_script.
Qed.

Lemma where_filter_some chosen :
  chosen ≠ [] → where_filter (Some chosen) = Some ("creator_name", chosen).
Proof. by destruct chosen. Qed.

Lemma where_filter_none selection :
  selection = None ∨ selection = Some [] → where_filter selection = None.
Proof. by intros [-> | ->]. Qed.

Lemma creator_part_run inp s source selection theirs :
  inspiration_source (names s) = Some source →
  source ∈ ["Favorite creators only"; "Both my style and favorite creators"] →
  creator_selection (names s) = Some selection →
  creators_collection (names s) = Some theirs →
  let probe := str_take 500 (user_script inp) in
  let results :=
    Chroma.query distance (collection_of s theirs) probe 3
      (where_filter selection) in
  creator_part distance inp s
  = if nonempty results then
      match comprehension (λ ir, creator_block ir.1 ir.2)
              (enumerate1 results) s with
      | (Return blocks, _, _) =>
          (Return ((nl +:+ "Successful creator examples for inspiration:")
                   :: blocks),
           s, [Query theirs probe 3 (where_filter selection)])
      | (Raise e, _, _) =>
          (Raise e, s, [Query theirs probe 3 (where_filter selection)])
      end
    else (Return [], s, [Query theirs probe 3 (where_filter selection)]).
Proof.
  intros Hsource Hmode Hsel Htheirs probe results.
  unfold creator_part, read_name, collection_query.
  unfold mbind, script_bind, bind, emit, gets, ret.
  rewrite Hsource. simpl. rewrite (bool_decide_eq_true_2 _ Hmode).
  rewrite Hsel. simpl. rewrite Htheirs. simpl. fold probe results.
  destruct (nonempty results); [|done].
  destruct (comprehension _ _ s) as [[rb sb] outb] eqn:Eb.
  apply comprehension_events in Eb as [-> ->].
  - by destruct rb.
  - intros x. unfold creator_block. repeat frames_step.
Qed.

(** C7: when the mode includes creators, the builder issues one query on
    the creators collection with the same 500-character probe and 3
    results requested.  With a non-empty selection the filter is
    creator_name-in-selection and every result is a stored record whose
    creator_name is in the selection; with an empty or absent selection
    there is no filter and the results are the 3 nearest among all stored
    records, whoever their creator. *)
Theorem creator_query_filter inp s source selection theirs :
  inspiration_source (names s) = Some source →
  source ∈ ["Favorite creators only"; "Both my style and favorite creators"] →
  creator_selection (names s) = Some selection →
  creators_collection (names s) = Some theirs →
  let probe := str_take 500 (user_script inp) in
  let stored := collection_of s theirs in
  let results := Chroma.query distance stored probe 3 (where_filter selection) in
  (∃ r, creator_part distance inp s
        = (r, s, [Query theirs probe 3 (where_filter selection)]))
  ∧ length results ≤ 3
  ∧ (∀ chosen, selection = Some chosen → chosen ≠ [] →
       where_filter selection = Some ("creator_name", chosen)
       ∧ ∀ r, r ∈ results →
           r ∈ stored
           ∧ ∃ name, rec_metadata r !! "creator_name" = Some name
                     ∧ name ∈ chosen)
  ∧ (selection = None ∨ selection = Some [] →
       where_filter selection = None
       ∧ results = take 3 (Chroma.nearest distance probe stored)
       ∧ length results = 3 `min` length stored).
Proof.
  intros Hsource Hmode Hsel Htheirs probe stored results.
  split; [|split; [|split]].
  - rewrite (creator_part_run _ _ _ _ _ Hsource Hmode Hsel Htheirs).
    fold probe stored results.
    destruct (nonempty results); [|eauto].
    destruct (comprehension _ _ s) as [[[blocks|e] ?] ?]; eauto.
  - unfold results. rewrite ChromaFacts.query_length. lia.
  - intros chosen -> Hchosen. split; [by apply where_filter_some|].
    intros r Hr. unfold results in Hr.
    rewrite where_filter_some in Hr by done.
    apply ChromaFacts.query_sound in Hr as [Hr Hsat]. split; [done|].
    simpl in Hsat.
    destruct (rec_metadata r !! "creator_name") as [name|]; [|done].
    exists name. split; [done|]. by apply bool_decide_eq_true in Hsat.
  - intros Hnone. unfold results. rewrite where_filter_none by done.
    split; [done|]. apply ChromaFacts.query_unrestricted.
Qed.

(** C8: when every collection the mode consults is empty (for the
    creators collection: holds no record that satisfies the filter), the
    builder returns exactly "No relevant examples found." without raising
    and without changing the state; a query on an empty collection, or on
    one where nothing satisfies the filter, gives the empty result. *)
Theorem empty_store_gives_sentinel inp s source selection mine theirs :
  inspiration_source (names s) = Some source →
  creator_selection (names s) = Some selection →
  my_style_collection (names s) = Some mine →
  creators_collection (names s) = Some theirs →
  (source ∈ ["My personal style only"; "Both my style and favorite creators"] →
   collection_of s mine = []) →
  (source ∈ ["Favorite creators only"; "Both my style and favorite creators"] →
   Forall (λ r, Chroma.satisfies (where_filter selection) r = false)
          (collection_of s theirs)) →
  (∃ out, context_builder distance inp s
          = (Return "No relevant examples found.", s, out)
          ∧ Forall is_query out)
  ∧ (∀ probe k w, Chroma.query distance [] probe k w = [])
  ∧ (∀ c probe k w, Forall (λ r, Chroma.satisfies w r = false) c →
       Chroma.query distance c probe k w = []).
Proof.
  intros Hsource Hsel Hmine Htheirs Hempty Hnomatch.
  split; [|split; [apply ChromaFacts.query_empty
                  | apply ChromaFacts.query_no_match]].
  assert (Hmine_part : ∃ out1, style_part distance inp s = (Return [], s, out1)
                                ∧ Forall is_query out1).
  { unfold style_part, read_name, collection_query.
    unfold mbind, script_bind, bind, emit, gets, ret.
    rewrite Hsource. simpl. case_bool_decide as Hmode; [|by eexists].
    rewrite Hmine. simpl. rewrite Hempty, ChromaFacts.query_empty by done.
    simpl. eexists. split; [done|]. by repeat constructor. }
  assert (Htheirs_part : ∃ out2, creator_part distance inp s = (Return [], s, out2)
                                  ∧ Forall is_query out2).
  { destruct (decide (source ∈ ["Favorite creators only";
                                "Both my style and favorite creators"]))
      as [Hmode|Hmode].
    - rewrite (creator_part_run _ _ _ _ _ Hsource Hmode Hsel Htheirs).
      rewrite ChromaFacts.query_no_match by auto. simpl.
      eexists. split; [done|]. by repeat constructor.
    - unfold creator_part, read_name.
      unfold mbind, script_bind, bind, ret. rewrite Hsource. simpl.
      rewrite (bool_decide_eq_false_2 _ Hmode). by eexists. }
  destruct Hmine_part as (out1 & E1 & Hq1), Htheirs_part as (out2 & E2 & Hq2).
  exists (out1 ++ out2 ++ []). split.
  - unfold context_builder, mbind, script_bind, bind, ret. by rewrite E1, E2.
  - rewrite app_nil_r. by apply Forall_app.
Qed.

(** C10: a style block and a creator block are the label, a newline, the
    first 400 characters of the stored text and then "...", always; for a
    text of at most 400 characters the block is the label, the whole
    text, and "...". *)
Theorem ellipsis_is_unconditional i s (mine theirs : record) title name ctitle :
  rec_metadata mine !! "title" = Some title →
  rec_metadata theirs !! "creator_name" = Some name →
  rec_metadata theirs !! "content_title" = Some ctitle →
  style_block i mine s
  = (Return ("Your Style Example " +:+ str_of_nat i +:+ " - '" +:+ title
             +:+ "':" +:+ nl +:+ str_take 400 (rec_document mine) +:+ "..."),
     s, [])
  ∧ creator_block i theirs s
    = (Return ("Creator Example " +:+ str_of_nat i +:+ " - " +:+ name
               +:+ ": '" +:+ ctitle +:+ "':" +:+ nl
               +:+ str_take 400 (rec_document theirs) +:+ "..."),
       s, [])
  ∧ (String.length (rec_document mine) ≤ 400 →
     style_block i mine s
     = (Return ("Your Style Example " +:+ str_of_nat i +:+ " - '" +:+ title
                +:+ "':" +:+ nl +:+ rec_document mine +:+ "..."),
        s, []))
  ∧ (String.length (rec_document theirs) ≤ 400 →
     creator_block i theirs s
     = (Return ("Creator Example " +:+ str_of_nat i +:+ " - " +:+ name
                +:+ ": '" +:+ ctitle +:+ "':" +:+ nl
                +:+ rec_document theirs +:+ "..."),
        s, [])).
Proof.
  intros Ht Hn Hc. repeat split.
  - by apply style_block_run.
  - by apply creator_block_run.
  - intros Hshort. rewrite (style_block_run _ _ _ title) by done.
    by rewrite str_take_all.
  - intros Hshort. rewrite (creator_block_run _ _ _ name ctitle) by done.
    by rewrite str_take_all.
Qed.
End Context.

(** ** The improve action *)

Section Improve.
Variable distance : string → string → nat.
Variable openai_chat : string → string → string + string.
Variable anthropic_messages : string → nat → string → string + string.

Lemma context_builder_frames inp :
  frames eq is_query (context_builder distance inp).
Proof.
  unfold context_builder, style_part, creator_part, collection_query,
    style_block, creator_block.
  repeat frames_step.
Qed.

Lemma elem_of_completions out provider model prompt :
  Completion provider model prompt ∈ out
  ↔ (provider, model, prompt) ∈ completions out.
Proof.
  unfold completions. rewrite list_elem_of_omap. split.
  - intros Hin. by exists (Completion provider model prompt).
  - intros (e & Hin & He). destruct e; try done. by injection He as -> -> ->.
Qed.

Lemma completions_app out1 out2 :
  completions (out1 ++ out2) = completions out1 ++ completions out2.
Proof. apply omap_app. Qed.

Lemma completions_skip e out :
  match e with Completion _ _ _ => False | _ => True end →
  completions (e :: out) = completions out.
Proof. by destruct e. Qed.

Lemma queries_no_completion out : Forall is_query out → completions out = [].
Proof.
  induction 1 as [|e out He _ IH]; [done|]. by destruct e.
Qed.

Lemma context_builder_state inp s r s' out :
  context_builder distance inp s = (r, s', out) →
  s' = s ∧ completions out = [].
Proof.
  intros E. destruct (context_builder_frames inp _ _ _ _ E) as [-> Hq].
  split; [done|]. by apply queries_no_completion.
Qed.

Lemma generate_cases inp context s r s' out :
  generate openai_chat anthropic_messages inp context s = (r, s', out) →
  (s' = s ∧ out = [] ∧ (∃ name, r = Raise (NameError name))
   ∧ (improvement_focus (names s) = None ∨ make_ai_call (names s) = None
      ∨ selected_model (names s) = None))
  ∨ ∃ focus m,
      improvement_focus (names s) = Some focus
      ∧ selected_model (names s) = Some m
      ∧ is_Some (make_ai_call (names s))
      ∧ let prompt := enhancement_prompt (user_script inp) focus context in
        let provider := if bool_decide (m.1 = "openai") then "openai" else "claude" in
        match backend_reply openai_chat anthropic_messages provider m.2 prompt with
        | inl text =>
            r = Return tt
            ∧ s' = with_session <["enhanced_script" := text]> s
            ∧ out = [Completion provider m.2 prompt;
                     Display st_success "Script improved successfully!"]
        | inr message =>
            r = Raise (BackendError message) ∧ s' = s
            ∧ out = [Completion provider m.2 prompt]
        end.
Proof.
  unfold generate, display, make_ai_call_body, read_name, backend_reply,
    mbind, script_bind, bind, modify, emit, raise, ret.
  destruct (improvement_focus (names s)) as [focus|] eqn:Ef; simpl;
    [|intros [= <- <- <-]; left; eauto 7].
  destruct (make_ai_call (names s)) as [[]|] eqn:Em; simpl;
    [|intros [= <- <- <-]; left; eauto 7].
  destruct (selected_model (names s)) as [m|] eqn:Es; simpl;
    [|intros [= <- <- <-]; left; eauto 7].
  intros E. right. exists focus, m. repeat split; [done|].
  destruct (bool_decide (m.1 = "openai")) eqn:Ep; simpl in *.
  - destruct (openai_chat _ _); simpl in E; injection E as <- <- <-; done.
  - destruct (anthropic_messages _ _ _); simpl in E; injection E as <- <- <-; done.
Qed.

(** C2: whenever an execution of the Improve handler reaches a generation
    backend and the call fails, the handler itself ends normally (nothing
    is raised past it), the state is exactly as before, so the result
    slot of the session holds what it held, and the last thing shown is
    the error message built from the failure. *)
Theorem improve_failure_is_contained inp s r s' out provider model prompt message :
  improve_action distance openai_chat anthropic_messages inp s = (r, s', out) →
  Completion provider model prompt ∈ out →
  backend_reply openai_chat anthropic_messages provider model prompt
    = inr message →
  r = Return tt
  ∧ s' = s
  ∧ session_state s' !! "enhanced_script" = session_state s !! "enhanced_script"
  ∧ last out = Some (Display st_error ("Error improving script: " +:+ message)).
Proof.
  rewrite elem_of_completions.
  unfold improve_action, button, read_name, improve_body.
  unfold mbind, script_bind, bind, emit, ret. simpl.
  destruct (bool_decide (clicked inp = Some "Improve My Script")); simpl.
  2:{ intros [= <- <- <-] Hin. by apply elem_of_nil in Hin. }
  destruct (inspiration_source (names s)) as [source|]; simpl.
  2:{ intros [= <- <- <-] Hin. by apply elem_of_nil in Hin. }
  unfold try_except, display, emit.
  destruct (context_builder distance inp s) as [[[context|e] sc] outc] eqn:Ec;
    destruct (context_builder_state _ _ _ _ _ Ec) as [-> Hnone].
  2:{ destruct (is_Exception e); intros [= <- <- <-];
        rewrite !completions_skip, ?completions_app, Hnone by done; simpl;
        intros Hin; by apply elem_of_nil in Hin. }
  destruct (generate _ _ _ _ _) as [[rg sg] outg] eqn:Eg.
  apply generate_cases in Eg
    as [(-> & -> & (name & ->) & _)|(focus & m & _ & _ & _ & Eg)].
  { simpl. intros [= <- <- <-].
    rewrite !completions_skip, !completions_app, Hnone by done.
    simpl. intros Hin. by apply elem_of_nil in Hin. }
  simpl in Eg.
  destruct (backend_reply _ _ _ _ _) as [text|failure] eqn:Er;
    destruct Eg as (-> & -> & ->); simpl; intros [= <- <- <-];
    rewrite !completions_skip, !completions_app, Hnone by done; simpl;
    intros Hin%list_elem_of_singleton; injection Hin as -> -> ->;
    rewrite Er; intros [= ->].
  repeat split. rewrite !app_comm_cons. apply last_snoc.
Qed.
Lemma improve_body_prompt inp s focus context :
  (context_builder distance inp s).1.1 = Return context →
  improvement_focus (names s) = Some focus →
  is_Some (make_ai_call (names s)) →
  is_Some (selected_model (names s)) →
  prompts_sent (improve_body distance openai_chat anthropic_messages inp s).2
  = [enhancement_prompt (user_script inp) focus context].
Proof.
  intros Hc Hf Hm Hs. unfold improve_body, mbind, script_bind, bind.
  destruct (context_builder distance inp s) as [[rc sc] outc] eqn:Ec.
  simpl in Hc. subst rc.
  destruct (context_builder_state _ _ _ _ _ Ec) as [-> Hnone].
  destruct (generate _ _ _ _ _) as [[rg sg] outg] eqn:Eg.
  apply generate_cases in Eg
    as [(_ & _ & _ & [Hx|[Hx|Hx]])|(focus' & m & Hf' & _ & _ & Eg)].
  - congruence.
  - rewrite Hx in Hm. by destruct Hm.
  - rewrite Hx in Hs. by destruct Hs.
  - assert (focus' = focus) as -> by congruence.
    unfold prompts_sent. simpl. rewrite completions_app, Hnone. simpl in *.
    destruct (backend_reply _ _ _ _ _); by destruct Eg as (_ & _ & ->).
Qed.
End Improve.

(** C9: in any two executions of the handler's body that have the same
    draft, the same focus and the same context, whatever the stores, the
    session state, the model choice and the services are, exactly one
    prompt is sent and it is the same text in both: the template applied
    to draft, focus and context.  The draft stands in it word for word,
    between quotation marks. *)
Theorem prompt_is_deterministic
    (d1 d2 : string → string → nat)
    (o1 o2 : string → string → string + string)
    (a1 a2 : string → nat → string → string + string)
    (inp1 inp2 : inputs) (s1 s2 : state) (focus context : string) :
  user_script inp1 = user_script inp2 →
  improvement_focus (names s1) = Some focus →
  improvement_focus (names s2) = Some focus →
  (context_builder d1 inp1 s1).1.1 = Return context →
  (context_builder d2 inp2 s2).1.1 = Return context →
  is_Some (make_ai_call (names s1)) → is_Some (selected_model (names s1)) →
  is_Some (make_ai_call (names s2)) → is_Some (selected_model (names s2)) →
  prompts_sent (improve_body d1 o1 a1 inp1 s1).2
  = [enhancement_prompt (user_script inp1) focus context]
  ∧ prompts_sent (improve_body d2 o2 a2 inp2 s2).2
    = prompts_sent (improve_body d1 o1 a1 inp1 s1).2
  ∧ occurs_in (dquote +:+ user_script inp1 +:+ dquote)
              (enhancement_prompt (user_script inp1) focus context).
Proof.
  intros Hscript Hf1 Hf2 Hc1 Hc2 Hm1 Hs1 Hm2 Hs2.
  rewrite (improve_body_prompt d1 o1 a1 inp1 s1 focus context) by done.
  rewrite (improve_body_prompt d2 o2 a2 inp2 s2 focus context) by done.
  rewrite Hscript. repeat split. apply prompt_embeds_script.
Qed.

(** ** Saving examples *)

Lemma collection_of_insert s name c :
  collection_of (with_client <[name := c]> s) name = c.
Proof. unfold collection_of, with_client. simpl. by rewrite lookup_insert_eq. Qed.

Lemma collection_of_insert_ne s name other c :
  name ≠ other →
  collection_of (with_client <[name := c]> s) other = collection_of s other.
Proof.
  intros Hne. unfold collection_of, with_client. simpl.
  by rewrite lookup_insert_ne.
Qed.

Lemma save_style_form_run inp s :
  save_style_form inp s
  = let form := [Display st_write "Add examples of your successful content:";
                 Input st_text_input "Content title/topic:" [];
                 Input st_text_area "Your script or content:" [];
                 Input st_text_input "Style notes (optional):" [];
                 Button "Save My Style Example" "Save My Style Example"] in
    if bool_decide (clicked inp = Some "Save My Style Example")
       && (truthy (example_title inp) && truthy (example_script inp))
    then
      match my_style_collection (names s) with
      | Some c =>
          (Return tt,
           with_client
             <[c := Chroma.add (collection_of s c) (example_script inp)
                      {[ "title" := example_title inp;
                         "notes" := example_notes inp;
                         "timestamp" := clock inp ]}
                      ("my_style_"
                       +:+ str_of_nat (length (collection_of s c) + 1))]> s,
           form ++ [Display st_success ("Saved: " +:+ example_title inp)])
      | None => (Raise (NameError "my_style_collection"), s, form)
      end
    else (Return tt, s, form).
Proof.
  unfold save_style_form, display, widget, button, read_name, collection_get,
    collection_add, Chroma.get, Chroma.ids.
  unfold mbind, script_bind, bind, emit, gets, modify, ret. simpl.
  destruct (bool_decide (clicked inp = Some "Save My Style Example")); simpl;
    [|done].
  destruct (truthy (example_title inp) && truthy (example_script inp)); simpl;
    [|done].
  destruct (my_style_collection (names s)); simpl; [|done].
  by rewrite length_fmap.
Qed.

Lemma save_creator_form_run inp s :
  save_creator_form inp s
  = let form := [Display st_write "Add content from creators you admire:";
                 Input st_text_input "Creator name:" [];
                 Input st_text_input "Video/content title:" [];
                 Input st_text_area "Creator's script/transcript:" [];
                 Input st_text_input "What you like about this content:" [];
                 Button "Save Creator Content" "Save Creator Content"] in
    if bool_decide (clicked inp = Some "Save Creator Content")
       && (truthy (creator_name inp) && truthy (content_title inp)
           && truthy (creator_content inp))
    then
      match creators_collection (names s) with
      | Some c =>
          (Return tt,
           with_client
             <[c := Chroma.add (collection_of s c) (creator_content inp)
                      {[ "creator_name" := creator_name inp;
                         "content_title" := content_title inp;
                         "notes" := content_notes inp;
                         "timestamp" := clock inp ]}
                      ("creator_"
                       +:+ str_of_nat (length (collection_of s c) + 1))]> s,
           form ++ [Display st_success
                      ("Saved content from " +:+ creator_name inp +:+ ": "
                       +:+ content_title inp)])
      | None => (Raise (NameError "creators_collection"), s, form)
      end
    else (Return tt, s, form).
Proof.
  unfold save_creator_form, display, widget, button, read_name, collection_get,
    collection_add, Chroma.get, Chroma.ids.
  unfold mbind, script_bind, bind, emit, gets, modify, ret. simpl.
  destruct (bool_decide (clicked inp = Some "Save Creator Content")); simpl;
    [|done].
  destruct (truthy (creator_name inp) && truthy (content_title inp)
            && truthy (creator_content inp)); simpl; [|done].
  destruct (creators_collection (names s)); simpl; [|done].
  by rewrite length_fmap.
Qed.

(** C3: a save with every required field non-empty returns normally and
    appends exactly one record to its collection: the size grows by one,
    the record's id is "my_style_n" (resp. "creator_n") with n the size
    before the save plus one, and a lookup by that id right after finds
    the record. *)
Theorem valid_save_adds_one_entry :
  (∀ inp s mine,
     clicked inp = Some "Save My Style Example" →
     example_title inp ≠ EmptyString →
     example_script inp ≠ EmptyString →
     my_style_collection (names s) = Some mine →
     let old := collection_of s mine in
     let id := "my_style_" +:+ str_of_nat (length old + 1) in
     let entry :=
       Record_ id (example_script inp)
         {[ "title" := example_title inp; "notes" := example_notes inp;
            "timestamp" := clock inp ]} in
     ∃ s' out,
       save_style_form inp s = (Return tt, s', out)
       ∧ collection_of s' mine = old ++ [entry]
       ∧ length (collection_of s' mine) = length old + 1
       ∧ entry ∈ Chroma.get_id (collection_of s' mine) id)
  ∧ (∀ inp s theirs,
       clicked inp = Some "Save Creator Content" →
       creator_name inp ≠ EmptyString →
       content_title inp ≠ EmptyString →
       creator_content inp ≠ EmptyString →
       creators_collection (names s) = Some theirs →
       let old := collection_of s theirs in
       let id := "creator_" +:+ str_of_nat (length old + 1) in
       let entry :=
         Record_ id (creator_content inp)
           {[ "creator_name" := creator_name inp;
              "content_title" := content_title inp;
              "notes" := content_notes inp; "timestamp" := clock inp ]} in
       ∃ s' out,
         save_creator_form inp s = (Return tt, s', out)
         ∧ collection_of s' theirs = old ++ [entry]
         ∧ length (collection_of s' theirs) = length old + 1
         ∧ entry ∈ Chroma.get_id (collection_of s' theirs) id).
Proof.
  split.
  - intros inp s mine Hclick Ht%truthy_true Hb%truthy_true Hmine old id entry.
    rewrite save_style_form_run. simpl.
    rewrite Hclick, bool_decide_eq_true_2, Ht, Hb, Hmine by done. simpl.
    do 2 eexists. split; [done|]. rewrite collection_of_insert.
    split; [done|]. split.
    + apply ChromaFacts.length_add.
    + apply ChromaFacts.get_id_add.
  - intros inp s theirs Hclick Hn%truthy_true Ht%truthy_true Hb%truthy_true
      Htheirs old id entry.
    rewrite save_creator_form_run. simpl.
    rewrite Hclick, bool_decide_eq_true_2, Hn, Ht, Hb, Htheirs by done. simpl.
    do 2 eexists. split; [done|]. rewrite collection_of_insert.
    split; [done|]. split.
    + apply ChromaFacts.length_add.
    + apply ChromaFacts.get_id_add.
Qed.

(** C5: a save form with an empty required field shows its widgets and
    nothing else (no success, no error), raises nothing and leaves the
    whole state, so every collection and its size, as it was. *)
Theorem invalid_save_is_silent inp s :
  (example_title inp = EmptyString ∨ example_script inp = EmptyString →
   save_style_form inp s
   = (Return tt, s,
      [Display st_write "Add examples of your successful content:";
       Input st_text_input "Content title/topic:" [];
       Input st_text_area "Your script or content:" [];
       Input st_text_input "Style notes (optional):" [];
       Button "Save My Style Example" "Save My Style Example"]))
  ∧ (creator_name inp = EmptyString ∨ content_title inp = EmptyString
     ∨ creator_content inp = EmptyString →
     save_creator_form inp s
     = (Return tt, s,
        [Display st_write "Add content from creators you admire:";
         Input st_text_input "Creator name:" [];
         Input st_text_input "Video/content title:" [];
         Input st_text_area "Creator's script/transcript:" [];
         Input st_text_input "What you like about this content:" [];
         Button "Save Creator Content" "Save Creator Content"])).
Proof.
  split.
  - intros Hempty. rewrite save_style_form_run. simpl.
    replace (truthy (example_title inp) && truthy (example_script inp))
      with false; [by rewrite andb_false_r|].
    symmetry. apply andb_false_iff. by rewrite !truthy_false.
  - intros Hempty. rewrite save_creator_form_run. simpl.
    replace (truthy (creator_name inp) && truthy (content_title inp)
             && truthy (creator_content inp))
      with false; [by rewrite andb_false_r|].
    symmetry. rewrite !andb_false_iff, !truthy_false. tauto.
Qed.

(** ** Identifiers *)

Lemma numbered_nil prefix : numbered prefix [].
Proof. done. Qed.

Lemma numbered_add prefix c document metadata :
  numbered prefix c →
  numbered prefix
    (Chroma.add c document metadata (prefix +:+ str_of_nat (length c + 1))).
Proof.
  unfold numbered. intros Hc.
  rewrite ChromaFacts.ids_add, ChromaFacts.length_add, Hc.
  rewrite seq_app, fmap_app. simpl. by rewrite Nat.add_comm.
Qed.

Lemma numbered_NoDup prefix c : numbered prefix c → NoDup (Chroma.ids c).
Proof.
  unfold numbered. intros ->. apply NoDup_fmap_2; [|apply NoDup_seq].
  intros i j Hij. apply String.app_inj in Hij.
  by apply (inj pretty) in Hij.
Qed.

Lemma style_saves_numbered submissions s mine :
  my_style_collection (names s) = Some mine →
  numbered "my_style_" (collection_of s mine) →
  numbered "my_style_" (collection_of (style_saves submissions s) mine).
Proof.
  revert s. induction submissions as [|inp submissions IH];
    intros s Hmine Hnum; [done|].
  simpl. apply IH; rewrite save_style_form_run; simpl;
    destruct (_ && _); simpl; try done; rewrite Hmine; simpl; try done.
  rewrite collection_of_insert. by apply numbered_add.
Qed.

Lemma creator_saves_numbered submissions s theirs :
  creators_collection (names s) = Some theirs →
  numbered "creator_" (collection_of s theirs) →
  numbered "creator_" (collection_of (creator_saves submissions s) theirs).
Proof.
  revert s. induction submissions as [|inp submissions IH];
    intros s Htheirs Hnum; [done|].
  simpl. apply IH; rewrite save_creator_form_run; simpl;
    destruct (_ && _); simpl; try done; rewrite Htheirs; simpl; try done.
  rewrite collection_of_insert. by apply numbered_add.
Qed.

(** C4: in a collection that has only received saves, all ids differ;
    but after saving two style examples, deleting the first and saving a
    third, the new record gets the id "my_style_2" that the surviving
    second record already carries, and likewise in the creators
    collection after deleting a middle record. *)
Theorem ids_collide_after_deletion :
  (∀ submissions s mine,
     my_style_collection (names s) = Some mine →
     collection_of s mine = [] →
     NoDup (Chroma.ids (collection_of (style_saves submissions s) mine)))
  ∧ (∀ submissions s theirs,
       creators_collection (names s) = Some theirs →
       collection_of s theirs = [] →
       NoDup (Chroma.ids (collection_of (creator_saves submissions s) theirs)))
  ∧ (let before :=
       session length_distance canned_openai canned_anthropic
         [saving_style "First" "one" EmptyString;
          saving_style "Second" "two" EmptyString;
          deleting_style "my_style_1"] initial in
     let after :=
       session length_distance canned_openai canned_anthropic
         [saving_style "Third" "three" EmptyString] before in
     Chroma.ids (collection_of before "my_content_style") = ["my_style_2"]
     ∧ Chroma.documents (collection_of before "my_content_style") = ["two"]
     ∧ Chroma.ids (collection_of after "my_content_style")
       = ["my_style_2"; "my_style_2"]
     ∧ Chroma.documents (collection_of after "my_content_style")
       = ["two"; "three"])
  ∧ (let before :=
       session length_distance canned_openai canned_anthropic
         [saving_creator "Ali" "Morning routine" "one" EmptyString;
          saving_creator "Bea" "Desk tour" "two" EmptyString;
          saving_creator "Ali" "Evening routine" "three" EmptyString;
          deleting_creator "creator_2"] initial in
     let after :=
       session length_distance canned_openai canned_anthropic
         [saving_creator "Cy" "Travel vlog" "four" EmptyString] before in
     Chroma.ids (collection_of before "favorite_creators")
     = ["creator_1"; "creator_3"]
     ∧ Chroma.ids (collection_of after "favorite_creators")
       = ["creator_1"; "creator_3"; "creator_3"]
     ∧ Chroma.documents (collection_of after "favorite_creators")
       = ["one"; "three"; "four"]).
Proof.
  split; [|split; [|split]].
  - intros submissions s mine Hmine Hempty.
    apply (numbered_NoDup "my_style_"), style_saves_numbered; [done|].
    rewrite Hempty. apply numbered_nil.
  - intros submissions s theirs Htheirs Hempty.
    apply (numbered_NoDup "creator_"), creator_saves_numbered; [done|].
    rewrite Hempty. apply numbered_nil.
  - vm_compute. done.
  - vm_compute. done.
Qed.

(** ** Start-up *)

Section Startup.
Variable distance : string → string → nat.
Variable openai_chat : string → string → string + string.
Variable anthropic_messages : string → nat → string → string + string.

Lemma run_bind {A B} (m : script A) (k : A → script B) s :
  (m ≫= k) s
  = match m s with
    | (Return a, s1, out1) =>
        match k a s1 with (r, s2, out2) => (r, s2, out1 ++ out2) end
    | (Raise e, s1, out1) => (Raise e, s1, out1)
    end.
Proof. reflexivity. Qed.

Lemma startup_without_credentials inp s :
  truthy_env (OPENAI_API_KEY inp) = false
  ∨ truthy_env (ANTHROPIC_API_KEY inp) = false →
  startup inp s
  = (Return tt, s,
     [Display st_title "My Content Creator AI Assistant";
      Display st_write "Welcome to your AI-powered content creation tool!";
      Display st_error
        "Please set both OPENAI_API_KEY and ANTHROPIC_API_KEY in your .env file!"]).
Proof.
  intros Hkeys. unfold startup.
  replace (negb (truthy_env (OPENAI_API_KEY inp))
           || negb (truthy_env (ANTHROPIC_API_KEY inp))) with true; [done|].
  symmetry. apply orb_true_iff. rewrite !negb_true_iff. done.
Qed.

Lemma script_editor_no_draft inp s :
  user_script inp = EmptyString →
  script_editor inp s
  = (Return tt, s,
     [Display st_subheader "Script Editor & Improvement";
      Display st_write "Transform your rough draft into a polished script using inspiration from your style and favorite creators.";
      Input st_text_area "Your rough draft:" []]).
Proof.
  intros Hdraft. unfold script_editor, display, widget.
  unfold mbind, script_bind, bind, emit, ret. by rewrite Hdraft.
Qed.

Lemma improve_action_not_pressed inp s :
  clicked inp ≠ Some "Improve My Script" →
  improve_action distance openai_chat anthropic_messages inp s
  = (Return tt, s, [Button "Improve My Script" "Improve My Script"]).
Proof.
  intros Hclick. unfold improve_action, button.
  unfold mbind, script_bind, bind, emit, ret. simpl.
  by rewrite (bool_decide_eq_false_2 _ Hclick).
Qed.

Lemma show_enhanced_run s :
  show_enhanced s
  = (Return tt, s,
     match session_state s !! "enhanced_script" with
     | Some text =>
         [Display st_markdown "### Your Enhanced Script";
          Display st_write text;
          DownloadButton "Download Enhanced Script" text "enhanced_script.txt"]
     | None => []
     end).
Proof.
  unfold show_enhanced, display. unfold mbind, script_bind, bind, emit, gets, ret.
  simpl. by destruct (session_state s !! "enhanced_script").
Qed.

Lemma memory_banks_unbound inp s :
  my_style_collection (names s) = None →
  memory_banks inp s
  = (Raise (NameError "my_style_collection"), s,
     [Display st_markdown "---";
      Display st_subheader "Content Memory Banks";
      Layout st_tabs ["My Style Library"; "Favorite Creators"];
      Layout st_tabs ["Add Style Example"; "View My Content"];
      Display st_write "Add examples of your successful content:";
      Input st_text_input "Content title/topic:" [];
      Input st_text_area "Your script or content:" [];
      Input st_text_input "Style notes (optional):" [];
      Button "Save My Style Example" "Save My Style Example"]).
Proof.
  intros Hunbound.
  unfold memory_banks, save_style_form, view_style, display, widget, button,
    read_name.
  unfold mbind, script_bind, bind, emit, gets, ret. simpl.
  destruct (bool_decide _); simpl;
    [destruct (truthy (example_title inp) && truthy (example_script inp))|];
    simpl; by rewrite Hunbound.
Qed.

(** C1 (what the program does instead): with a credential missing, an
    empty draft and the Improve button not pressed, the execution shows
    the error message and then goes on to render the draft editor, the
    Improve button, any earlier result, and the style form with its Save
    button, before it stops on the unbound name [my_style_collection]. *)
Theorem widgets_shown_without_credentials inp s :
  truthy_env (OPENAI_API_KEY inp) = false
  ∨ truthy_env (ANTHROPIC_API_KEY inp) = false →
  user_script inp = EmptyString →
  clicked inp ≠ Some "Improve My Script" →
  execute distance openai_chat anthropic_messages inp s
  = (Raise (NameError "my_style_collection"), reloaded s,
     [Display st_title "My Content Creator AI Assistant";
      Display st_write "Welcome to your AI-powered content creation tool!";
      Display st_error
        "Please set both OPENAI_API_KEY and ANTHROPIC_API_KEY in your .env file!";
      Display st_subheader "Script Editor & Improvement";
      Display st_write "Transform your rough draft into a polished script using inspiration from your style and favorite creators.";
      Input st_text_area "Your rough draft:" [];
      Button "Improve My Script" "Improve My Script"]
     ++ match session_state s !! "enhanced_script" with
        | Some text =>
            [Display st_markdown "### Your Enhanced Script";
             Display st_write text;
             DownloadButton "Download Enhanced Script" text
               "enhanced_script.txt"]
        | None => []
        end
     ++ [Display st_markdown "---";
         Display st_subheader "Content Memory Banks";
         Layout st_tabs ["My Style Library"; "Favorite Creators"];
         Layout st_tabs ["Add Style Example"; "View My Content"];
         Display st_write "Add examples of your successful content:";
         Input st_text_input "Content title/topic:" [];
         Input st_text_area "Your script or content:" [];
         Input st_text_input "Style notes (optional):" [];
         Button "Save My Style Example" "Save My Style Example"]).
Proof.
  intros Hkeys Hdraft Hclick. unfold execute, app_py.
  rewrite run_bind, startup_without_credentials by done.
  rewrite run_bind, script_editor_no_draft by done.
  rewrite run_bind, improve_action_not_pressed by done.
  rewrite run_bind, show_enhanced_run.
  rewrite memory_banks_unbound by done.
  simpl. done.
Qed.
End Startup.

(** ** Reachable states *)

#[local] Instance steady_preorder : PreOrder steady.
Proof.
  split.
  - intros s. by repeat split.
  - intros s1 s2 s3 (Hm1 & Hc1 & Hs1) (Hm2 & Hc2 & Hs2). repeat split.
    + by rewrite Hm2.
    + by rewrite Hc2.
    + intros name. transitivity (collection_of s2 name); auto.
Qed.

Lemma steady_consistent s s' : steady s s' → consistent s → consistent s'.
Proof.
  intros (Hm & Hc & Hsub) [[Hstyle Hcreator] [Hmine Htheirs]].
  split; split.
  - apply Forall_forall. intros r Hr%(Hsub "my_content_style").
    by eapply Forall_forall in Hstyle.
  - apply Forall_forall. intros r Hr%(Hsub "favorite_creators").
    by eapply Forall_forall in Hcreator.
  - intros c. rewrite Hm. apply Hmine.
  - intros c. rewrite Hc. apply Htheirs.
Qed.

Lemma steady_delete s c id :
  steady s (with_client <[c := Chroma.delete (collection_of s c) id]> s).
Proof.
  repeat split. intros name. destruct (decide (c = name)) as [->|Hne].
  - rewrite collection_of_insert. intros r Hr.
    by apply list_elem_of_filter in Hr as [_ ?].
  - by rewrite collection_of_insert_ne.
Qed.

Section Invariant.
Variable distance : string → string → nat.
Variable openai_chat : string → string → string + string.
Variable anthropic_messages : string → nat → string → string + string.

Ltac steady_modify :=
  lazymatch goal with
  | |- frames steady _ (collection_delete _ _) =>
      apply frames_modify; frames_order; intros ?; apply steady_delete
  | |- frames steady _ (modify _) =>
      apply frames_modify; frames_order; intros ?; by repeat split
  end.

Lemma script_editor_steady inp : frames steady (λ _, True) (script_editor inp).
Proof.
  unfold script_editor, display, widget, collection_get,
    bind_inspiration_source, bind_creator_selection, bind_improvement_focus.
  repeat first [frames_step | steady_modify].
Qed.

Lemma improve_action_steady inp :
  frames steady (λ _, True)
    (improve_action distance openai_chat anthropic_messages inp).
Proof.
  unfold improve_action, improve_body, generate, make_ai_call_body,
    context_builder, style_part, creator_part, collection_query,
    style_block, creator_block, display, button.
  repeat first [frames_step | steady_modify].
Qed.

Lemma show_enhanced_steady : frames steady (λ _, True) show_enhanced.
Proof.
  unfold show_enhanced, display.
  repeat first [frames_step | steady_modify].
Qed.

Lemma view_style_steady inp : frames steady (λ _, True) (view_style inp).
Proof.
  unfold view_style, style_row, collection_get, display, button.
  repeat first [frames_step | steady_modify].
Qed.

Lemma group_by_creator_frames (R : relation state) `{!PreOrder R}
    (Q : event → Prop) rs creators_dict :
  frames R Q (group_by_creator rs creators_dict).
Proof.
  revert creators_dict. induction rs as [|r rs IH]; intros d; simpl.
  - apply frames_ret; apply _.
  - apply frames_bind; [apply _ | apply frames_getitem; apply _ | intros ?].
    apply IH.
Qed.

Lemma browse_creators_steady inp :
  frames steady (λ _, True) (browse_creators inp).
Proof.
  unfold browse_creators, creator_group, creator_row, collection_get,
    display, button.
  repeat first [frames_step | steady_modify
               | apply group_by_creator_frames; apply _].
Qed.

Lemma frames_weaken {A} (R1 R2 : relation state) (Q : event → Prop)
    (m : script A) :
  (∀ s s', R1 s s' → R2 s s') → frames R1 Q m → frames R2 Q m.
Proof. intros HR Hm s r s' out E. destruct (Hm _ _ _ _ E). auto. Qed.

#[local] Instance keeps_consistent_preorder : PreOrder keeps_consistent.
Proof.
  split.
  - intros s Hs. exact Hs.
  - intros s1 s2 s3 H12 H23 H1. apply H23, H12, H1.
Qed.

Lemma steady_keeps_consistent {A} (m : script A) :
  frames steady (λ _, True) m → frames keeps_consistent (λ _, True) m.
Proof.
  apply frames_weaken. intros s s' Hsteady Hs. by eapply steady_consistent.
Qed.

Lemma has_keys_style title notes timestamp id document :
  has_keys ["title"]
    (Record_ id document
       {[ "title" := title; "notes" := notes; "timestamp" := timestamp ]}).
Proof. repeat constructor. simpl. by simplify_map_eq. Qed.

Lemma has_keys_creator name title notes timestamp id document :
  has_keys ["creator_name"; "content_title"]
    (Record_ id document
       {[ "creator_name" := name; "content_title" := title;
          "notes" := notes; "timestamp" := timestamp ]}).
Proof. repeat constructor; simpl; by simplify_map_eq. Qed.

Lemma save_style_form_consistent inp :
  frames keeps_consistent (λ _, True) (save_style_form inp).
Proof.
  intros s r s' out. rewrite save_style_form_run. simpl.
  destruct (_ && _); [|intros [= <- <- <-]; split; [by intros ?|by apply Forall_true]].
  destruct (my_style_collection (names s)) as [c|] eqn:Ec;
    intros [= <- <- <-]; [|split; [by intros ?|by apply Forall_true]].
  split; [|by apply Forall_true].
  intros [[Hstyle Hcreator] [Hmine Htheirs]].
  rewrite (Hmine c Ec). split; [split|done]; simpl.
  - rewrite lookup_insert_eq. simpl. apply Forall_app. split; [done|].
    repeat constructor. simpl. by simplify_map_eq.
  - by rewrite lookup_insert_ne.
Qed.

Lemma save_creator_form_consistent inp :
  frames keeps_consistent (λ _, True) (save_creator_form inp).
Proof.
  intros s r s' out. rewrite save_creator_form_run. simpl.
  destruct (_ && _); [|intros [= <- <- <-]; split; [by intros ?|by apply Forall_true]].
  destruct (creators_collection (names s)) as [c|] eqn:Ec;
    intros [= <- <- <-]; [|split; [by intros ?|by apply Forall_true]].
  split; [|by apply Forall_true].
  intros [[Hstyle Hcreator] [Hmine Htheirs]].
  rewrite (Htheirs c Ec). split; [split|done]; simpl.
  - by rewrite lookup_insert_ne.
  - rewrite lookup_insert_eq. simpl. apply Forall_app. split; [done|].
    repeat constructor; simpl; by simplify_map_eq.
Qed.

Lemma get_or_create_lookup name client other :
  default [] (Chroma.get_or_create_collection name client !! other)
  = default [] (client !! other).
Proof.
  unfold Chroma.get_or_create_collection.
  destruct (client !! name) eqn:E; [done|].
  destruct (decide (name = other)) as [->|Hne].
  - by rewrite lookup_insert_eq, E.
  - by rewrite lookup_insert_ne.
Qed.

Lemma startup_consistent inp :
  frames keeps_consistent (λ _, True) (startup inp).
Proof.
  intros s r s' out. unfold startup, init_vector_databases, display, widget,
    bind_selected_model, bind_collections, bind_make_ai_call.
  unfold mbind, script_bind, bind, emit, modify, ret, raise.
  destruct (_ || _); simpl;
    [intros [= <- <- <-]; split; [by intros ?|by apply Forall_true]|].
  destruct (chosen_model inp); vm_compute (model_mapping !! _); simpl;
    intros [= <- <- <-]; (split; [|by apply Forall_true]);
    intros [[Hstyle Hcreator] _]; (split; [split|split]); simpl;
    rewrite ?get_or_create_lookup; try done; by intros c [= <-].
Qed.

Lemma app_py_consistent inp :
  frames keeps_consistent (λ _, True)
    (app_py distance openai_chat anthropic_messages inp).
Proof.
  unfold app_py, memory_banks, display.
  repeat lazymatch goal with
    | |- frames _ _ (startup _) => apply startup_consistent
    | |- frames _ _ (save_style_form _) => apply save_style_form_consistent
    | |- frames _ _ (save_creator_form _) => apply save_creator_form_consistent
    | |- frames _ _ (script_editor _) =>
        apply steady_keeps_consistent, script_editor_steady
    | |- frames _ _ (improve_action _ _ _ _) =>
        apply steady_keeps_consistent, improve_action_steady
    | |- frames _ _ show_enhanced =>
        apply steady_keeps_consistent, show_enhanced_steady
    | |- frames _ _ (view_style _) =>
        apply steady_keeps_consistent, view_style_steady
    | |- frames _ _ (browse_creators _) =>
        apply steady_keeps_consistent, browse_creators_steady
    | |- _ => frames_step
    end.
Qed.

(** Every execution leaves the store well formed. *)
Lemma execute_well_formed inp s :
  well_formed_store (client s) →
  well_formed_store
    (client (execute distance openai_chat anthropic_messages inp s).1.2).
Proof.
  intros Hs. unfold execute.
  destruct (app_py _ _ _ _ _) as [[r s'] out] eqn:E.
  destruct (app_py_consistent _ _ _ _ _ E) as [Hk _]. simpl.
  apply Hk. split; [done|]. by split.
Qed.

Lemma interact_well_formed inp s :
  well_formed_store (client s) →
  well_formed_store
    (client (interact distance openai_chat anthropic_messages inp s).1.2).
Proof.
  intros Hs. unfold interact.
  pose proof (execute_well_formed inp s Hs) as H1.
  destruct (execute _ _ _ inp s) as [[[|[]] s1] out1]; simpl in *; try done.
  by apply execute_well_formed.
Qed.

(** Whatever the user does, starting from an empty store, every style
    record has a title and every creator record has a creator name and a
    content title. *)
Lemma session_well_formed actions s :
  well_formed_store (client s) →
  well_formed_store
    (client (session distance openai_chat anthropic_messages actions s)).
Proof.
  revert s. induction actions as [|inp actions IH]; intros s Hs; [done|].
  simpl. apply IH. by apply interact_well_formed.
Qed.

Lemma initial_well_formed : well_formed_store (client initial).
Proof. split; constructor. Qed.
End Invariant.

Lemma collection_of_with_names f s name :
  collection_of (with_names f s) name = collection_of s name.
Proof. reflexivity. Qed.

Lemma startup_with_credentials inp s :
  truthy_env (OPENAI_API_KEY inp) = true →
  truthy_env (ANTHROPIC_API_KEY inp) = true →
  ∃ m out,
    startup inp s
    = (Return tt,
       State (session_state s)
         (Chroma.get_or_create_collection "favorite_creators"
            (Chroma.get_or_create_collection "my_content_style" (client s)))
         (Globals (Some m) (Some "my_content_style") (Some "favorite_creators")
            (Some tt) (inspiration_source (names s))
            (creator_selection (names s)) (improvement_focus (names s))),
       out).
Proof.
  intros Ho Ha. unfold startup, init_vector_databases, display, widget,
    bind_selected_model, bind_collections, bind_make_ai_call.
  unfold mbind, script_bind, bind, emit, modify, ret, raise.
  rewrite Ho, Ha. simpl.
  destruct (chosen_model inp); vm_compute (model_mapping !! _); simpl;
    do 2 eexists; reflexivity.
Qed.

Lemma script_editor_bindings inp s :
  user_script inp ≠ EmptyString →
  (∀ c, creators_collection (names s) = Some c →
        Forall (has_keys ["creator_name"; "content_title"]) (collection_of s c)) →
  is_Some (creators_collection (names s)) →
  ∃ selection out,
    script_editor inp s
    = (Return tt,
       State (session_state s) (client s)
         (Globals (selected_model (names s)) (my_style_collection (names s))
            (creators_collection (names s)) (make_ai_call (names s))
            (Some (inspiration_label (chosen_inspiration inp)))
            (Some selection)
            (Some (focus_label (chosen_focus inp)))),
       out).
Proof.
  intros Hdraft%truthy_true Hkeys [c Hc].
  specialize (Hkeys c Hc).
  unfold script_editor, display, widget, collection_get, read_name,
    bind_inspiration_source, bind_creator_selection, bind_improvement_focus.
  unfold mbind, script_bind, bind, emit, modify, gets, ret.
  rewrite Hdraft. simpl.
  destruct (bool_decide _); simpl; [|do 2 eexists; reflexivity].
  rewrite Hc. simpl. unfold Chroma.get. rewrite !collection_of_with_names.
  destruct (nonempty (Chroma.documents (collection_of s c))); simpl;
    [|do 2 eexists; rewrite <- Hc; reflexivity].
  set (s1 := with_names _ _).
  assert (Hname : ∀ meta, meta ∈ Chroma.metadatas (collection_of s c) →
            getitem meta "creator_name" s1
            = (Return (default EmptyString (meta !! "creator_name")), s1, [])).
  { intros meta (r & -> & Hr)%list_elem_of_fmap.
    eapply Forall_forall in Hkeys; [|done].
    apply Forall_cons in Hkeys as [[name Hn] _].
    unfold getitem. by rewrite Hn. }
  rewrite (comprehension_quiet _ (λ meta, default EmptyString (meta !! "creator_name")))
    by done.
  simpl. destruct (nonempty (chosen_creators inp)); simpl; [|do 2 eexists; rewrite <- Hc; reflexivity].
  set (s2 := with_names _ _).
  rewrite (comprehension_quiet _
             (λ meta, bool_decide (default EmptyString (meta !! "creator_name")
                                   ∈ chosen_creators inp))).
  - simpl. do 2 eexists; rewrite <- Hc; reflexivity.
  - intros meta (r & -> & Hr)%list_elem_of_fmap.
    eapply Forall_forall in Hkeys; [|done].
    apply Forall_cons in Hkeys as [[name Hn] _].
    unfold getitem, mbind, script_bind, bind, ret. by rewrite Hn.
Qed.

(** In an execution with both credentials and a draft, on a well-formed
    store, every name the Improve handler reads is bound when the handler
    is reached, the collection variables to their collections and the
    choices to the widget values; session state and collections are as
    the previous execution left them. *)
Lemma prepared_bindings inp s :
  truthy_env (OPENAI_API_KEY inp) = true →
  truthy_env (ANTHROPIC_API_KEY inp) = true →
  user_script inp ≠ EmptyString →
  well_formed_store (client s) →
  let s' := prepared inp s in
  my_style_collection (names s') = Some "my_content_style"
  ∧ creators_collection (names s') = Some "favorite_creators"
  ∧ is_Some (selected_model (names s'))
  ∧ is_Some (make_ai_call (names s'))
  ∧ inspiration_source (names s')
    = Some (inspiration_label (chosen_inspiration inp))
  ∧ is_Some (creator_selection (names s'))
  ∧ improvement_focus (names s') = Some (focus_label (chosen_focus inp))
  ∧ session_state s' = session_state s
  ∧ ∀ name, collection_of s' name = collection_of s name.
Proof.
  intros Ho Ha Hdraft [Hstyle Hcreator] s'. subst s'. unfold prepared.
  rewrite run_bind.
  destruct (startup_with_credentials inp (reloaded s) Ho Ha) as (m & out1 & ->).
  set (s1 := State _ _ _).
  destruct (script_editor_bindings inp s1 Hdraft) as (selection & out2 & ->).
  - intros c [= <-]. unfold collection_of, s1. simpl.
    by rewrite !get_or_create_lookup.
  - by eexists.
  - simpl. repeat split; try done; try by eexists.
    intros name. unfold collection_of. simpl.
    by rewrite !get_or_create_lookup.
Qed.

Section Reach.
Variable distance : string → string → nat.
Variable openai_chat : string → string → string + string.
Variable anthropic_messages : string → nat → string → string + string.

(** Such an execution is the handler and what follows it, run from the
    prepared state. *)
Lemma execute_from_prepared inp s :
  truthy_env (OPENAI_API_KEY inp) = true →
  truthy_env (ANTHROPIC_API_KEY inp) = true →
  user_script inp ≠ EmptyString →
  well_formed_store (client s) →
  ∃ shown,
    execute distance openai_chat anthropic_messages inp s
    = match (improve_action distance openai_chat anthropic_messages inp ;;
             show_enhanced ;; memory_banks inp) (prepared inp s) with
      | (r, s', out) => (r, s', shown ++ out)
      end.
Proof.
  intros Ho Ha Hdraft [Hstyle Hcreator]. unfold execute, app_py, prepared.
  rewrite !(run_bind (startup inp)).
  destruct (startup_with_credentials inp (reloaded s) Ho Ha) as (m & out1 & ->).
  set (s1 := State _ _ _).
  rewrite !(run_bind (script_editor inp)).
  destruct (script_editor_bindings inp s1 Hdraft) as (selection & out2 & ->).
  - intros c [= <-]. unfold collection_of, s1. simpl.
    by rewrite !get_or_create_lookup.
  - by eexists.
  - simpl. exists (out1 ++ out2).
    match goal with
    | |- context [mbind ?k (improve_action ?d ?o ?a ?i) ?st] =>
        destruct (mbind k (improve_action d o a i) st) as [[r s'] out]
    end.
    by rewrite app_assoc.
Qed.
End Reach.

(** * Worked instances *)

Lemma triple_eta {A B C} (p : A * B * C) : p = (p.1.1, p.1.2, p.2).
Proof. by destruct p as [[? ?] ?]. Qed.

(** With OPENAI_API_KEY unset and nothing typed or pressed, the style
    form's Save button is on the page and the execution ends on the
    unbound collection name. *)
Lemma widgets_shown_without_credentials_witness :
  truthy_env (OPENAI_API_KEY visitor_without_key) = false
  ∧ (execute length_distance canned_openai canned_anthropic
       visitor_without_key initial).1.1
    = Raise (NameError "my_style_collection")
  ∧ Button "Save My Style Example" "Save My Style Example"
    ∈ (execute length_distance canned_openai canned_anthropic
         visitor_without_key initial).2.
Proof.
  split; [reflexivity|].
  rewrite (widgets_shown_without_credentials length_distance canned_openai
             canned_anthropic visitor_without_key initial);
    [| left; reflexivity | reflexivity | discriminate].
  split; [reflexivity|]. vm_compute. repeat constructor.
Defined.

(** Two short stored texts: both blocks end in the three dots. *)
Lemma ellipsis_is_unconditional_witness :
  String.length (rec_document intro_hook) ≤ 400
  ∧ style_block 1 intro_hook initial
    = (Return ("Your Style Example 1 - 'Intro Hook':" +:+ nl
               +:+ "Hey everyone, welcome back..." +:+ "..."),
       initial, [])
  ∧ creator_block 2 morning_routine initial
    = (Return ("Creator Example 2 - Ali: 'Morning routine':" +:+ nl
               +:+ "I wake up at five." +:+ "..."),
       initial, []).
Proof.
  assert (Hshort : String.length (rec_document intro_hook) ≤ 400)
    by (vm_compute; lia).
  assert (Hshort' : String.length (rec_document morning_routine) ≤ 400)
    by (vm_compute; lia).
  split; [exact Hshort|].
  destruct (ellipsis_is_unconditional 1 initial intro_hook morning_routine
              "Intro Hook" "Ali" "Morning routine")
    as (_ & _ & Hmine & _); [reflexivity..|].
  destruct (ellipsis_is_unconditional 2 initial intro_hook morning_routine
              "Intro Hook" "Ali" "Morning routine")
    as (_ & _ & _ & Htheirs); [reflexivity..|].
  split; [exact (Hmine Hshort) | exact (Htheirs Hshort')].
Defined.

(** A session holding an earlier result, the Claude backend failing. *)
Lemma improve_failure_is_contained_witness :
  let inp := improving Claude_Sonnet_4 draft50 style_only [] hook in
  let s := with_earlier_result (prepared inp one_style_example) in
  let run := improve_action length_distance failing_openai failing_anthropic
               inp s in
  backend_reply failing_openai failing_anthropic "claude"
    "claude-sonnet-4-20250514"
    (enhancement_prompt draft50 "Hook and opening strength"
       (str_join (nl +:+ nl)
          ["Your personal writing style examples:";
           "Your Style Example 1 - 'Intro Hook':" +:+ nl
           +:+ "Hey everyone, welcome back..." +:+ "..."]))
  = inr "Overloaded"
  ∧ run.1.1 = Return tt
  ∧ session_state run.1.2 !! "enhanced_script" = Some "An earlier result."
  ∧ last run.2 = Some (Display st_error "Error improving script: Overloaded").
Proof.
  intros inp s run. split; [reflexivity|].
  destruct (improve_failure_is_contained length_distance failing_openai
              failing_anthropic inp s run.1.1 run.1.2 run.2
              "claude" "claude-sonnet-4-20250514"
              (enhancement_prompt draft50 "Hook and opening strength"
                 (str_join (nl +:+ nl)
                    ["Your personal writing style examples:";
                     "Your Style Example 1 - 'Intro Hook':" +:+ nl
                     +:+ "Hey everyone, welcome back..." +:+ "..."]))
              "Overloaded")
    as (Hr & _ & Hslot & Hl).
  - apply triple_eta.
  - vm_compute. repeat constructor.
  - reflexivity.
  - split; [exact Hr|]. split; [|exact Hl]. rewrite Hslot. reflexivity.
Defined.

(** A first style example, and a fourth creator example. *)
Lemma valid_save_adds_one_entry_witness :
  (let inp := saving_style "Intro Hook" "Hey everyone, welcome back..."
                EmptyString in
   let s := prepared inp initial in
   example_title inp ≠ EmptyString
   ∧ ∃ s' out,
       save_style_form inp s = (Return tt, s', out)
       ∧ Chroma.ids (collection_of s' "my_content_style") = ["my_style_1"])
  ∧ (let inp := saving_creator "Cy" "Travel vlog" "We landed at noon."
                  EmptyString in
     let s := prepared inp three_creator_examples in
     creator_name inp ≠ EmptyString
     ∧ ∃ s' out,
         save_creator_form inp s = (Return tt, s', out)
         ∧ Chroma.ids (collection_of s' "favorite_creators")
           = ["creator_1"; "creator_2"; "creator_3"; "creator_4"]).
Proof.
  destruct valid_save_adds_one_entry as [Hstyle Hcreator]. split.
  - intros inp s. split; [discriminate|].
    destruct (Hstyle inp s "my_content_style")
      as (s' & out & E & Hc & _); [reflexivity | discriminate..| reflexivity |].
    exists s', out. split; [exact E|]. rewrite Hc. reflexivity.
  - intros inp s. split; [discriminate|].
    destruct (Hcreator inp s "favorite_creators")
      as (s' & out & E & Hc & _); [reflexivity | discriminate..| reflexivity |].
    exists s', out. split; [exact E|]. rewrite Hc. reflexivity.
Defined.

(** Saves alone keep the ids apart. *)
Lemma ids_collide_after_deletion_witness :
  let s := prepared visitor initial in
  collection_of s "my_content_style" = []
  ∧ NoDup (Chroma.ids
             (collection_of
                (style_saves [saving_style "First" "one" EmptyString;
                              saving_style "Second" "two" EmptyString] s)
                "my_content_style"))
  ∧ NoDup (Chroma.ids
             (collection_of
                (creator_saves [saving_creator "Ali" "Morning routine" "one"
                                  EmptyString] s)
                "favorite_creators")).
Proof.
  intros s. destruct ids_collide_after_deletion as (Hstyle & Hcreator & _).
  split; [reflexivity|]. split.
  - apply Hstyle; reflexivity.
  - apply Hcreator; reflexivity.
Defined.

(** A style save with no title, a creator save with no text. *)
Lemma invalid_save_is_silent_witness :
  let s := prepared visitor one_style_example in
  (let inp := saving_style EmptyString "Hey everyone, welcome back..."
                EmptyString in
   example_title inp = EmptyString
   ∧ (save_style_form inp s).1 = (Return tt, s))
  ∧ (let inp := saving_creator "Ali" "Morning routine" EmptyString
                  EmptyString in
     creator_content inp = EmptyString
     ∧ (save_creator_form inp s).1 = (Return tt, s)).
Proof.
  intros s. split.
  - intros inp. split; [reflexivity|].
    destruct (invalid_save_is_silent inp s) as [Hstyle _].
    rewrite Hstyle; [reflexivity | left; reflexivity].
  - intros inp. split; [reflexivity|].
    destruct (invalid_save_is_silent inp s) as [_ Hcreator].
    rewrite Hcreator; [reflexivity | right; right; reflexivity].
Defined.

(** One stored example titled Intro Hook, a draft of 50 characters, the
    personal style alone as source. *)
Lemma style_context_witness :
  let inp := improving Claude_Sonnet_4 draft50 style_only [] hook in
  let s := prepared inp one_style_example in
  String.length (user_script inp) = 50
  ∧ inspiration_source (names s) = Some "My personal style only"
  ∧ ∃ blocks,
      style_part length_distance inp s
      = (Return ("Your personal writing style examples:" :: blocks), s,
         [Query "my_content_style" draft50 2 None])
      ∧ blocks !! 0
        = Some ("Your Style Example 1 - 'Intro Hook':" +:+ nl
                +:+ "Hey everyone, welcome back..." +:+ "...")
      ∧ occurs_in (dquote +:+ draft50 +:+ dquote)
          (enhancement_prompt draft50 "Hook and opening strength"
             (str_join (nl +:+ nl)
                ("Your personal writing style examples:" :: blocks))).
Proof.
  intros inp s. split; [reflexivity|]. split; [reflexivity|].
  destruct (style_context length_distance inp s "My personal style only"
              "my_content_style")
    as (blocks & E & _ & _ & Hblocks & Hdraft).
  - reflexivity.
  - repeat constructor.
  - reflexivity.
  - vm_compute. repeat constructor. by eexists.
  - exists blocks. split; [exact E|]. split; [|apply Hdraft].
    destruct (Hblocks 0 intro_hook) as (title & Ht & Hb); [reflexivity|].
    rewrite Hb. injection Ht as <-. reflexivity.
Defined.

(** Three stored creator examples; first Ali alone is selected, then
    nobody. *)
Lemma creator_query_filter_witness :
  let inp := improving GPT_5 draft50 creators_only ["Ali"] hook in
  let s := prepared inp three_creator_examples in
  let everyone := improving GPT_5 draft50 style_and_creators [] hook in
  let s_all := prepared everyone three_creator_examples in
  creator_selection (names s) = Some (Some ["Ali"])
  ∧ creator_selection (names s_all) = Some (Some [])
  ∧ (∀ r, r ∈ Chroma.query length_distance
                (collection_of s "favorite_creators")
                (str_take 500 draft50) 3 (where_filter (Some ["Ali"])) →
          ∃ name, rec_metadata r !! "creator_name" = Some name
                  ∧ name ∈ ["Ali"])
  ∧ length (Chroma.query length_distance
              (collection_of s_all "favorite_creators")
              (str_take 500 draft50) 3 (where_filter (Some [])))
    = 3 `min` length (collection_of s_all "favorite_creators").
Proof.
  intros inp s everyone s_all. split; [reflexivity|]. split; [reflexivity|].
  split.
  - destruct (creator_query_filter length_distance inp s
                "Favorite creators only" (Some ["Ali"]) "favorite_creators")
      as (_ & _ & Hchosen & _);
      [reflexivity | repeat constructor | reflexivity | reflexivity |].
    destruct (Hchosen ["Ali"]) as [_ Hin]; [reflexivity | discriminate |].
    intros r Hr. by apply Hin in Hr as [_ ?].
  - destruct (creator_query_filter length_distance everyone s_all
                "Both my style and favorite creators" (Some [])
                "favorite_creators")
      as (_ & _ & _ & Hall);
      [reflexivity | repeat constructor | reflexivity | reflexivity |].
    destruct Hall as (_ & _ & Hlen); [right; reflexivity|]. exact Hlen.
Defined.

(** Both sources asked for, both collections empty. *)
Lemma empty_store_gives_sentinel_witness :
  let inp := improving Claude_Sonnet_4 draft50 style_and_creators [] clarity in
  let s := prepared inp initial in
  collection_of s "my_content_style" = []
  ∧ collection_of s "favorite_creators" = []
  ∧ ∃ out, context_builder length_distance inp s
           = (Return "No relevant examples found.", s, out).
Proof.
  intros inp s. split; [reflexivity|]. split; [reflexivity|].
  destruct (empty_store_gives_sentinel length_distance inp s
              "Both my style and favorite creators" None
              "my_content_style" "favorite_creators")
    as [(out & E & _) _].
  - reflexivity.
  - reflexivity.
  - reflexivity.
  - reflexivity.
  - intros _. reflexivity.
  - intros _. constructor.
  - by exists out.
Defined.

(** The same draft and focus under two models, two sources and two
    session states. *)
Lemma prompt_is_deterministic_witness :
  let inp1 := improving Claude_Sonnet_4 draft50 style_only [] hook in
  let inp2 := improving GPT_5 draft50 creators_only [] hook in
  let s1 := prepared inp1 initial in
  let s2 := with_earlier_result (prepared inp2 initial) in
  user_script inp1 = user_script inp2
  ∧ prompts_sent
      (improve_body length_distance failing_openai failing_anthropic inp1 s1).2
    = [enhancement_prompt draft50 "Hook and opening strength"
         "No relevant examples found."]
  ∧ prompts_sent
      (improve_body length_distance canned_openai canned_anthropic inp2 s2).2
    = prompts_sent
        (improve_body length_distance failing_openai failing_anthropic
           inp1 s1).2.
Proof.
  intros inp1 inp2 s1 s2. split; [reflexivity|].
  destruct (prompt_is_deterministic length_distance length_distance
              failing_openai canned_openai failing_anthropic canned_anthropic
              inp1 inp2 s1 s2 "Hook and opening strength"
              "No relevant examples found.")
    as (Hfirst & Hsame & _);
    [reflexivity | reflexivity | reflexivity | reflexivity | reflexivity
    | by eexists | by eexists | by eexists | by eexists |].
  split; [exact Hfirst | exact Hsame].
Defined.

(** ** Two whole executions *)

(** One stored style example titled Intro Hook, a draft of 50 characters,
    the personal style as only source: the one prompt sent carries the
    labelled block and the draft. *)
Example intro_hook_scenario :
  prompts_sent
    (execute length_distance canned_openai canned_anthropic
       (improving Claude_Sonnet_4 draft50 style_only [] hook)
       one_style_example).2
  = [enhancement_prompt draft50 "Hook and opening strength"
       ("Your personal writing style examples:" +:+ nl +:+ nl
        +:+ "Your Style Example 1 - 'Intro Hook':" +:+ nl
        +:+ "Hey everyone, welcome back......")].
Proof. vm_compute. reflexivity. Qed.

(** The same request with the backend failing, in a session that holds an
    earlier result: the execution runs to its end, the error is shown,
    the earlier result is shown after it and is still in the session. *)
Example backend_failure_scenario :
  let run :=
    execute length_distance failing_openai failing_anthropic
      (improving Claude_Sonnet_4 draft50 style_only [] hook)
      (with_earlier_result one_style_example) in
  run.1.1 = Return tt
  ∧ session_state run.1.2 !! "enhanced_script" = Some "An earlier result."
  ∧ Display st_error "Error improving script: Overloaded" ∈ run.2
  ∧ Display st_write "An earlier result." ∈ run.2.
Proof.
  vm_compute. split; [done|]. split; [done|]. split; repeat constructor.
Qed.

(** Improve pressed with no draft: the spinner label reads
    [inspiration_source] before the [try] is entered, so this
    [NameError], which no backend raised, ends the execution. *)
Example improve_without_draft :
  (execute length_distance canned_openai canned_anthropic
     (improving Claude_Sonnet_4 EmptyString style_only [] hook)
     one_style_example).1.1
  = Raise (NameError "inspiration_source").
Proof. vm_compute. reflexivity. Qed.

(** * The rest of the script *)

(** ** Exceptions of the handler *)

Section Throws.
Context (P : exn → Prop).

Lemma throws_ret {A} (a : A) : throws P (mret a).
Proof. intros s e s' out [=]. Qed.

Lemma throws_raise {A} (e : exn) : P e → throws P (@raise A e).
Proof. by intros He s e' s' out [= <- _ _]. Qed.

Lemma throws_gets {A} (f : state → A) : throws P (gets f).
Proof. intros s e s' out [=]. Qed.

Lemma throws_emit (e : event) : throws P (emit e).
Proof. intros s e' s' out [=]. Qed.

Lemma throws_modify (f : state → state) : throws P (modify f).
Proof. intros s e' s' out [=]. Qed.

Lemma throws_read_name {A} (name : string) (binding : globals → option A) :
  P (NameError name) → throws P (read_name name binding).
Proof.
  intros Hn s e s' out. unfold read_name.
  destruct (binding (names s)); by intros [= <- _ _].
Qed.

Lemma throws_getitem (d : gmap string string) (key : string) :
  P (KeyError key) → throws P (getitem d key).
Proof.
  intros Hk. unfold getitem. destruct (d !! key);
    [apply throws_ret | by apply throws_raise].
Qed.

Lemma throws_bind {A B} (m : script A) (k : A → script B) :
  throws P m → (∀ a, throws P (k a)) → throws P (m ≫= k).
Proof.
  intros Hm Hk s e s' out. unfold mbind, script_bind, bind.
  destruct (m s) as [[[a|e1] s1] out1] eqn:Em.
  - destruct (k a s1) as [[r2 s2] out2] eqn:Ek. intros [= -> _ _].
    by eapply Hk.
  - intros [= <- _ _]. by eapply Hm.
Qed.

Lemma throws_for_each {A} (body : A → script unit) (xs : list A) :
  (∀ x, throws P (body x)) → throws P (for_each body xs).
Proof.
  intros Hb. induction xs as [|x xs IH]; simpl.
  - apply throws_ret.
  - apply throws_bind; [apply Hb | intros _; apply IH].
Qed.

Lemma throws_comprehension {A B} (f : A → script B) (xs : list A) :
  (∀ x, throws P (f x)) → throws P (comprehension f xs).
Proof.
  intros Hf. induction xs as [|x xs IH]; simpl.
  - apply throws_ret.
  - apply throws_bind; [apply Hf | intros y].
    apply throws_bind; [apply IH | intros ys]. apply throws_ret.
Qed.
End Throws.

Ltac throws_step :=
  lazymatch goal with
  | |- throws _ (mbind _ _) => apply throws_bind; [| intros ?]
  | |- throws _ (mret _) => apply throws_ret
  | |- throws _ (ret _) => apply (throws_ret _)
  | |- throws _ (raise _) => apply throws_raise; try done
  | |- throws _ (gets _) => apply throws_gets
  | |- throws _ (emit _) => apply throws_emit
  | |- throws _ (modify _) => apply throws_modify
  | |- throws _ (read_name _ _) => apply throws_read_name; try done
  | |- throws _ (getitem _ _) => apply throws_getitem; try done
  | |- throws _ (for_each _ _) => apply throws_for_each; intros ?
  | |- throws _ (comprehension _ _) => apply throws_comprehension; intros ?
  | |- throws _ (if ?b then _ else _) => destruct b
  | |- throws _ (match ?x with _ => _ end) => destruct x
  end.

Section Handler.
Variable distance : string → string → nat.
Variable openai_chat : string → string → string + string.
Variable anthropic_messages : string → nat → string → string + string.

Lemma improve_body_throws inp :
  throws (λ e, is_Exception e = true)
    (improve_body distance openai_chat anthropic_messages inp).
Proof.
  unfold improve_body, generate, make_ai_call_body, context_builder,
    style_part, creator_part, collection_query, style_block, creator_block,
    display.
  repeat throws_step.
Qed.

(** What the body of the [try] leaves behind: nothing when it raises,
    and then any generation call it made has failed; the reply in the
    result slot when it returns. *)
Lemma improve_body_state inp s r s' out :
  improve_body distance openai_chat anthropic_messages inp s = (r, s', out) →
  match r with
  | Raise _ =>
      s' = s
      ∧ ∀ provider model prompt,
          (provider, model, prompt) ∈ completions out →
          ∃ message,
            backend_reply openai_chat anthropic_messages provider model prompt
            = inr message
  | Return _ =>
      ∃ provider model prompt text,
        completions out = [(provider, model, prompt)]
        ∧ backend_reply openai_chat anthropic_messages provider model prompt
          = inl text
        ∧ s' = with_session <["enhanced_script" := text]> s
        ∧ last out = Some (Display st_success "Script improved successfully!")
  end.
Proof.
  unfold improve_body. rewrite run_bind.
  destruct (context_builder distance inp s) as [[[context|e] sc] outc] eqn:Ec;
    destruct (context_builder_state _ _ _ _ _ _ Ec) as [-> Hnone].
  2:{ intros [= <- <- <-]. split; [done|]. rewrite Hnone.
      intros ??? Hin. by apply elem_of_nil in Hin. }
  destruct (generate _ _ _ _ _) as [[rg sg] outg] eqn:Eg.
  intros [= <- <- <-]. rewrite completions_app, Hnone. simpl.
  apply generate_cases in Eg
    as [(-> & -> & (name & ->) & _)|(focus & m & _ & _ & _ & Eg)].
  { split; [done|]. intros ??? Hin. by apply elem_of_nil in Hin. }
  simpl in Eg. destruct (backend_reply _ _ _ _ _) as [text|failure] eqn:Er;
    destruct Eg as (-> & -> & ->).
  - do 4 eexists. split; [done|]. split; [exact Er|]. split; [done|].
    by rewrite last_app.
  - split; [done|]. simpl.
    intros ??? [= -> -> ->]%list_elem_of_singleton. by eexists.
Qed.

(** X1: once Improve is pressed and the inspiration choice is bound, the
    handler (lines 151-212) returns normally whatever the store, the
    other names and the backends do: either the state is as it was and
    the last thing shown is "Error improving script: " followed by the
    message, or the result slot holds a new text and the last thing
    shown is the success notice.  No exception of the [try] body gets
    past the [except]. *)
Theorem improve_handler_always_returns inp s source :
  clicked inp = Some "Improve My Script" →
  inspiration_source (names s) = Some source →
  ∃ s' out,
    improve_action distance openai_chat anthropic_messages inp s
    = (Return tt, s', out)
    ∧ ((s' = s
        ∧ ∃ message,
            last out
            = Some (Display st_error ("Error improving script: " +:+ message)))
       ∨ (∃ text,
            s' = with_session <["enhanced_script" := text]> s
            ∧ last out
              = Some (Display st_success "Script improved successfully!"))).
Proof.
  intros Hclick Hsource.
  unfold improve_action, button, read_name.
  unfold mbind, script_bind, bind, emit, ret. simpl.
  rewrite Hclick, bool_decide_eq_true_2, Hsource by done. simpl.
  unfold try_except, display, emit.
  destruct (improve_body _ _ _ _ _) as [[[[]|e] sb] outb] eqn:Eb.
  - apply improve_body_state in Eb
      as (provider & model & prompt & text & _ & _ & -> & Hlast).
    do 2 eexists. split; [done|]. right. exists text. split; [done|].
    by rewrite 2!last_cons, Hlast.
  - rewrite (improve_body_throws inp _ _ _ _ Eb).
    apply improve_body_state in Eb as [-> _].
    do 2 eexists. split; [done|]. left. split; [done|]. eexists.
    rewrite !app_comm_cons. apply last_snoc.
Qed.

(** X2: a generation call that the handler made and that the backend
    answered with a text is the handler's only generation call; the
    handler returns, the text is in the result slot of the session
    state, nothing else of the state changes, and the success notice is
    the last thing shown. *)
Theorem improve_success_fills_the_slot inp s r s' out provider model prompt text :
  improve_action distance openai_chat anthropic_messages inp s = (r, s', out) →
  Completion provider model prompt ∈ out →
  backend_reply openai_chat anthropic_messages provider model prompt
    = inl text →
  r = Return tt
  ∧ s' = with_session <["enhanced_script" := text]> s
  ∧ session_state s' !! "enhanced_script" = Some text
  ∧ completions out = [(provider, model, prompt)]
  ∧ last out = Some (Display st_success "Script improved successfully!").
Proof.
  rewrite elem_of_completions.
  unfold improve_action, button, read_name.
  unfold mbind, script_bind, bind, emit, ret. simpl.
  destruct (bool_decide (clicked inp = Some "Improve My Script")); simpl.
  2:{ intros [= <- <- <-] Hin. by apply elem_of_nil in Hin. }
  destruct (inspiration_source (names s)) as [source|]; simpl.
  2:{ intros [= <- <- <-] Hin. by apply elem_of_nil in Hin. }
  unfold try_except, display, emit.
  destruct (improve_body _ _ _ _ _) as [[[[]|e] sb] outb] eqn:Eb.
  - apply improve_body_state in Eb
      as (p & m & x & t & Hc & Hr & -> & Hlast).
    intros [= <- <- <-]. rewrite !completions_skip, Hc by done.
    intros [= -> -> ->]%list_elem_of_singleton. intros Ht.
    assert (t = text) as -> by congruence.
    repeat split; try done.
    + simpl. by rewrite lookup_insert_eq.
    + by rewrite 2!last_cons, Hlast.
  - rewrite (improve_body_throws inp _ _ _ _ Eb).
    apply improve_body_state in Eb as [-> Hfail].
    intros [= <- <- <-]. rewrite !completions_skip by done.
    rewrite completions_app. simpl. rewrite app_nil_r.
    intros Hin Hr. apply Hfail in Hin as [message Hm]. congruence.
Qed.
End Handler.

(** ** Credentials and start-up *)

Lemma truthy_env_false v :
  truthy_env v = false ↔ v = None ∨ v = Some EmptyString.
Proof.
  destruct v as [[|c k]|]; simpl; split; try done; auto.
  - intros [?|?]; done.
Qed.

(** X3: a credential counts as missing when its variable is unset or
    set to the empty string (line 32 tests truthiness): then the start-up
    shows the title, the greeting and the error and leaves the state
    alone; and the error is shown in no other case. *)
Theorem blank_credential_is_missing inp s :
  (OPENAI_API_KEY inp = None ∨ OPENAI_API_KEY inp = Some EmptyString
   ∨ ANTHROPIC_API_KEY inp = None ∨ ANTHROPIC_API_KEY inp = Some EmptyString →
   startup inp s
   = (Return tt, s,
      [Display st_title "My Content Creator AI Assistant";
       Display st_write "Welcome to your AI-powered content creation tool!";
       Display st_error
         "Please set both OPENAI_API_KEY and ANTHROPIC_API_KEY in your .env file!"]))
  ∧ (Display st_error
       "Please set both OPENAI_API_KEY and ANTHROPIC_API_KEY in your .env file!"
     ∈ (startup inp s).2 →
     OPENAI_API_KEY inp = None ∨ OPENAI_API_KEY inp = Some EmptyString
     ∨ ANTHROPIC_API_KEY inp = None
     ∨ ANTHROPIC_API_KEY inp = Some EmptyString).
Proof.
  split.
  - intros Hmissing. apply startup_without_credentials.
    rewrite !truthy_env_false. tauto.
  - destruct (truthy_env (OPENAI_API_KEY inp)) eqn:Ho;
      [|apply truthy_env_false in Ho; tauto].
    destruct (truthy_env (ANTHROPIC_API_KEY inp)) eqn:Ha;
      [|apply truthy_env_false in Ha; tauto].
    intros Hin. exfalso. revert Hin.
    unfold startup, init_vector_databases, display, widget,
      bind_selected_model, bind_collections, bind_make_ai_call.
    unfold mbind, script_bind, bind, emit, modify, ret, raise.
    rewrite Ho, Ha. simpl.
    destruct (chosen_model inp); vm_compute (model_mapping !! _); simpl;
      rewrite !elem_of_cons, elem_of_nil; intros Hin;
      repeat destruct Hin as [Hin|Hin]; done.
Qed.

(** X4: with both credentials the start-up (lines 35-94) returns, keeps
    the session state and the content of every collection, leaves both
    collections existing in the store, binds the two collection
    variables to them, and running it again on its own result leaves the
    store as it is: the collections are created once. *)
Theorem startup_prepares_the_store inp s :
  truthy_env (OPENAI_API_KEY inp) = true →
  truthy_env (ANTHROPIC_API_KEY inp) = true →
  let s1 := (startup inp s).1.2 in
  (startup inp s).1.1 = Return tt
  ∧ session_state s1 = session_state s
  ∧ (∀ name, collection_of s1 name = collection_of s name)
  ∧ is_Some (client s1 !! "my_content_style")
  ∧ is_Some (client s1 !! "favorite_creators")
  ∧ my_style_collection (names s1) = Some "my_content_style"
  ∧ creators_collection (names s1) = Some "favorite_creators"
  ∧ client (startup inp s1).1.2 = client s1.
Proof.
  intros Ho Ha s1. subst s1.
  destruct (startup_with_credentials inp s Ho Ha) as (m & out & E).
  rewrite E. simpl.
  set (c1 := Chroma.get_or_create_collection "my_content_style" (client s)).
  set (c2 := Chroma.get_or_create_collection "favorite_creators" c1).
  assert (H1 : is_Some (c2 !! "my_content_style")).
  { unfold c2, c1, Chroma.get_or_create_collection.
    destruct (client s !! "my_content_style") eqn:E1;
      destruct (_ !! "favorite_creators") eqn:E2;
      rewrite ?lookup_insert_ne, ?lookup_insert_eq, ?E1 by done; by eexists. }
  assert (H2 : is_Some (c2 !! "favorite_creators")).
  { unfold c2, Chroma.get_or_create_collection.
    destruct (c1 !! "favorite_creators") eqn:E2;
      rewrite ?lookup_insert_eq, ?E2; by eexists. }
  repeat split; try done.
  - intros name. unfold collection_of. simpl. unfold c2, c1.
    by rewrite !get_or_create_lookup.
  - match goal with |- context [startup inp ?st] =>
      destruct (startup_with_credentials inp st Ho Ha) as (m' & out' & ->)
    end.
    simpl. destruct H1 as [x1 H1], H2 as [x2 H2].
    unfold Chroma.get_or_create_collection at 2. rewrite H1.
    unfold Chroma.get_or_create_collection. by rewrite H2.
Qed.

Section Dispatch.
Variable openai_chat : string → string → string + string.
Variable anthropic_messages : string → nat → string → string + string.

(** X5: after the start-up, [make_ai_call] (lines 79-94) sends the
    prompt to the backend of the chosen model and to no other: "GPT-5"
    goes to OpenAI with model "gpt-5", "Claude Sonnet 4" to Anthropic
    with model "claude-sonnet-4-20250514" and 1000 tokens at most; the
    reply text is returned and a failure is raised. *)
Theorem model_choice_selects_backend inp s prompt :
  truthy_env (OPENAI_API_KEY inp) = true →
  truthy_env (ANTHROPIC_API_KEY inp) = true →
  let s1 := (startup inp s).1.2 in
  make_ai_call_body openai_chat anthropic_messages prompt s1
  = match chosen_model inp with
    | GPT_5 =>
        (outcome_of_reply (openai_chat "gpt-5" prompt), s1,
         [Completion "openai" "gpt-5" prompt])
    | Claude_Sonnet_4 =>
        (outcome_of_reply
           (anthropic_messages "claude-sonnet-4-20250514" 1000 prompt),
         s1, [Completion "claude" "claude-sonnet-4-20250514" prompt])
    end.
Proof.
  intros Ho Ha s1. subst s1.
  unfold startup, init_vector_databases, display, widget,
    bind_selected_model, bind_collections, bind_make_ai_call.
  unfold mbind, script_bind, bind, emit, modify, ret, raise.
  rewrite Ho, Ha. simpl.
  destruct (chosen_model inp); vm_compute (model_mapping !! _); simpl;
    unfold make_ai_call_body, read_name, mbind, script_bind, bind, emit,
      ret, raise; simpl.
  - by destruct (anthropic_messages _ _ _).
  - by destruct (openai_chat _ _).
Qed.
End Dispatch.

(** Whatever the credentials, the start-up returns, keeps the session
    state and the content of every collection, binds no choice of the
    editor, and calls no service. *)
Lemma startup_run inp s :
  ∃ s1 out,
    startup inp s = (Return tt, s1, out)
    ∧ session_state s1 = session_state s
    ∧ (∀ name, collection_of s1 name = collection_of s name)
    ∧ inspiration_source (names s1) = inspiration_source (names s)
    ∧ completions out = []
    ∧ Forall (λ e, ¬ is_query e) out.
Proof.
  destruct (truthy_env (OPENAI_API_KEY inp)) eqn:Ho;
    [destruct (truthy_env (ANTHROPIC_API_KEY inp)) eqn:Ha|].
  - unfold startup, init_vector_databases, display, widget,
      bind_selected_model, bind_collections, bind_make_ai_call.
    unfold mbind, script_bind, bind, emit, modify, ret, raise.
    rewrite Ho, Ha. simpl.
    destruct (chosen_model inp); vm_compute (model_mapping !! _); simpl;
      do 2 eexists; (split; [reflexivity|]); simpl;
      (repeat split; try done;
       [ intros name; unfold collection_of; simpl;
         by rewrite !get_or_create_lookup
       | repeat constructor; by intros [] ]).
  - rewrite startup_without_credentials by auto.
    do 2 eexists. split; [done|]. repeat split; try done.
    repeat constructor; by intros [].
  - rewrite startup_without_credentials by auto.
    do 2 eexists. split; [done|]. repeat split; try done.
    repeat constructor; by intros [].
Qed.

Section NoDraft.
Variable distance : string → string → nat.
Variable openai_chat : string → string → string + string.
Variable anthropic_messages : string → nat → string → string + string.

Lemma improve_action_unbound inp s :
  clicked inp = Some "Improve My Script" →
  inspiration_source (names s) = None →
  improve_action distance openai_chat anthropic_messages inp s
  = (Raise (NameError "inspiration_source"), s,
     [Button "Improve My Script" "Improve My Script"]).
Proof.
  intros Hclick Hsource. unfold improve_action, button, read_name.
  unfold mbind, script_bind, bind, emit, ret. simpl.
  by rewrite Hclick, bool_decide_eq_true_2, Hsource.
Qed.

(** X6: Improve pressed while the draft is empty: the choices of lines
    107-149 were never bound, the spinner label of line 152 reads
    [inspiration_source] outside the [try], and the execution ends there
    on that [NameError], whatever the credentials; nothing was queried
    or generated, session state and store are as before, and nothing
    below the button is shown. *)
Theorem improve_needs_a_draft inp s :
  user_script inp = EmptyString →
  clicked inp = Some "Improve My Script" →
  let run := execute distance openai_chat anthropic_messages inp s in
  run.1.1 = Raise (NameError "inspiration_source")
  ∧ session_state run.1.2 = session_state s
  ∧ (∀ name, collection_of run.1.2 name = collection_of s name)
  ∧ completions run.2 = []
  ∧ Forall (λ e, ¬ is_query e) run.2
  ∧ last run.2 = Some (Button "Improve My Script" "Improve My Script").
Proof.
  intros Hdraft Hclick run. subst run. unfold execute, app_py.
  rewrite run_bind.
  destruct (startup_run inp (reloaded s))
    as (s1 & out1 & -> & Hsession & Hstore & Hsource & Hnone & Hnoquery).
  rewrite run_bind, script_editor_no_draft by done.
  rewrite run_bind, improve_action_unbound by (done || by rewrite Hsource).
  simpl. repeat split; try done.
  - rewrite completions_app, Hnone. done.
  - apply Forall_app. split; [done|]. repeat constructor; by intros [].
  - rewrite last_app. done.
Qed.
End NoDraft.

(** ** Sources of the context *)

Section Sources.
Variable distance : string → string → nat.

Lemma style_part_run inp s source mine :
  inspiration_source (names s) = Some source →
  source ∈ ["My personal style only"; "Both my style and favorite creators"] →
  my_style_collection (names s) = Some mine →
  let probe := str_take 500 (user_script inp) in
  let results := Chroma.query distance (collection_of s mine) probe 2 None in
  style_part distance inp s
  = if nonempty results then
      match comprehension (λ ir, style_block ir.1 ir.2)
              (enumerate1 results) s with
      | (Return blocks, _, _) =>
          (Return ("Your personal writing style examples:" :: blocks), s,
           [Query mine probe 2 None])
      | (Raise e, _, _) => (Raise e, s, [Query mine probe 2 None])
      end
    else (Return [], s, [Query mine probe 2 None]).
Proof.
  intros Hsource Hmode Hmine probe results.
  unfold style_part, read_name, collection_query.
  unfold mbind, script_bind, bind, emit, gets, ret.
  rewrite Hsource. simpl. rewrite (bool_decide_eq_true_2 _ Hmode).
  rewrite Hmine. simpl. fold probe results.
  destruct (nonempty results); [|done].
  destruct (comprehension _ _ s) as [[rb sb] outb] eqn:Eb.
  apply comprehension_events in Eb as [-> ->].
  - by destruct rb.
  - intros x. unfold style_block. repeat frames_step.
Qed.

Lemma style_part_skipped inp s source :
  inspiration_source (names s) = Some source →
  source ∉ ["My personal style only"; "Both my style and favorite creators"] →
  style_part distance inp s = (Return [], s, []).
Proof.
  intros Hsource Hmode. unfold style_part, read_name.
  unfold mbind, script_bind, bind, ret. rewrite Hsource. simpl.
  by rewrite (bool_decide_eq_false_2 _ Hmode).
Qed.

Lemma creator_part_skipped inp s source :
  inspiration_source (names s) = Some source →
  source ∉ ["Favorite creators only"; "Both my style and favorite creators"] →
  creator_part distance inp s = (Return [], s, []).
Proof.
  intros Hsource Hmode. unfold creator_part, read_name.
  unfold mbind, script_bind, bind, ret. rewrite Hsource. simpl.
  by rewrite (bool_decide_eq_false_2 _ Hmode).
Qed.

(** X7: with a single source chosen the context builder (lines 155-182)
    issues exactly one query, on that source's collection, leaves the
    state alone and never mixes the two headers: "My personal style
    only" queries the personal collection for 2 results without filter,
    "Favorite creators only" queries the creators collection for 3
    results with the filter of the selection. *)
Theorem single_source_single_query inp s :
  let probe := str_take 500 (user_script inp) in
  (∀ mine,
     inspiration_source (names s) = Some "My personal style only" →
     my_style_collection (names s) = Some mine →
     ∃ r, context_builder distance inp s = (r, s, [Query mine probe 2 None])
          ∧ ((∃ e, r = Raise e)
             ∨ r = Return "No relevant examples found."
             ∨ ∃ blocks,
                 r = Return (str_join (nl +:+ nl)
                               ("Your personal writing style examples:"
                                :: blocks))))
  ∧ (∀ theirs selection,
       inspiration_source (names s) = Some "Favorite creators only" →
       creator_selection (names s) = Some selection →
       creators_collection (names s) = Some theirs →
       ∃ r, context_builder distance inp s
            = (r, s, [Query theirs probe 3 (where_filter selection)])
            ∧ ((∃ e, r = Raise e)
               ∨ r = Return "No relevant examples found."
               ∨ ∃ blocks,
                   r = Return
                         (str_join (nl +:+ nl)
                            ((nl +:+ "Successful creator examples for inspiration:")
                             :: blocks)))).
Proof.
  intros probe. split.
  - intros mine Hsource Hmine.
    unfold context_builder. rewrite run_bind.
    rewrite (style_part_run inp s _ mine Hsource) by (done || set_solver).
    fold probe.
    destruct (nonempty _).
    + destruct (comprehension _ _ s) as [[[blocks|e] ?] ?].
      * rewrite run_bind, (creator_part_skipped inp s _ Hsource).
        -- simpl. rewrite app_nil_r. eexists. split; [done|]. eauto.
        -- rewrite !elem_of_cons, elem_of_nil. intros [|[|]]; done.
      * eexists. split; [done|]. eauto.
    + rewrite run_bind, (creator_part_skipped inp s _ Hsource).
      * simpl. eexists. split; [done|]. eauto.
      * rewrite !elem_of_cons, elem_of_nil. intros [|[|]]; done.
  - intros theirs selection Hsource Hsel Htheirs.
    unfold context_builder. rewrite run_bind.
    rewrite (style_part_skipped inp s _ Hsource).
    2:{ rewrite !elem_of_cons, elem_of_nil. intros [|[|]]; done. }
    rewrite run_bind.
    rewrite (creator_part_run distance inp s _ selection theirs Hsource)
      by (done || set_solver).
    fold probe. destruct (nonempty _).
    + destruct (comprehension _ _ s) as [[[blocks|e] ?] ?];
        simpl; eexists; (split; [done|]); eauto.
    + simpl. eexists. split; [done|]. eauto.
Qed.
End Sources.

(** ** The editor *)

Lemma nonempty_fmap {A B} (f : A → B) (l : list A) :
  nonempty (f <$> l) = nonempty l.
Proof. by destruct l. Qed.

(** X8: with a draft present the editor (lines 101-149) returns and
    binds the inspiration choice and the focus to the widget values;
    [creator_selection] is [None] for the personal style alone, and
    otherwise the multiselect's value when the creators collection has
    content and [None] when it is empty (the multiselect is not shown
    then); session state and store are untouched. *)
Theorem editor_binds_the_choices inp s c :
  user_script inp ≠ EmptyString →
  creators_collection (names s) = Some c →
  Forall (has_keys ["creator_name"]) (collection_of s c) →
  let s' := (script_editor inp s).1.2 in
  (script_editor inp s).1.1 = Return tt
  ∧ inspiration_source (names s')
    = Some (inspiration_label (chosen_inspiration inp))
  ∧ improvement_focus (names s') = Some (focus_label (chosen_focus inp))
  ∧ creator_selection (names s')
    = Some match chosen_inspiration inp with
           | style_only => None
           | _ => if nonempty (collection_of s c)
                  then Some (chosen_creators inp) else None
           end
  ∧ session_state s' = session_state s
  ∧ client s' = client s.
Proof.
  intros Hdraft%truthy_true Hc Hkeys s'. subst s'.
  assert (Hname : ∀ s1 meta, meta ∈ Chroma.metadatas (collection_of s c) →
            getitem meta "creator_name" s1
            = (Return (default EmptyString (meta !! "creator_name")), s1, [])).
  { intros s1 meta (r & -> & Hr)%list_elem_of_fmap.
    eapply Forall_forall in Hkeys; [|done].
    apply Forall_cons in Hkeys as [[name Hn] _].
    unfold getitem. by rewrite Hn. }
  unfold script_editor, display, widget, collection_get, read_name,
    bind_inspiration_source, bind_creator_selection, bind_improvement_focus.
  unfold mbind, script_bind, bind, emit, modify, gets, ret.
  rewrite Hdraft. simpl.
  destruct (chosen_inspiration inp); simpl; [done|..];
    rewrite Hc; simpl; unfold Chroma.get, Chroma.documents;
    rewrite !collection_of_with_names, nonempty_fmap;
    (destruct (nonempty (collection_of s c)); simpl; [|done]);
    rewrite (comprehension_quiet _
               (λ meta, default EmptyString (meta !! "creator_name")))
      by (intros; by apply Hname);
    simpl;
    (destruct (nonempty (chosen_creators inp)) eqn:Hsel; simpl;
     [|by destruct (chosen_creators inp)]);
    rewrite (comprehension_quiet _
               (λ meta, bool_decide
                          (default EmptyString (meta !! "creator_name")
                           ∈ chosen_creators inp)));
    simpl; try done;
    intros meta Hmeta; unfold mbind, script_bind, bind, ret;
    by rewrite Hname.
Qed.

(** ** Grouping by creator *)

Section Groups.
Context {A : Type}.
Implicit Types (d : list (string * list A)) (k : string) (x : A).

Lemma group_add_keys k x d :
  (group_add k x d).*1 = if decide (k ∈ d.*1) then d.*1 else d.*1 ++ [k].
Proof.
  induction d as [|[k0 items] d IH]; [done|].
  cbn [group_add]. case_bool_decide as Hk; rewrite !fmap_cons; cbn [fst].
  - subst k0. rewrite decide_True by left. done.
  - rewrite IH. destruct (decide (k ∈ d.*1)) as [Hin|Hin].
    + rewrite decide_True by (by right). done.
    + rewrite decide_False; [done|]. rewrite not_elem_of_cons. split; auto.
Qed.

Lemma elem_of_group_add k x d k' items' :
  NoDup d.*1 →
  (k', items') ∈ group_add k x d
  ↔ (k' ≠ k ∧ (k', items') ∈ d)
    ∨ (k' = k
       ∧ ((∃ items, (k, items) ∈ d ∧ items' = items ++ [x])
          ∨ ((k ∉ fst <$> d) ∧ items' = [x]))).
Proof.
  induction d as [|[k0 items] d IH]; intros Hnd.
  - cbn [group_add]. rewrite list_elem_of_singleton.
    assert (k ∉ fst <$> @nil (string * list A)) by apply not_elem_of_nil.
    split; [naive_solver|].
    intros [[_ Hin]|[-> [(its & Hin & _)|[_ ->]]]]; try done;
      by apply elem_of_nil in Hin.
  - rewrite fmap_cons in Hnd. apply NoDup_cons in Hnd as [Hk0 Hnd].
    specialize (IH Hnd).
    assert (Hfresh : ∀ its, (k0, its) ∉ d).
    { intros its Hin. apply Hk0, list_elem_of_fmap. by exists (k0, its). }
    cbn [group_add]. rewrite fmap_cons, not_elem_of_cons. cbn [fst].
    case_bool_decide as Hk; [subst k0|]; rewrite !elem_of_cons.
    + split.
      * intros [Heq|Hin].
        -- injection Heq as -> ->. right. split; [done|]. left.
           exists items. split; [by apply elem_of_cons; left|done].
        -- left. split; [|by right]. intros ->. by eapply Hfresh.
      * intros [[Hne Hin]|[-> Hcase]].
        -- destruct Hin as [Heq|Hin]; [by injection Heq as ? ?|by right].
        -- destruct Hcase as [(its & Hin & ->)|[[Hne _] _]]; [|done].
           apply elem_of_cons in Hin as [Heq|Hin];
             [injection Heq as ->; by left|].
           by apply Hfresh in Hin.
    + rewrite IH. split.
      * intros [Heq|[[Hne Hin]|[-> Hcase]]].
        -- injection Heq as -> ->. left. split; [done|]. by left.
        -- left. split; [done|]. by right.
        -- right. split; [done|].
           destruct Hcase as [(its & Hin & ->)|[Hnin ->]].
           ++ left. exists its. split; [by apply elem_of_cons; right|done].
           ++ right. split; [|done]. split; [congruence|done].
      * intros [[Hne Hin]|[-> Hcase]].
        -- destruct Hin as [Heq|Hin]; [by left|]. right. left. done.
        -- right. right. split; [done|].
           destruct Hcase as [(its & Hin & ->)|[[Hne Hnin] ->]].
           ++ apply elem_of_cons in Hin as [Heq|Hin];
                [by injection Heq as ? ?|].
              left. by exists its.
           ++ right. done.
Qed.
End Groups.

Lemma grouped_add d rs r k :
  grouped d rs →
  rec_metadata r !! "creator_name" = Some k →
  grouped (group_add k r d) (rs ++ [r]).
Proof.
  intros (Hnd & Hitems & Hcover) Hk. split; [|split].
  - rewrite group_add_keys. case_decide as Hin; [done|].
    apply NoDup_app. split; [done|]. split; [|apply NoDup_singleton].
    intros k' Hk' Hk''. apply list_elem_of_singleton in Hk'' as ->. done.
  - intros k' items' Hin. apply elem_of_group_add in Hin; [|done].
    rewrite filter_app, filter_cons, filter_nil.
    destruct Hin as [[Hne Hin]|[-> [(items & Hin & ->)|[Hnin ->]]]].
    + destruct (Hitems _ _ Hin) as [Hnil ->]. split; [done|].
      rewrite decide_False by congruence. by rewrite app_nil_r.
    + destruct (Hitems _ _ Hin) as [Hnil ->]. split.
      * intros [? _]%app_eq_nil. done.
      * by rewrite decide_True.
    + split; [done|]. rewrite decide_True by done.
      destruct (filter _ rs) as [|r' l] eqn:Ef; [done|]. exfalso.
      assert (Hr' : r' ∈ filter
                (λ r0, rec_metadata r0 !! "creator_name" = Some k) rs)
        by (rewrite Ef; left).
      apply list_elem_of_filter in Hr' as [Hcr Hr'].
      destruct (Hcover r' Hr') as (k'' & Hk'' & Hin''). congruence.
  - intros r' [Hr'|Hr']%elem_of_app;
      [|apply list_elem_of_singleton in Hr' as ->].
    + destruct (Hcover r' Hr') as (k' & Hk' & Hin'). exists k'. split; [done|].
      rewrite group_add_keys. case_decide; [done|]. apply elem_of_app. by left.
    + exists k. split; [done|]. rewrite group_add_keys.
      case_decide; [done|]. apply elem_of_app. right. by left.
Qed.

Lemma group_by_creator_run rs d pre s :
  Forall (has_keys ["creator_name"]) rs →
  grouped d pre →
  ∃ groups,
    group_by_creator rs d s = (Return groups, s, [])
    ∧ grouped groups (pre ++ rs).
Proof.
  revert d pre. induction rs as [|r rs IH]; intros d pre Hkeys Hd.
  - exists d. by rewrite app_nil_r.
  - apply Forall_cons in Hkeys as [Hr Hkeys].
    apply Forall_cons in Hr as [[k Hk] _].
    destruct (IH (group_add k r d) (pre ++ [r]) Hkeys) as (groups & E & Hg).
    { by apply grouped_add. }
    exists groups. split; [|by rewrite <- app_assoc in Hg].
    cbn [group_by_creator]. rewrite run_bind. unfold getitem. rewrite Hk.
    cbn. by rewrite E.
Qed.

Lemma group_by_creator_missing_key rs d s :
  Exists (λ r, rec_metadata r !! "creator_name" = None) rs →
  group_by_creator rs d s = (Raise (KeyError "creator_name"), s, []).
Proof.
  revert d. induction rs as [|r rs IH]; intros d Hex; [by inversion Hex|].
  cbn [group_by_creator]. rewrite run_bind. unfold getitem.
  destruct (rec_metadata r !! "creator_name") as [k|] eqn:Hk.
  - cbn. rewrite IH; [done|]. inversion Hex; subst; [congruence|done].
  - done.
Qed.

(** X9: the grouping loop of the creator library (lines 325-334) makes
    one group per creator name, no name twice; each group is not empty
    and holds exactly the records of its creator in stored order, and
    every record is in the group of its creator.  A record without a
    "creator_name" raises [KeyError] there. *)
Theorem groups_partition_by_creator rs s :
  (Forall (has_keys ["creator_name"]) rs →
   ∃ groups,
     group_by_creator rs [] s = (Return groups, s, [])
     ∧ NoDup groups.*1
     ∧ (∀ k items, (k, items) ∈ groups →
          items ≠ []
          ∧ items
            = filter (λ r, rec_metadata r !! "creator_name" = Some k) rs)
     ∧ (∀ r, r ∈ rs →
          ∃ k, rec_metadata r !! "creator_name" = Some k ∧ k ∈ groups.*1))
  ∧ (Exists (λ r, rec_metadata r !! "creator_name" = None) rs →
     group_by_creator rs [] s = (Raise (KeyError "creator_name"), s, [])).
Proof.
  split.
  - intros Hkeys.
    destruct (group_by_creator_run rs [] [] s Hkeys) as (groups & E & Hg).
    + split; [constructor|]. split; [intros ?? Hin|intros ? Hin];
        by apply elem_of_nil in Hin.
    + by exists groups.
  - apply group_by_creator_missing_key.
Qed.

(** ** Deleting examples *)

Lemma delete_key_pressed inp prefix id id' :
  clicked inp = Some (prefix +:+ id) →
  bool_decide (clicked inp = Some (prefix +:+ id')) = bool_decide (id' = id).
Proof.
  intros ->. apply bool_decide_ext. split.
  - intros [= H]. by apply String.app_inj in H.
  - by intros ->.
Qed.

Lemma style_row_run inp c id r s :
  clicked inp = Some ("delete_my_" +:+ id) →
  has_keys ["title"] r →
  ∃ out,
    style_row inp c r s
    = if bool_decide (rec_id r = id)
      then (Raise RerunException,
            with_client <[c := Chroma.delete (collection_of s c) id]> s, out)
      else (Return tt, s, out).
Proof.
  intros Hclick [[title Ht] _]%Forall_cons.
  unfold style_row, display, button, collection_delete, getitem.
  unfold mbind, script_bind, bind, emit, modify, raise, ret.
  rewrite Ht. simpl. rewrite (delete_key_pressed inp _ id) by done.
  destruct (decide (rec_id r = id)) as [Hid|Hid].
  - rewrite (bool_decide_eq_true_2 _ Hid). simpl. rewrite Hid. by eexists.
  - rewrite (bool_decide_eq_false_2 _ Hid). simpl. by eexists.
Qed.

Lemma delete_rows_run (row : record → script unit) c id rows s :
  Forall (λ r, ∃ out,
            row r s
            = if bool_decide (rec_id r = id)
              then (Raise RerunException,
                    with_client <[c := Chroma.delete (collection_of s c) id]> s,
                    out)
              else (Return tt, s, out)) rows →
  ∃ out,
    for_each row rows s
    = if bool_decide (id ∈ rec_id <$> rows)
      then (Raise RerunException,
            with_client <[c := Chroma.delete (collection_of s c) id]> s, out)
      else (Return tt, s, out).
Proof.
  intros Hrows. induction Hrows as [|r rows [out1 Hr] _ IH].
  - by exists [].
  - cbn [for_each]. rewrite run_bind, fmap_cons, Hr.
    destruct (decide (rec_id r = id)) as [Hid|Hid].
    + rewrite (bool_decide_eq_true_2 _ Hid).
      rewrite bool_decide_eq_true_2 by (rewrite Hid; left). by eexists.
    + rewrite (bool_decide_eq_false_2 _ Hid). destruct IH as [out ->].
      destruct (decide (id ∈ rec_id <$> rows)) as [Hin|Hin].
      * rewrite (bool_decide_eq_true_2 _ Hin).
        rewrite bool_decide_eq_true_2 by (by right). by eexists.
      * rewrite (bool_decide_eq_false_2 _ Hin).
        rewrite bool_decide_eq_false_2; [by eexists|].
        rewrite not_elem_of_cons. split; [congruence|done].
Qed.

Lemma style_rows_run inp c id rows s :
  clicked inp = Some ("delete_my_" +:+ id) →
  Forall (has_keys ["title"]) rows →
  ∃ out,
    for_each (style_row inp c) rows s
    = if bool_decide (id ∈ rec_id <$> rows)
      then (Raise RerunException,
            with_client <[c := Chroma.delete (collection_of s c) id]> s, out)
      else (Return tt, s, out).
Proof.
  intros Hclick Hkeys. apply delete_rows_run.
  eapply Forall_impl; [exact Hkeys|]. intros r Hr. by apply style_row_run.
Qed.

Lemma creator_row_run inp c id r s :
  clicked inp = Some ("delete_creator_" +:+ id) →
  has_keys ["content_title"] r →
  ∃ out,
    creator_row inp c r s
    = if bool_decide (rec_id r = id)
      then (Raise RerunException,
            with_client <[c := Chroma.delete (collection_of s c) id]> s, out)
      else (Return tt, s, out).
Proof.
  intros Hclick [[title Ht] _]%Forall_cons.
  unfold creator_row, display, button, collection_delete, getitem.
  unfold mbind, script_bind, bind, emit, modify, raise, ret.
  rewrite Ht. simpl. rewrite (delete_key_pressed inp _ id) by done.
  destruct (decide (rec_id r = id)) as [Hid|Hid].
  - rewrite (bool_decide_eq_true_2 _ Hid). simpl. rewrite Hid. by eexists.
  - rewrite (bool_decide_eq_false_2 _ Hid). simpl. by eexists.
Qed.

Lemma creator_groups_run inp c id (groups : list (string * list record)) s :
  clicked inp = Some ("delete_creator_" +:+ id) →
  Forall (λ g, Forall (has_keys ["content_title"]) g.2) groups →
  ∃ out,
    for_each (creator_group inp c) groups s
    = if bool_decide (Exists (λ g, id ∈ rec_id <$> g.2) groups)
      then (Raise RerunException,
            with_client <[c := Chroma.delete (collection_of s c) id]> s, out)
      else (Return tt, s, out).
Proof.
  intros Hclick Hkeys. induction Hkeys as [|g groups Hg _ IH].
  - exists []. rewrite bool_decide_eq_false_2; [done|]. by inversion 1.
  - cbn [for_each]. rewrite run_bind. unfold creator_group at 1.
    rewrite run_bind. cbn [emit].
    destruct (delete_rows_run (creator_row inp c) c id g.2 s) as [out1 ->].
    { eapply Forall_impl; [exact Hg|]. intros r Hr. by apply creator_row_run. }
    destruct (decide (id ∈ rec_id <$> g.2)) as [Hid|Hid].
    + rewrite (bool_decide_eq_true_2 _ Hid).
      rewrite bool_decide_eq_true_2 by (by left). by eexists.
    + rewrite (bool_decide_eq_false_2 _ Hid). destruct IH as [out ->].
      destruct (decide (Exists (λ g, id ∈ rec_id <$> g.2) groups))
        as [Hin|Hin].
      * rewrite (bool_decide_eq_true_2 _ Hin).
        rewrite bool_decide_eq_true_2 by (by right). by eexists.
      * rewrite (bool_decide_eq_false_2 _ Hin).
        rewrite bool_decide_eq_false_2; [by eexists|].
        by intros [?|?]%Exists_cons.
Qed.

Lemma grouped_ids groups rs id :
  grouped groups rs →
  Exists (λ g, id ∈ rec_id <$> g.2) groups ↔ id ∈ Chroma.ids rs.
Proof.
  intros (_ & Hitems & Hcover). unfold Chroma.ids.
  rewrite Exists_exists, list_elem_of_fmap. split.
  - intros ([k items] & Hin & Hid). cbn [snd] in Hid.
    apply list_elem_of_fmap in Hid as (r & -> & Hr).
    destruct (Hitems _ _ Hin) as [_ ->].
    apply list_elem_of_filter in Hr as [_ Hr]. by exists r.
  - intros (r & -> & Hr). destruct (Hcover r Hr) as (k & Hk & Hkin).
    apply list_elem_of_fmap in Hkin as ([k' items] & -> & Hin).
    exists (k', items). split; [done|]. cbn [snd].
    apply list_elem_of_fmap. exists r. split; [done|].
    destruct (Hitems _ _ Hin) as [_ ->]. by apply list_elem_of_filter.
Qed.

Lemma grouped_keys groups rs :
  grouped groups rs →
  Forall (has_keys ["content_title"]) rs →
  Forall (λ g, Forall (has_keys ["content_title"]) g.2) groups.
Proof.
  intros (_ & Hitems & _) Hkeys. apply Forall_forall. intros [k items] Hin.
  destruct (Hitems _ _ Hin) as [_ ->]. cbn [snd].
  rewrite Forall_forall in Hkeys. apply Forall_forall.
  intros r [_ Hr]%list_elem_of_filter. by apply Hkeys.
Qed.

Lemma elem_of_delete c id r :
  r ∈ Chroma.delete c id ↔ r ∈ c ∧ rec_id r ≠ id.
Proof. unfold Chroma.delete. rewrite list_elem_of_filter. tauto. Qed.

(** The list of style examples when a Delete key is the one pressed. *)
Lemma view_style_delete_run inp s c id :
  my_style_collection (names s) = Some c →
  Forall (has_keys ["title"]) (collection_of s c) →
  clicked inp = Some ("delete_my_" +:+ id) →
  ∃ out,
    view_style inp s
    = if bool_decide (id ∈ Chroma.ids (collection_of s c))
      then (Raise RerunException,
            with_client <[c := Chroma.delete (collection_of s c) id]> s, out)
      else (Return tt, s, out).
Proof.
  intros Hc Hkeys Hclick.
  unfold view_style, read_name, collection_get, display, Chroma.get.
  unfold mbind, script_bind, bind, emit, gets, ret. rewrite Hc. cbn beta iota.
  unfold Chroma.documents, Chroma.ids. rewrite nonempty_fmap.
  destruct (collection_of s c) as [|r rows] eqn:Ec.
  - by eexists.
  - cbn [nonempty]. cbn beta iota.
    destruct (style_rows_run inp c id (r :: rows) s Hclick Hkeys)
      as [out ->].
    rewrite Ec. destruct (bool_decide _); by eexists.
Qed.

(** X10: in the list of style examples (lines 264-286), pressing the
    Delete button of an id that is listed removes from the personal
    collection exactly the records with that id (by the store contract
    of [delete]), touches no other collection nor the session state, and
    ends the execution with the rerun request; a press whose id is not
    listed changes nothing and the list is shown to its end. *)
Theorem delete_removes_the_style_entry inp s c id :
  my_style_collection (names s) = Some c →
  Forall (has_keys ["title"]) (collection_of s c) →
  clicked inp = Some ("delete_my_" +:+ id) →
  (id ∈ Chroma.ids (collection_of s c) →
   ∃ s' out,
     view_style inp s = (Raise RerunException, s', out)
     ∧ (∀ r, r ∈ collection_of s' c ↔ r ∈ collection_of s c ∧ rec_id r ≠ id)
     ∧ (∀ name, name ≠ c → collection_of s' name = collection_of s name)
     ∧ session_state s' = session_state s
     ∧ names s' = names s)
  ∧ (id ∉ Chroma.ids (collection_of s c) →
     ∃ out, view_style inp s = (Return tt, s, out)).
Proof.
  intros Hc Hkeys Hclick.
  destruct (view_style_delete_run inp s c id Hc Hkeys Hclick) as [out Hrun].
  split; intros Hid.
  - rewrite bool_decide_eq_true_2 in Hrun by done.
    do 2 eexists. split; [exact Hrun|]. split; [|split; [|done]].
    + intros r. by rewrite collection_of_insert, elem_of_delete.
    + intros name Hne. by rewrite collection_of_insert_ne.
  - rewrite bool_decide_eq_false_2 in Hrun by done. by exists out.
Qed.

(** X11: the same in the creator library (lines 321-353), where the
    Delete buttons sit inside the groups: the press of a listed id
    removes exactly the records with that id from the creators
    collection and asks for a rerun; a press of an id that is not listed
    changes nothing. *)
Theorem delete_removes_the_creator_entry inp s c id :
  creators_collection (names s) = Some c →
  Forall (has_keys ["creator_name"; "content_title"]) (collection_of s c) →
  clicked inp = Some ("delete_creator_" +:+ id) →
  (id ∈ Chroma.ids (collection_of s c) →
   ∃ s' out,
     browse_creators inp s = (Raise RerunException, s', out)
     ∧ (∀ r, r ∈ collection_of s' c ↔ r ∈ collection_of s c ∧ rec_id r ≠ id)
     ∧ (∀ name, name ≠ c → collection_of s' name = collection_of s name)
     ∧ session_state s' = session_state s
     ∧ names s' = names s)
  ∧ (id ∉ Chroma.ids (collection_of s c) →
     ∃ out, browse_creators inp s = (Return tt, s, out)).
Proof.
  intros Hc Hkeys Hclick.
  assert (Hrun : ∃ out,
    browse_creators inp s
    = if bool_decide (id ∈ Chroma.ids (collection_of s c))
      then (Raise RerunException,
            with_client <[c := Chroma.delete (collection_of s c) id]> s, out)
      else (Return tt, s, out)).
  { unfold browse_creators. rewrite run_bind. unfold read_name. rewrite Hc.
    cbn beta iota. rewrite run_bind.
    unfold collection_get, gets, Chroma.get. cbn beta iota.
    unfold Chroma.documents. rewrite nonempty_fmap.
    destruct (collection_of s c) as [|r rows] eqn:Ec.
    - by eexists.
    - cbn [nonempty]. cbn beta iota. rewrite run_bind.
      destruct (group_by_creator_run (r :: rows) [] [] s) as (groups & -> & Hg).
      { eapply Forall_impl; [exact Hkeys|]. intros r' Hr'.
        apply Forall_cons in Hr' as [Hr' _]. by apply Forall_cons. }
      { split; [constructor|]. split; [intros ?? Hin|intros ? Hin];
          by apply elem_of_nil in Hin. }
      cbn [app] in Hg. rewrite run_bind. unfold display at 1. cbn [emit].
      destruct (creator_groups_run inp c id groups s Hclick) as [out ->].
      { eapply grouped_keys; [exact Hg|].
        eapply Forall_impl; [exact Hkeys|]. intros r' Hr'.
        apply Forall_cons in Hr' as [_ Hr']. done. }
      rewrite Ec.
      rewrite (bool_decide_ext _ _ (grouped_ids groups (r :: rows) id Hg)).
      destruct (bool_decide _); by eexists. }
  destruct Hrun as [out Hrun]. split; intros Hid.
  - rewrite bool_decide_eq_true_2 in Hrun by done.
    do 2 eexists. split; [exact Hrun|]. split; [|split; [|done]].
    + intros r. by rewrite collection_of_insert, elem_of_delete.
    + intros name Hne. by rewrite collection_of_insert_ne.
  - rewrite bool_decide_eq_false_2 in Hrun by done. by exists out.
Qed.

(** ** Executions without a press *)

#[local] Instance unchanged_preorder : PreOrder unchanged.
Proof.
  split.
  - intros s. by split.
  - intros s1 s2 s3 [Hs1 Hc1] [Hs2 Hc2]. split.
    + by rewrite Hs2.
    + intros name. by rewrite Hc2.
Qed.

#[local] Instance same_session_preorder : PreOrder same_session.
Proof.
  split.
  - by intros s.
  - intros s1 s2 s3 H1 H2. unfold same_session in *. by rewrite H2.
Qed.

#[local] Instance no_gain_preorder : PreOrder no_gain.
Proof.
  split.
  - by intros s name.
  - intros s1 s2 s3 H1 H2 name. transitivity (collection_of s2 name); auto.
Qed.

Lemma unchanged_get_or_create name s :
  unchanged s (with_client (Chroma.get_or_create_collection name) s).
Proof.
  split; [done|]. intros other. unfold collection_of. simpl.
  by rewrite get_or_create_lookup.
Qed.

Lemma frames_button (R : relation state) `{!PreOrder R} (Q : event → Prop)
    {A} inp label key (k : bool → script A) :
  Q (Button label key) →
  frames R Q (k (bool_decide (clicked inp = Some key))) →
  frames R Q (button inp label key ≫= k).
Proof.
  intros HQ Hk s r s' out. unfold button. rewrite !run_bind. cbn [emit ret].
  destruct (k _ s) as [[r2 s2] out2] eqn:Ek. intros [= <- <- <-].
  destruct (Hk _ _ _ _ Ek) as [HR Hout]. split; [done|].
  by constructor.
Qed.

Lemma frames_run {A} R Q (m : script A) s :
  frames R Q m → R s (m s).1.2 ∧ Forall Q (m s).2.
Proof. intros Hm. destruct (m s) as [[r s'] out] eqn:E. by eapply Hm. Qed.

Lemma quiet_completions out : Forall quiet out → completions out = [].
Proof.
  induction 1 as [|e out He _ IH]; [done|].
  unfold completions in *. cbn [omap]. by destruct e.
Qed.

Lemma quiet_no_query out : Forall quiet out → Forall (λ e, ¬ is_query e) out.
Proof. intros H. eapply Forall_impl; [exact H|]. by intros [] Hq Hi. Qed.

(** Steps shared by the passes over the script: a [modify] that keeps
    the relation, a button whose value is known. *)
Ltac frames_idle Hclick :=
  lazymatch goal with
  | |- frames _ _ (mbind _ (button _ _ _)) =>
      apply frames_button; frames_order; [simpl; trivial|];
      rewrite Hclick, bool_decide_eq_false_2 by done
  | |- frames unchanged _ (modify (with_client _)) =>
      apply frames_modify; frames_order; intros ?;
      apply unchanged_get_or_create
  | |- frames _ _ (modify _) =>
      apply frames_modify; frames_order; intros ?; by split
  end.

Section Idle.
Variable distance : string → string → nat.
Variable openai_chat : string → string → string + string.
Variable anthropic_messages : string → nat → string → string + string.

Lemma app_py_idle inp :
  clicked inp = None →
  frames unchanged quiet (app_py distance openai_chat anthropic_messages inp).
Proof.
  intros Hclick.
  unfold app_py, startup, init_vector_databases, script_editor, improve_action,
    show_enhanced, memory_banks, save_style_form, view_style, style_row,
    save_creator_form, browse_creators, creator_group, creator_row,
    collection_get, display, widget,
    bind_selected_model, bind_collections, bind_make_ai_call,
    bind_inspiration_source, bind_creator_selection, bind_improvement_focus.
  repeat first [ frames_idle Hclick
               | apply group_by_creator_frames; apply _
               | frames_step ].
Qed.

(** X12: an execution in which no button is pressed (the rerun that an
    edit of a widget triggers) leaves the session state and the content
    of every collection as they were, and calls neither the similarity
    search nor a model, however it ends. *)
Theorem idle_execution_changes_nothing inp s :
  clicked inp = None →
  let run := execute distance openai_chat anthropic_messages inp s in
  session_state run.1.2 = session_state s
  ∧ (∀ name, collection_of run.1.2 name = collection_of s name)
  ∧ completions run.2 = []
  ∧ Forall (λ e, ¬ is_query e) run.2.
Proof.
  intros Hclick run. subst run. unfold execute.
  destruct (frames_run unchanged quiet _ (reloaded s) (app_py_idle inp Hclick))
    as [[Hsession Hstore] Hquiet].
  repeat split; try done.
  - by apply quiet_completions.
  - by apply quiet_no_query.
Qed.
End Idle.

(** ** The parts of an execution *)

Ltac frames_quiet :=
  lazymatch goal with
  | |- frames unchanged _ (modify (with_client _)) =>
      apply frames_modify; frames_order; intros ?;
      apply unchanged_get_or_create
  | |- frames unchanged _ (modify _) =>
      apply frames_modify; frames_order; intros ?; by split
  | |- frames same_session _ (modify _) =>
      apply frames_modify; frames_order; intros ?; reflexivity
  | |- frames same_session _ (collection_add _ _ _ _) =>
      apply frames_modify; frames_order; intros ?; reflexivity
  | |- frames same_session _ (collection_delete _ _) =>
      apply frames_modify; frames_order; intros ?; reflexivity
  end.

Lemma startup_quiet inp : frames unchanged quiet (startup inp).
Proof.
  unfold startup, init_vector_databases, display, widget,
    bind_selected_model, bind_collections, bind_make_ai_call.
  repeat first [frames_quiet | frames_step].
Qed.

Lemma script_editor_quiet inp : frames unchanged quiet (script_editor inp).
Proof.
  unfold script_editor, collection_get, display, widget,
    bind_inspiration_source, bind_creator_selection, bind_improvement_focus.
  repeat first [frames_quiet | frames_step].
Qed.

Lemma memory_banks_quiet inp : frames same_session quiet (memory_banks inp).
Proof.
  unfold memory_banks, save_style_form, view_style, style_row,
    save_creator_form, browse_creators, creator_group, creator_row,
    collection_get, display, widget, button.
  repeat first [ frames_quiet
               | apply group_by_creator_frames; apply _
               | frames_step ].
Qed.

Lemma quiet_not_completion out provider model prompt :
  Forall quiet out → Completion provider model prompt ∉ out.
Proof. rewrite Forall_forall. intros Hq Hin. by apply Hq in Hin. Qed.

Section Parts.
Variable distance : string → string → nat.
Variable openai_chat : string → string → string + string.
Variable anthropic_messages : string → nat → string → string + string.

(** The handler either leaves the state alone, and then every
    generation call it made failed, or it returns with the reply of its
    one generation call in the result slot. *)
Lemma improve_action_cases inp s r s' out :
  improve_action distance openai_chat anthropic_messages inp s = (r, s', out) →
  (s' = s
   ∧ ∀ provider model prompt,
       (provider, model, prompt) ∈ completions out →
       ∃ message,
         backend_reply openai_chat anthropic_messages provider model prompt
         = inr message)
  ∨ (r = Return tt
     ∧ ∃ provider model prompt text,
         completions out = [(provider, model, prompt)]
         ∧ backend_reply openai_chat anthropic_messages provider model prompt
           = inl text
         ∧ s' = with_session <["enhanced_script" := text]> s).
Proof.
  unfold improve_action, button, read_name.
  unfold mbind, script_bind, bind, emit, ret. simpl.
  destruct (bool_decide (clicked inp = Some "Improve My Script")); simpl.
  2:{ intros [= <- <- <-]. left. split; [done|].
      intros ??? Hin. by apply elem_of_nil in Hin. }
  destruct (inspiration_source (names s)) as [source|]; simpl.
  2:{ intros [= <- <- <-]. left. split; [done|].
      intros ??? Hin. by apply elem_of_nil in Hin. }
  unfold try_except, display, emit.
  destruct (improve_body _ _ _ _ _) as [[[[]|e] sb] outb] eqn:Eb.
  - apply improve_body_state in Eb
      as (p & m & x & t & Hc & Hr & -> & Hlast).
    intros [= <- <- <-]. right. split; [done|]. exists p, m, x, t.
    by rewrite !completions_skip, Hc.
  - rewrite (improve_body_throws _ _ _ inp _ _ _ _ Eb).
    apply improve_body_state in Eb as [-> Hfail].
    intros [= <- <- <-]. left. split; [done|].
    rewrite !completions_skip by done.
    rewrite completions_app. simpl. by rewrite app_nil_r.
Qed.

(** An execution is the handler between two parts that keep the session
    state and call no service; when the handler returns, what follows
    starts with the display of the result slot. *)
Lemma app_py_parts inp s0 r s' out :
  app_py distance openai_chat anthropic_messages inp s0 = (r, s', out) →
  ∃ s2 before r3 s3 o3 after,
    same_session s0 s2
    ∧ Forall quiet before
    ∧ (improve_action distance openai_chat anthropic_messages inp s2
       = (r3, s3, o3)
       ∨ (s3 = s2 ∧ o3 = [] ∧ after = []))
    ∧ same_session s3 s'
    ∧ Forall quiet after
    ∧ out = before ++ o3 ++ after
    ∧ (r3 = Return tt → ∃ rest, after = (show_enhanced s3).2 ++ rest).
Proof.
  unfold app_py. rewrite run_bind.
  destruct (startup_run inp s0) as (s1 & o1 & E1 & _).
  destruct (startup_quiet inp _ _ _ _ E1) as [[Hs1 _] Hq1]. rewrite E1.
  rewrite run_bind.
  destruct (script_editor inp s1) as [[r2 s2] o2] eqn:E2.
  destruct (script_editor_quiet inp _ _ _ _ E2) as [[Hs2 _] Hq2].
  assert (H02 : same_session s0 s2) by (unfold same_session; congruence).
  assert (Hq12 : Forall quiet (o1 ++ o2)) by by apply Forall_app.
  destruct r2 as [[]|e].
  2:{ intros [= <- <- <-].
      exists s2, (o1 ++ o2), (Raise e), s2, [], [].
      repeat split; try done.
      - by right.
      - by rewrite app_nil_r. }
  rewrite run_bind.
  destruct (improve_action _ _ _ inp s2) as [[r3 s3] o3] eqn:E3.
  destruct r3 as [[]|e].
  2:{ intros [= <- <- <-].
      exists s2, (o1 ++ o2), (Raise e), s3, o3, [].
      repeat split; try done.
      - by left.
      - by rewrite app_nil_r, app_assoc. }
  rewrite run_bind, show_enhanced_run.
  destruct (memory_banks inp s3) as [[r4 s4] o4] eqn:E4.
  destruct (memory_banks_quiet inp _ _ _ _ E4) as [Hs4 Hq4].
  intros [= <- <- <-].
  exists s2, (o1 ++ o2), (Return tt), s3, o3, ((show_enhanced s3).2 ++ o4).
  rewrite show_enhanced_run. cbn [snd].
  split; [done|]. split; [done|]. split; [by left|]. split; [done|].
  split; [|split].
  - apply Forall_app. split; [|done].
    destruct (session_state s3 !! "enhanced_script"); by repeat constructor.
  - by rewrite <- !app_assoc.
  - intros _. by exists o4.
Qed.

(** X13: whatever the inputs, an execution either leaves the session
    state as it was or differs from it only in the result slot, which
    then holds the text that a generation call of this execution
    returned. *)
Theorem session_changes_only_by_success inp s :
  let run := execute distance openai_chat anthropic_messages inp s in
  session_follows_success openai_chat anthropic_messages s run.1.2 run.2.
Proof.
  intros run. subst run. unfold execute.
  destruct (app_py _ _ _ _ _) as [[r s'] out] eqn:E. simpl.
  apply app_py_parts in E
    as (s2 & before & r3 & s3 & o3 & after
        & H02 & Hqb & [E3|(-> & -> & ->)] & H3' & Hqa & -> & _).
  2:{ left. unfold same_session in *. simpl in *. congruence. }
  apply improve_action_cases in E3
    as [[-> _]|(-> & p & m & x & t & Hc & Hr & ->)].
  { left. unfold same_session in *. simpl in *. congruence. }
  right. exists p, m, x, t. split; [|split; [done|]].
  - rewrite !completions_app, Hc, !elem_of_app. right. left. by left.
  - unfold same_session in *. simpl in *. congruence.
Qed.

(** X14: when a generation call of an execution is answered with a
    text, that execution stores the text in the result slot, shows it
    (lines 215-217) and offers it for download (lines 219-224); and it
    is the only generation call of the execution. *)
Theorem improved_text_is_shown inp s provider model prompt text :
  let run := execute distance openai_chat anthropic_messages inp s in
  Completion provider model prompt ∈ run.2 →
  backend_reply openai_chat anthropic_messages provider model prompt
    = inl text →
  session_state run.1.2 !! "enhanced_script" = Some text
  ∧ Display st_write text ∈ run.2
  ∧ DownloadButton "Download Enhanced Script" text "enhanced_script.txt"
    ∈ run.2
  ∧ completions run.2 = [(provider, model, prompt)].
Proof.
  intros run. subst run. unfold execute.
  destruct (app_py _ _ _ _ _) as [[r s'] out] eqn:E. simpl.
  apply app_py_parts in E
    as (s2 & before & r3 & s3 & o3 & after
        & H02 & Hqb & HE3 & H3' & Hqa & -> & Hshow).
  rewrite !elem_of_app. intros [Hin|[Hin|Hin]] Hreply.
  { by apply quiet_not_completion in Hin. }
  2:{ by apply quiet_not_completion in Hin. }
  destruct HE3 as [E3|(_ & -> & _)]; [|by apply elem_of_nil in Hin].
  apply elem_of_completions in Hin.
  apply improve_action_cases in E3
    as [[_ Hfail]|(-> & p & m & x & t & Hc & Hr & ->)].
  { apply Hfail in Hin as [message Hm]. congruence. }
  rewrite Hc in Hin. apply list_elem_of_singleton in Hin as [= <- <- <-].
  assert (t = text) as -> by congruence.
  assert (Hone : completions (before ++ o3 ++ after)
                 = [(provider, model, prompt)]).
  { by rewrite !completions_app, Hc, !quiet_completions. }
  destruct Hshow as [rest ->]; [done|].
  assert (Hslot : session_state s' !! "enhanced_script" = Some text).
  { unfold same_session in H3'. rewrite H3'. simpl. by rewrite lookup_insert_eq. }
  split; [done|]. split; [|split; [|done]].
  - rewrite show_enhanced_run. simpl. rewrite lookup_insert_eq.
    right. right. apply elem_of_app. left. rewrite !elem_of_cons. right. by left.
  - rewrite show_enhanced_run. simpl. rewrite lookup_insert_eq.
    right. right. apply elem_of_app. left. rewrite !elem_of_cons.
    right. right. by left.
Qed.
End Parts.

(** ** What only a save adds *)

Lemma frames_impl {A} (R1 R2 : relation state) (Q1 Q2 : event → Prop)
    (m : script A) :
  (∀ s s', R1 s s' → R2 s s') → (∀ e, Q1 e → Q2 e) →
  frames R1 Q1 m → frames R2 Q2 m.
Proof.
  intros HR HQ Hm s r s' out E. destruct (Hm _ _ _ _ E) as [? Hout].
  split; [auto|]. eapply Forall_impl; [exact Hout|exact HQ].
Qed.

Lemma save_style_form_no_gain inp :
  clicked inp ≠ Some "Save My Style Example" →
  frames no_gain (λ _, True) (save_style_form inp).
Proof.
  intros Hclick s r s' out. rewrite save_style_form_run.
  rewrite (bool_decide_eq_false_2 _ Hclick). simpl.
  intros [= <- <- <-]. split; [by intros ?|by apply Forall_true].
Qed.

Lemma save_creator_form_no_gain inp :
  clicked inp ≠ Some "Save Creator Content" →
  frames no_gain (λ _, True) (save_creator_form inp).
Proof.
  intros Hclick s r s' out. rewrite save_creator_form_run.
  rewrite (bool_decide_eq_false_2 _ Hclick). simpl.
  intros [= <- <- <-]. split; [by intros ?|by apply Forall_true].
Qed.

Section NoGain.
Variable distance : string → string → nat.
Variable openai_chat : string → string → string + string.
Variable anthropic_messages : string → nat → string → string + string.

Lemma app_py_no_gain inp :
  clicked inp ≠ Some "Save My Style Example" →
  clicked inp ≠ Some "Save Creator Content" →
  frames no_gain (λ _, True)
    (app_py distance openai_chat anthropic_messages inp).
Proof.
  intros Hstyle Hcreator.
  assert (Hsteady : ∀ s s', steady s s' → no_gain s s')
    by (by intros ?? (_ & _ & H)).
  unfold app_py, memory_banks, display.
  repeat lazymatch goal with
    | |- frames _ _ (startup _) =>
        apply (frames_impl unchanged no_gain quiet (λ _, True));
        [ by intros ?? [_ H] name; rewrite H | done | apply startup_quiet ]
    | |- frames _ _ (save_style_form _) => by apply save_style_form_no_gain
    | |- frames _ _ (save_creator_form _) => by apply save_creator_form_no_gain
    | |- frames _ _ (script_editor _) =>
        apply (frames_weaken steady no_gain _ _ Hsteady), script_editor_steady
    | |- frames _ _ (improve_action _ _ _ _) =>
        apply (frames_weaken steady no_gain _ _ Hsteady), improve_action_steady
    | |- frames _ _ show_enhanced =>
        apply (frames_weaken steady no_gain _ _ Hsteady), show_enhanced_steady
    | |- frames _ _ (view_style _) =>
        apply (frames_weaken steady no_gain _ _ Hsteady), view_style_steady
    | |- frames _ _ (browse_creators _) =>
        apply (frames_weaken steady no_gain _ _ Hsteady), browse_creators_steady
    | |- _ => frames_step
    end.
Qed.

(** X15: an execution in which neither Save button is pressed adds no
    record to any collection: every record stored after it was stored
    before it. *)
Theorem no_save_no_new_record inp s name :
  clicked inp ≠ Some "Save My Style Example" →
  clicked inp ≠ Some "Save Creator Content" →
  collection_of (execute distance openai_chat anthropic_messages inp s).1.2 name
  ⊆ collection_of s name.
Proof.
  intros Hstyle Hcreator. unfold execute.
  destruct (frames_run no_gain (λ _, True) _ (reloaded s)
              (app_py_no_gain inp Hstyle Hcreator)) as [Hgain _].
  apply Hgain.
Qed.
End NoGain.

(** ** Executions of a configured application *)

Lemma for_each_rows {A} (P : Prop) (row : A → script unit) rows s :
  Forall (λ r, (∃ out, row r s = (Return tt, s, out))
               ∨ (∃ s' out, row r s = (Raise RerunException, s', out) ∧ P))
    rows →
  (∃ out, for_each row rows s = (Return tt, s, out))
  ∨ (∃ s' out, for_each row rows s = (Raise RerunException, s', out) ∧ P).
Proof.
  induction 1 as [|r rows Hr _ IH].
  - left. by exists [].
  - cbn [for_each]. rewrite run_bind.
    destruct Hr as [[out1 ->]|(s' & out1 & -> & HP)].
    + destruct IH as [[out2 ->]|(s' & out2 & -> & HP)].
      * left. by eexists.
      * right. by do 2 eexists.
    + right. by do 2 eexists.
Qed.

Lemma style_row_cases inp c r s :
  has_keys ["title"] r →
  (∃ out, style_row inp c r s = (Return tt, s, out))
  ∨ (∃ s' out,
       style_row inp c r s = (Raise RerunException, s', out)
       ∧ delete_pressed inp).
Proof.
  intros [[title Ht] _]%Forall_cons.
  unfold style_row, display, button, collection_delete, getitem.
  unfold mbind, script_bind, bind, emit, modify, raise, ret.
  rewrite Ht. simpl. case_bool_decide as Hclick; simpl.
  - right. do 2 eexists. split; [done|]. exists (rec_id r). by left.
  - left. by eexists.
Qed.

Lemma creator_row_cases inp c r s :
  has_keys ["content_title"] r →
  (∃ out, creator_row inp c r s = (Return tt, s, out))
  ∨ (∃ s' out,
       creator_row inp c r s = (Raise RerunException, s', out)
       ∧ delete_pressed inp).
Proof.
  intros [[title Ht] _]%Forall_cons.
  unfold creator_row, display, button, collection_delete, getitem.
  unfold mbind, script_bind, bind, emit, modify, raise, ret.
  rewrite Ht. simpl. case_bool_decide as Hclick; simpl.
  - right. do 2 eexists. split; [done|]. exists (rec_id r). by right.
  - left. by eexists.
Qed.

Lemma view_style_cases inp s c :
  my_style_collection (names s) = Some c →
  Forall (has_keys ["title"]) (collection_of s c) →
  (∃ out, view_style inp s = (Return tt, s, out))
  ∨ (∃ s' out,
       view_style inp s = (Raise RerunException, s', out)
       ∧ delete_pressed inp).
Proof.
  intros Hc Hkeys.
  unfold view_style. rewrite run_bind. unfold read_name. rewrite Hc.
  cbn beta iota. rewrite run_bind.
  unfold collection_get, gets, Chroma.get. cbn beta iota.
  destruct (nonempty _); [|left; by eexists].
  rewrite run_bind. unfold display. cbn [emit].
  destruct (for_each_rows (delete_pressed inp) (style_row inp c)
              (collection_of s c) s) as [[out ->]|(s' & out & -> & HP)].
  - eapply Forall_impl; [exact Hkeys|]. intros r Hr. by apply style_row_cases.
  - left. by eexists.
  - right. by do 2 eexists.
Qed.

Lemma browse_creators_cases inp s c :
  creators_collection (names s) = Some c →
  Forall (has_keys ["creator_name"; "content_title"]) (collection_of s c) →
  (∃ out, browse_creators inp s = (Return tt, s, out))
  ∨ (∃ s' out,
       browse_creators inp s = (Raise RerunException, s', out)
       ∧ delete_pressed inp).
Proof.
  intros Hc Hkeys.
  unfold browse_creators. rewrite run_bind. unfold read_name. rewrite Hc.
  cbn beta iota. rewrite run_bind.
  unfold collection_get, gets, Chroma.get. cbn beta iota.
  destruct (nonempty _); [|left; by eexists].
  rewrite run_bind.
  destruct (group_by_creator_run (collection_of s c) [] [] s)
    as (groups & -> & Hg).
  { eapply Forall_impl; [exact Hkeys|]. intros r' Hr'.
    apply Forall_cons in Hr' as [Hr' _]. by apply Forall_cons. }
  { split; [constructor|]. split; [intros ?? Hin|intros ? Hin];
      by apply elem_of_nil in Hin. }
  cbn [app] in Hg. rewrite run_bind. unfold display. cbn [emit].
  destruct (for_each_rows (delete_pressed inp) (creator_group inp c) groups s)
    as [[out ->]|(s' & out & -> & HP)].
  - assert (Hgk : Forall (λ g, Forall (has_keys ["content_title"]) g.2) groups).
    { eapply grouped_keys; [exact Hg|].
      eapply Forall_impl; [exact Hkeys|]. intros r' Hr'.
      by apply Forall_cons in Hr' as [_ Hr']. }
    eapply Forall_impl; [exact Hgk|]. intros g Hgr.
    unfold creator_group. rewrite run_bind. cbn [emit].
    destruct (for_each_rows (delete_pressed inp) (creator_row inp c) g.2 s)
      as [[out ->]|(s' & out & -> & HP)].
    + eapply Forall_impl; [exact Hgr|]. intros r Hr.
      by apply creator_row_cases.
    + left. by eexists.
    + right. by do 2 eexists.
  - left. by eexists.
  - right. by do 2 eexists.
Qed.

Lemma ready_consistent s : ready s → consistent s.
Proof.
  intros (Hstore & Hmine & Htheirs). split; [done|].
  split; intros c; rewrite ?Hmine, ?Htheirs; by intros [= <-].
Qed.

Lemma save_style_form_ready inp s :
  ready s →
  ∃ s1 out, save_style_form inp s = (Return tt, s1, out) ∧ ready s1.
Proof.
  intros Hs. pose proof Hs as (Hstore & Hmine & Htheirs).
  destruct (save_style_form inp s) as [[r s1] out] eqn:E.
  destruct (save_style_form_consistent inp _ _ _ _ E) as [Hk _].
  specialize (Hk (ready_consistent s Hs)) as [Hstore1 _].
  rewrite save_style_form_run, Hmine in E. simpl in E.
  destruct (_ && _); injection E as <- <- <-; by do 2 eexists.
Qed.

Lemma save_creator_form_ready inp s :
  ready s →
  ∃ s1 out, save_creator_form inp s = (Return tt, s1, out) ∧ ready s1.
Proof.
  intros Hs. pose proof Hs as (Hstore & Hmine & Htheirs).
  destruct (save_creator_form inp s) as [[r s1] out] eqn:E.
  destruct (save_creator_form_consistent inp _ _ _ _ E) as [Hk _].
  specialize (Hk (ready_consistent s Hs)) as [Hstore1 _].
  rewrite save_creator_form_run, Htheirs in E. simpl in E.
  destruct (_ && _); injection E as <- <- <-; by do 2 eexists.
Qed.

Lemma memory_banks_ends_well inp s :
  ready s → ends_well inp (memory_banks inp s).1.1.
Proof.
  intros Hs. unfold memory_banks, display.
  repeat (rewrite run_bind; cbn [emit]).
  destruct (save_style_form_ready inp s Hs) as (s1 & out1 & -> & Hs1).
  rewrite run_bind.
  pose proof Hs1 as ([Hstyle1 _] & Hmine1 & _).
  destruct (view_style_cases inp s1 _ Hmine1 Hstyle1)
    as [[out2 ->]|(s' & out2 & -> & HP)]; [|by right].
  repeat (rewrite run_bind; cbn [emit]).
  destruct (save_creator_form_ready inp s1 Hs1) as (s2 & out3 & -> & Hs2).
  pose proof Hs2 as ([_ Hcreator2] & _ & Htheirs2).
  destruct (browse_creators_cases inp s2 _ Htheirs2 Hcreator2)
    as [[out4 ->]|(s' & out4 & -> & HP)]; [by left|by right].
Qed.

Section Configured.
Variable distance : string → string → nat.
Variable openai_chat : string → string → string + string.
Variable anthropic_messages : string → nat → string → string + string.

(** The handler returns whenever the choice it reads first is bound or
    the button is not pressed, and it leaves names and store alone. *)
Lemma improve_action_returns inp s :
  (clicked inp = Some "Improve My Script" →
   is_Some (inspiration_source (names s))) →
  ∃ s' out,
    improve_action distance openai_chat anthropic_messages inp s
    = (Return tt, s', out)
    ∧ client s' = client s ∧ names s' = names s.
Proof.
  intros Hbound.
  destruct (decide (clicked inp = Some "Improve My Script")) as [Hclick|Hclick].
  2:{ rewrite improve_action_not_pressed by done. by do 2 eexists. }
  destruct (Hbound Hclick) as [source Hsource].
  unfold improve_action, button, read_name.
  unfold mbind, script_bind, bind, emit, ret. simpl.
  rewrite Hclick, bool_decide_eq_true_2, Hsource by done. simpl.
  unfold try_except, display, emit.
  destruct (improve_body _ _ _ _ _) as [[[[]|e] sb] outb] eqn:Eb.
  - apply improve_body_state in Eb as (_ & _ & _ & text & _ & _ & -> & _).
    by do 2 eexists.
  - rewrite (improve_body_throws _ _ _ inp _ _ _ _ Eb).
    apply improve_body_state in Eb as [-> _]. by do 2 eexists.
Qed.

(** With both credentials, on a well-formed store, and with a draft
    whenever Improve is pressed, an execution reaches the memory banks:
    it is what they do in a ready state, after what was shown before
    them. *)
Lemma execute_reaches_banks inp s :
  truthy_env (OPENAI_API_KEY inp) = true →
  truthy_env (ANTHROPIC_API_KEY inp) = true →
  well_formed_store (client s) →
  user_script inp ≠ EmptyString ∨ clicked inp ≠ Some "Improve My Script" →
  ∃ s3 shown,
    ready s3
    ∧ (∀ name, collection_of s3 name = collection_of s name)
    ∧ (clicked inp ≠ Some "Improve My Script" →
       session_state s3 = session_state s)
    ∧ execute distance openai_chat anthropic_messages inp s
      = match memory_banks inp s3 with
        | (r, s', out) => (r, s', shown ++ out)
        end.
Proof.
  intros Ho Ha Hstore Hdraft. unfold execute, app_py.
  rewrite run_bind.
  destruct (startup_with_credentials inp (reloaded s) Ho Ha) as (m & out1 & ->).
  set (s1 := State _ _ _).
  assert (Hs1 : ready s1).
  { destruct Hstore as [Hstyle Hcreator]. split; [|done].
    split; unfold s1; simpl; by rewrite !get_or_create_lookup. }
  assert (Hc1 : ∀ name, collection_of s1 name = collection_of s name).
  { intros name. unfold collection_of, s1. simpl.
    by rewrite !get_or_create_lookup. }
  rewrite run_bind.
  assert (Hed : ∃ s2 out2,
            script_editor inp s1 = (Return tt, s2, out2)
            ∧ ready s2
            ∧ client s2 = client s1
            ∧ session_state s2 = session_state s1
            ∧ (clicked inp = Some "Improve My Script" →
               is_Some (inspiration_source (names s2)))).
  { destruct (decide (user_script inp = EmptyString)) as [Hempty|Hfull].
    - rewrite script_editor_no_draft by done. do 2 eexists.
      split; [done|]. split; [done|]. split; [done|]. split; [done|].
      intros Hclick. by destruct Hdraft.
    - destruct (script_editor_bindings inp s1 Hfull) as (sel & out2 & ->).
      + intros c [= <-]. by destruct Hs1 as [[_ ?] _].
      + by eexists.
      + do 2 eexists. split; [done|]. split; [exact Hs1|].
        split; [done|]. split; [done|]. intros _. by eexists. }
  destruct Hed as (s2 & out2 & -> & Hs2 & Hc2 & Hsess2 & Hsource).
  rewrite run_bind.
  destruct (decide (clicked inp = Some "Improve My Script")) as [Hclick|Hclick].
  - destruct (improve_action_returns inp s2 Hsource)
      as (s3 & out3 & -> & Hclient & Hnames).
    rewrite run_bind, show_enhanced_run.
    exists s3, (out1 ++ out2 ++ out3 ++ (show_enhanced s3).2).
    split; [unfold ready; by rewrite Hclient, Hnames|].
    split; [intros name; rewrite <- Hc1; unfold collection_of;
            by rewrite Hclient, Hc2|].
    split; [done|]. rewrite show_enhanced_run. cbn [snd].
    destruct (memory_banks inp s3) as [[r4 s4] out4].
    by rewrite <- !app_assoc.
  - rewrite improve_action_not_pressed by done.
    rewrite run_bind, show_enhanced_run.
    exists s2, (out1 ++ out2 ++ [Button "Improve My Script" "Improve My Script"]
                ++ (show_enhanced s2).2).
    split; [done|].
    split; [intros name; rewrite <- Hc1; unfold collection_of; by rewrite Hc2|].
    split; [by rewrite Hsess2|]. rewrite show_enhanced_run. cbn [snd].
    destruct (memory_banks inp s2) as [[r4 s4] out4].
    by rewrite <- !app_assoc.
Qed.

(** X16: with both credentials, on a store whose style records have a
    title and whose creator records have a creator name and a content
    title, and with a draft present whenever Improve is pressed, an
    execution ends normally or with the rerun request of a Delete
    button; no [NameError], [KeyError] or backend failure ends it. *)
Theorem configured_app_does_not_crash inp s :
  truthy_env (OPENAI_API_KEY inp) = true →
  truthy_env (ANTHROPIC_API_KEY inp) = true →
  well_formed_store (client s) →
  user_script inp ≠ EmptyString ∨ clicked inp ≠ Some "Improve My Script" →
  let r := (execute distance openai_chat anthropic_messages inp s).1.1 in
  r = Return tt
  ∨ (r = Raise RerunException
     ∧ ∃ id, clicked inp = Some ("delete_my_" +:+ id)
             ∨ clicked inp = Some ("delete_creator_" +:+ id)).
Proof.
  intros Ho Ha Hstore Hdraft r. subst r.
  destruct (execute_reaches_banks inp s Ho Ha Hstore Hdraft)
    as (s3 & shown & Hs3 & _ & _ & ->).
  pose proof (memory_banks_ends_well inp s3 Hs3) as Hend.
  destruct (memory_banks inp s3) as [[r4 s4] out4]. exact Hend.
Qed.
End Configured.

(** ** A deletion and its rerun *)

Lemma delete_my_key_other id label :
  label ∈ ["Improve My Script"; "Save My Style Example"] →
  Some ("delete_my_" +:+ id) ≠ Some label.
Proof.
  rewrite !elem_of_cons, elem_of_nil.
  intros [->|[->|[]]] [= H]; vm_compute in H; discriminate.
Qed.

Section Rerun.
Variable distance : string → string → nat.
Variable openai_chat : string → string → string + string.
Variable anthropic_messages : string → nat → string → string + string.

(** X17: pressing Delete on a listed style example, with both
    credentials on such a store: the execution ends with the rerun
    request (line 284), the execution that follows ends normally, and
    after both the personal collection is the old one without the
    records of that id while the other collections and the session
    state are as before. *)
Theorem deletion_and_rerun inp s id :
  truthy_env (OPENAI_API_KEY inp) = true →
  truthy_env (ANTHROPIC_API_KEY inp) = true →
  well_formed_store (client s) →
  clicked inp = Some ("delete_my_" +:+ id) →
  id ∈ Chroma.ids (collection_of s "my_content_style") →
  (execute distance openai_chat anthropic_messages inp s).1.1
  = Raise RerunException
  ∧ let run := interact distance openai_chat anthropic_messages inp s in
    run.1.1 = Return tt
    ∧ collection_of run.1.2 "my_content_style"
      = Chroma.delete (collection_of s "my_content_style") id
    ∧ (∀ name, name ≠ "my_content_style" →
         collection_of run.1.2 name = collection_of s name)
    ∧ session_state run.1.2 = session_state s.
Proof.
  intros Ho Ha Hstore Hclick Hid.
  assert (Himprove : clicked inp ≠ Some "Improve My Script").
  { rewrite Hclick. apply delete_my_key_other. by left. }
  assert (Hsave : clicked inp ≠ Some "Save My Style Example").
  { rewrite Hclick. apply delete_my_key_other. right. by left. }
  destruct (execute_reaches_banks distance openai_chat anthropic_messages
              inp s Ho Ha Hstore) as (s3 & shown & Hs3 & Hc3 & Hsess3 & E).
  { by right. }
  specialize (Hsess3 Himprove).
  pose proof Hs3 as ([Hstyle3 _] & Hmine3 & _).
  destruct (view_style_delete_run inp s3 _ id Hmine3 Hstyle3 Hclick)
    as [outv Ev].
  rewrite bool_decide_eq_true_2 in Ev by (by rewrite Hc3).
  assert (Ebanks : ∃ out,
            memory_banks inp s3
            = (Raise RerunException,
               with_client
                 <["my_content_style"
                   := Chroma.delete (collection_of s3 "my_content_style") id]>
                 s3, out)).
  { unfold memory_banks, display. repeat (rewrite run_bind; cbn [emit]).
    rewrite save_style_form_run.
    rewrite (bool_decide_eq_false_2 _ Hsave).
    cbn [andb]. cbv zeta. rewrite run_bind, Ev. by eexists. }
  destruct Ebanks as [outb Ebanks]. rewrite Ebanks in E.
  unfold interact. rewrite E. cbn [fst snd]. split; [done|].
  set (s4 := with_client _ s3).
  assert (Hs4 : well_formed_store (client s4)).
  { apply (steady_consistent s3 s4); [apply steady_delete|].
    by apply ready_consistent. }
  assert (Hidle : clicked (no_click inp) = None) by done.
  destruct (frames_run unchanged quiet _ (reloaded s4)
              (app_py_idle distance openai_chat anthropic_messages
                 (no_click inp) Hidle)) as [[Hsess5 Hc5] _].
  fold (execute distance openai_chat anthropic_messages (no_click inp) s4)
    in Hsess5, Hc5.
  destruct (execute_reaches_banks distance openai_chat anthropic_messages
              (no_click inp) s4 Ho Ha Hs4) as (s6 & shown6 & Hs6 & _ & _ & E6).
  { by right. }
  pose proof (memory_banks_ends_well (no_click inp) s6 Hs6) as Hend.
  rewrite E6 in *. destruct (memory_banks (no_click inp) s6) as [[r7 s7] out7].
  cbn [fst snd] in *. split; [|split; [|split]].
  - destruct Hend as [->|[_ [id' [?|?]]]]; done.
  - rewrite Hc5. change (collection_of (reloaded s4)) with (collection_of s4).
    unfold s4. by rewrite collection_of_insert, Hc3.
  - intros name Hne. rewrite Hc5.
    change (collection_of (reloaded s4)) with (collection_of s4).
    unfold s4. by rewrite collection_of_insert_ne, Hc3.
  - rewrite Hsess5. simpl. by rewrite Hsess3.
Qed.
End Rerun.

(** ** Saving and listing in one execution *)

Lemma for_each_app {A} (f : A → script unit) xs ys s s1 out :
  for_each f xs s = (Return tt, s1, out) →
  for_each f (xs ++ ys) s
  = match for_each f ys s1 with (r, s', o) => (r, s', out ++ o) end.
Proof.
  revert s out. induction xs as [|x xs IH]; intros s out.
  - intros [= <- <-]. cbn [app]. by destruct (for_each f ys s) as [[r s'] o].
  - cbn [for_each app]. rewrite !run_bind.
    destruct (f x s) as [[[[]|e] sx] ox]; [|intros [=]].
    destruct (for_each f xs sx) as [[r2 s2] o2] eqn:E2.
    intros [= -> -> <-]. rewrite (IH _ _ E2).
    destruct (for_each f ys s1) as [[r s'] o]. by rewrite app_assoc.
Qed.

Lemma save_key_is_no_delete inp :
  clicked inp = Some "Save My Style Example" → ¬ delete_pressed inp.
Proof.
  intros Hclick [id [H|H]]; rewrite Hclick in H; injection H as H;
    vm_compute in H; discriminate.
Qed.

Lemma style_row_not_pressed inp c r s title :
  rec_metadata r !! "title" = Some title →
  clicked inp ≠ Some ("delete_my_" +:+ rec_id r) →
  style_row inp c r s
  = (Return tt, s,
     [Layout st_columns [];
      Layout st_expander ["My Content: " +:+ title];
      Display st_write
        ("**Notes:** " +:+ default "None" (rec_metadata r !! "notes"));
      Display st_write
        ("**Content:** " +:+ str_take 300 (rec_document r) +:+ "...");
      Button "Delete" ("delete_my_" +:+ rec_id r)]).
Proof.
  intros Ht Hclick.
  unfold style_row, display, button, collection_delete, getitem.
  unfold mbind, script_bind, bind, emit, modify, raise, ret.
  rewrite Ht. simpl. by rewrite (bool_decide_eq_false_2 _ Hclick).
Qed.

(** X18: a valid save of a style example is visible in the same
    execution: the form (lines 237-262) shows "Saved: " and the title,
    and the list below it (lines 264-286) counts one example more than
    before, shows the new title and ends with the Delete button of the
    new id. *)
Theorem saved_example_is_listed inp s c :
  my_style_collection (names s) = Some c →
  Forall (has_keys ["title"]) (collection_of s c) →
  clicked inp = Some "Save My Style Example" →
  example_title inp ≠ EmptyString →
  example_script inp ≠ EmptyString →
  let n := length (collection_of s c) + 1 in
  ∃ s' out,
    (save_style_form inp ;; view_style inp) s = (Return tt, s', out)
    ∧ length (collection_of s' c) = n
    ∧ Display st_success ("Saved: " +:+ example_title inp) ∈ out
    ∧ Display st_write ("You have " +:+ str_of_nat n +:+ " style examples:")
      ∈ out
    ∧ Layout st_expander ["My Content: " +:+ example_title inp] ∈ out
    ∧ last out
      = Some (Button "Delete" ("delete_my_" +:+ "my_style_" +:+ str_of_nat n)).
Proof.
  intros Hc Hkeys Hclick Htitle%truthy_true Hscript%truthy_true n.
  rewrite run_bind, save_style_form_run, Hclick, Htitle, Hscript, Hc.
  rewrite bool_decide_eq_true_2 by done. cbn [andb]. cbv zeta.
  set (new := Record_ ("my_style_" +:+ str_of_nat n) (example_script inp)
                {[ "title" := example_title inp;
                   "notes" := example_notes inp;
                   "timestamp" := clock inp ]}).
  set (s1 := with_client _ s).
  assert (Hrows : collection_of s1 c = collection_of s c ++ [new]).
  { unfold s1. by rewrite collection_of_insert. }
  unfold view_style. rewrite run_bind. unfold read_name.
  change (names s1) with (names s). rewrite Hc. cbn beta iota.
  rewrite run_bind. unfold collection_get, gets, Chroma.get. cbn beta iota.
  rewrite Hrows. unfold Chroma.documents. rewrite nonempty_fmap.
  replace (nonempty (collection_of s c ++ [new])) with true
    by (by destruct (collection_of s c)).
  rewrite run_bind. unfold display at 1. cbn [emit].
  destruct (for_each_rows (delete_pressed inp) (style_row inp c)
              (collection_of s c) s1) as [[out1 Eold]|(s' & out1 & _ & HP)].
  { eapply Forall_impl; [exact Hkeys|]. intros r Hr. by apply style_row_cases. }
  2:{ by apply save_key_is_no_delete in HP. }
  rewrite (for_each_app _ _ [new] _ _ _ Eold).
  cbn [for_each]. rewrite run_bind.
  rewrite (style_row_not_pressed inp c new s1 (example_title inp)).
  2:{ unfold new; cbn [rec_metadata]; by rewrite ?lookup_insert_eq. }
  2:{ rewrite Hclick. intros H. injection H as H. vm_compute in H.
      discriminate. }
  cbn [ret]. rewrite length_fmap, length_app. cbn [length].
  do 2 eexists. split; [reflexivity|].
  split; [by rewrite Hrows, length_app|].
  split; [|split; [|split]].
  - apply elem_of_app. left. apply elem_of_app. right. by left.
  - apply elem_of_app. right. cbn [app]. by left.
  - rewrite !elem_of_app. do 5 right. left. right. by left.
  - rewrite !last_app. done.
Qed.

(** ** The store over a session *)

Section Store.
Variable distance : string → string → nat.
Variable openai_chat : string → string → string + string.
Variable anthropic_messages : string → nat → string → string + string.

(** X19: over any sequence of user actions, starting from a store
    whose style records have a title and whose creator records have a
    creator name and a content title, the store stays so: the keys that
    the lists and the context builder read are always present. *)
Theorem store_stays_well_formed actions s :
  well_formed_store (client s) →
  let s' := session distance openai_chat anthropic_messages actions s in
  Forall (has_keys ["title"]) (collection_of s' "my_content_style")
  ∧ Forall (has_keys ["creator_name"; "content_title"])
      (collection_of s' "favorite_creators").
Proof. intros Hs s'. by apply session_well_formed. Qed.
End Store.

(** ** Worked instances of the rest *)

(** One stored example, the Claude backend failing. *)
Lemma improve_handler_always_returns_witness :
  let inp := improving Claude_Sonnet_4 draft50 style_only [] hook in
  let s := prepared inp one_style_example in
  clicked inp = Some "Improve My Script"
  ∧ inspiration_source (names s) = Some "My personal style only"
  ∧ ∃ s' out,
      improve_action length_distance failing_openai failing_anthropic inp s
      = (Return tt, s', out).
Proof.
  intros inp s. split; [reflexivity|]. split; [reflexivity|].
  destruct (improve_handler_always_returns length_distance failing_openai
              failing_anthropic inp s "My personal style only")
    as (s' & out & E & _); [reflexivity | reflexivity |].
  exists s', out. exact E.
Defined.

(** The same request with the backend answering. *)
Lemma improve_success_fills_the_slot_witness :
  let inp := improving Claude_Sonnet_4 draft50 style_only [] hook in
  let s := prepared inp one_style_example in
  let run := improve_action length_distance canned_openai canned_anthropic
               inp s in
  let prompt :=
    enhancement_prompt draft50 "Hook and opening strength"
      (str_join (nl +:+ nl)
         ["Your personal writing style examples:";
          "Your Style Example 1 - 'Intro Hook':" +:+ nl
          +:+ "Hey everyone, welcome back..." +:+ "..."]) in
  backend_reply canned_openai canned_anthropic "claude"
    "claude-sonnet-4-20250514" prompt
  = inl "An improved script."
  ∧ run.1.1 = Return tt
  ∧ session_state run.1.2 !! "enhanced_script" = Some "An improved script."
  ∧ completions run.2 = [("claude", "claude-sonnet-4-20250514", prompt)].
Proof.
  intros inp s run prompt. split; [reflexivity|].
  destruct (improve_success_fills_the_slot length_distance canned_openai
              canned_anthropic inp s run.1.1 run.1.2 run.2
              "claude" "claude-sonnet-4-20250514" prompt
              "An improved script.")
    as (Hr & _ & Hslot & Hone & _).
  - apply triple_eta.
  - vm_compute. repeat constructor.
  - reflexivity.
  - split; [exact Hr|]. split; [exact Hslot | exact Hone].
Defined.

(** OPENAI_API_KEY unset. *)
Lemma blank_credential_is_missing_witness :
  OPENAI_API_KEY visitor_without_key = None
  ∧ (startup visitor_without_key initial).1 = (Return tt, initial).
Proof.
  split; [reflexivity|].
  destruct (blank_credential_is_missing visitor_without_key initial)
    as [Hshown _].
  rewrite Hshown; [reflexivity | left; reflexivity].
Defined.

(** A first visit on an empty store. *)
Lemma startup_prepares_the_store_witness :
  let s1 := (startup visitor initial).1.2 in
  truthy_env (OPENAI_API_KEY visitor) = true
  ∧ truthy_env (ANTHROPIC_API_KEY visitor) = true
  ∧ is_Some (client s1 !! "my_content_style")
  ∧ is_Some (client s1 !! "favorite_creators")
  ∧ client (startup visitor s1).1.2 = client s1.
Proof.
  intros s1. split; [reflexivity|]. split; [reflexivity|].
  destruct (startup_prepares_the_store visitor initial)
    as (_ & _ & _ & Hmine & Htheirs & _ & _ & Hagain);
    [reflexivity | reflexivity |].
  split; [exact Hmine|]. split; [exact Htheirs | exact Hagain].
Defined.

(** GPT-5 chosen. *)
Lemma model_choice_selects_backend_witness :
  let inp := improving GPT_5 draft50 style_only [] hook in
  let s1 := (startup inp initial).1.2 in
  truthy_env (OPENAI_API_KEY inp) = true
  ∧ truthy_env (ANTHROPIC_API_KEY inp) = true
  ∧ make_ai_call_body canned_openai failing_anthropic "Hello" s1
    = (Return "An improved script.", s1,
       [Completion "openai" "gpt-5" "Hello"]).
Proof.
  intros inp s1. split; [reflexivity|]. split; [reflexivity|].
  apply (model_choice_selects_backend canned_openai failing_anthropic inp
           initial "Hello"); reflexivity.
Defined.

(** Improve pressed on an empty draft. *)
Lemma improve_needs_a_draft_witness :
  let inp := improving Claude_Sonnet_4 EmptyString style_only [] hook in
  let run := execute length_distance canned_openai canned_anthropic inp
               one_style_example in
  user_script inp = EmptyString
  ∧ clicked inp = Some "Improve My Script"
  ∧ run.1.1 = Raise (NameError "inspiration_source")
  ∧ completions run.2 = [].
Proof.
  intros inp run. split; [reflexivity|]. split; [reflexivity|].
  destruct (improve_needs_a_draft length_distance canned_openai
              canned_anthropic inp one_style_example)
    as (Hr & _ & _ & Hnone & _); [reflexivity | reflexivity |].
  split; [exact Hr | exact Hnone].
Defined.

(** The personal style as only source. *)
Lemma single_source_single_query_witness :
  let inp := improving Claude_Sonnet_4 draft50 style_only [] hook in
  let s := prepared inp one_style_example in
  inspiration_source (names s) = Some "My personal style only"
  ∧ my_style_collection (names s) = Some "my_content_style"
  ∧ ∃ r, context_builder length_distance inp s
         = (r, s, [Query "my_content_style" draft50 2 None]).
Proof.
  intros inp s. split; [reflexivity|]. split; [reflexivity|].
  destruct (single_source_single_query length_distance inp s) as [Hstyle _].
  destruct (Hstyle "my_content_style") as (r & E & _);
    [reflexivity | reflexivity |].
  exists r. exact E.
Defined.

(** Three stored creator examples, Ali selected. *)
Lemma editor_binds_the_choices_witness :
  let inp := improving GPT_5 draft50 creators_only ["Ali"] hook in
  let s := (startup inp (reloaded three_creator_examples)).1.2 in
  user_script inp ≠ EmptyString
  ∧ creators_collection (names s) = Some "favorite_creators"
  ∧ (script_editor inp s).1.1 = Return tt
  ∧ creator_selection (names (script_editor inp s).1.2) = Some (Some ["Ali"]).
Proof.
  intros inp s. split; [discriminate|]. split; [reflexivity|].
  destruct (editor_binds_the_choices inp s "favorite_creators")
    as (Hr & _ & _ & Hsel & _).
  - discriminate.
  - reflexivity.
  - vm_compute. repeat constructor; by eexists.
  - split; [exact Hr|]. rewrite Hsel. reflexivity.
Defined.

(** Three stored creator examples by two creators. *)
Lemma groups_partition_by_creator_witness :
  let rs := collection_of three_creator_examples "favorite_creators" in
  Forall (has_keys ["creator_name"]) rs
  ∧ ∃ groups,
      group_by_creator rs [] initial = (Return groups, initial, [])
      ∧ NoDup groups.*1.
Proof.
  intros rs.
  assert (Hkeys : Forall (has_keys ["creator_name"]) rs)
    by (vm_compute; repeat constructor; by eexists).
  split; [exact Hkeys|].
  destruct (groups_partition_by_creator rs initial) as [Hgroups _].
  destruct (Hgroups Hkeys) as (groups & E & Hnodup & _).
  exists groups. split; [exact E | exact Hnodup].
Defined.

(** The one stored style example deleted. *)
Lemma delete_removes_the_style_entry_witness :
  let inp := deleting_style "my_style_1" in
  let s := prepared inp one_style_example in
  my_style_collection (names s) = Some "my_content_style"
  ∧ clicked inp = Some "delete_my_my_style_1"
  ∧ "my_style_1" ∈ Chroma.ids (collection_of s "my_content_style")
  ∧ ∃ s' out,
      view_style inp s = (Raise RerunException, s', out)
      ∧ intro_hook ∉ collection_of s' "my_content_style".
Proof.
  intros inp s. split; [reflexivity|]. split; [reflexivity|].
  assert (Hid : "my_style_1" ∈ Chroma.ids (collection_of s "my_content_style"))
    by (vm_compute; repeat constructor).
  split; [exact Hid|].
  destruct (delete_removes_the_style_entry inp s "my_content_style"
              "my_style_1") as [Hlisted _].
  - reflexivity.
  - vm_compute. repeat constructor; by eexists.
  - reflexivity.
  - destruct (Hlisted Hid) as (s' & out & E & Hrest & _).
    exists s', out. split; [exact E|].
    intros Hin. apply Hrest in Hin as [_ Hne]. apply Hne. reflexivity.
Defined.

(** The second of three creator examples deleted. *)
Lemma delete_removes_the_creator_entry_witness :
  let inp := deleting_creator "creator_2" in
  let s := prepared inp three_creator_examples in
  creators_collection (names s) = Some "favorite_creators"
  ∧ clicked inp = Some "delete_creator_creator_2"
  ∧ "creator_2" ∈ Chroma.ids (collection_of s "favorite_creators")
  ∧ ∃ s' out,
      browse_creators inp s = (Raise RerunException, s', out)
      ∧ morning_routine ∈ collection_of s' "favorite_creators".
Proof.
  intros inp s. split; [reflexivity|]. split; [reflexivity|].
  assert (Hid : "creator_2" ∈ Chroma.ids (collection_of s "favorite_creators"))
    by (vm_compute; repeat constructor).
  split; [exact Hid|].
  destruct (delete_removes_the_creator_entry inp s "favorite_creators"
              "creator_2") as [Hlisted _].
  - reflexivity.
  - vm_compute. repeat constructor; by eexists.
  - reflexivity.
  - destruct (Hlisted Hid) as (s' & out & E & Hrest & _).
    exists s', out. split; [exact E|].
    apply Hrest. split; [vm_compute; repeat constructor | discriminate].
Defined.

(** A visit with nothing pressed, one example stored. *)
Lemma idle_execution_changes_nothing_witness :
  let run := execute length_distance canned_openai canned_anthropic visitor
               one_style_example in
  clicked visitor = None
  ∧ session_state run.1.2 = session_state one_style_example
  ∧ collection_of run.1.2 "my_content_style"
    = collection_of one_style_example "my_content_style"
  ∧ completions run.2 = [].
Proof.
  intros run. split; [reflexivity|].
  destruct (idle_execution_changes_nothing length_distance canned_openai
              canned_anthropic visitor one_style_example)
    as (Hsession & Hstore & Hnone & _); [reflexivity|].
  split; [exact Hsession|]. split; [apply Hstore | exact Hnone].
Defined.

(** One stored example, the Claude backend answering. *)
Lemma improved_text_is_shown_witness :
  let inp := improving Claude_Sonnet_4 draft50 style_only [] hook in
  let run := execute length_distance canned_openai canned_anthropic inp
               one_style_example in
  let prompt :=
    enhancement_prompt draft50 "Hook and opening strength"
      (str_join (nl +:+ nl)
         ["Your personal writing style examples:";
          "Your Style Example 1 - 'Intro Hook':" +:+ nl
          +:+ "Hey everyone, welcome back..." +:+ "..."]) in
  Completion "claude" "claude-sonnet-4-20250514" prompt ∈ run.2
  ∧ Display st_write "An improved script." ∈ run.2
  ∧ DownloadButton "Download Enhanced Script" "An improved script."
      "enhanced_script.txt" ∈ run.2.
Proof.
  intros inp run prompt.
  assert (Hcall : Completion "claude" "claude-sonnet-4-20250514" prompt
                  ∈ run.2) by (vm_compute; repeat constructor).
  split; [exact Hcall|].
  destruct (improved_text_is_shown length_distance canned_openai
              canned_anthropic inp one_style_example
              "claude" "claude-sonnet-4-20250514" prompt
              "An improved script.")
    as (_ & Hshown & Hoffered & _); [exact Hcall | reflexivity |].
  split; [exact Hshown | exact Hoffered].
Defined.

(** A Delete press. *)
Lemma no_save_no_new_record_witness :
  let inp := deleting_style "my_style_1" in
  clicked inp ≠ Some "Save My Style Example"
  ∧ clicked inp ≠ Some "Save Creator Content"
  ∧ collection_of
      (execute length_distance canned_openai canned_anthropic inp
         one_style_example).1.2 "my_content_style"
    ⊆ collection_of one_style_example "my_content_style".
Proof.
  intros inp.
  assert (Hstyle : clicked inp ≠ Some "Save My Style Example")
    by (vm_compute; discriminate).
  assert (Hcreator : clicked inp ≠ Some "Save Creator Content")
    by (vm_compute; discriminate).
  split; [exact Hstyle|]. split; [exact Hcreator|].
  apply (no_save_no_new_record length_distance canned_openai canned_anthropic
           inp one_style_example "my_content_style" Hstyle Hcreator).
Defined.

(** Improve pressed with a draft, the backend failing. *)
Lemma configured_app_does_not_crash_witness :
  let inp := improving Claude_Sonnet_4 draft50 style_only [] hook in
  let r := (execute length_distance failing_openai failing_anthropic inp
              one_style_example).1.1 in
  well_formed_store (client one_style_example)
  ∧ user_script inp ≠ EmptyString
  ∧ (r = Return tt
     ∨ (r = Raise RerunException
        ∧ ∃ id, clicked inp = Some ("delete_my_" +:+ id)
                ∨ clicked inp = Some ("delete_creator_" +:+ id))).
Proof.
  intros inp r.
  assert (Hstore : well_formed_store (client one_style_example))
    by (split; vm_compute; repeat constructor; by eexists).
  split; [exact Hstore|]. split; [discriminate|].
  apply (configured_app_does_not_crash length_distance failing_openai
           failing_anthropic inp one_style_example);
    [reflexivity | reflexivity | exact Hstore | left; discriminate].
Defined.

(** The one stored style example deleted, and the rerun. *)
Lemma deletion_and_rerun_witness :
  let inp := deleting_style "my_style_1" in
  let run := interact length_distance canned_openai canned_anthropic inp
               one_style_example in
  well_formed_store (client one_style_example)
  ∧ "my_style_1"
    ∈ Chroma.ids (collection_of one_style_example "my_content_style")
  ∧ (execute length_distance canned_openai canned_anthropic inp
       one_style_example).1.1
    = Raise RerunException
  ∧ run.1.1 = Return tt
  ∧ collection_of run.1.2 "my_content_style" = [].
Proof.
  intros inp run.
  assert (Hstore : well_formed_store (client one_style_example))
    by (split; vm_compute; repeat constructor; by eexists).
  assert (Hid : "my_style_1"
                ∈ Chroma.ids (collection_of one_style_example
                                "my_content_style"))
    by (vm_compute; repeat constructor).
  split; [exact Hstore|]. split; [exact Hid|].
  destruct (deletion_and_rerun length_distance canned_openai canned_anthropic
              inp one_style_example "my_style_1")
    as (Hfirst & Hr & Hmine & _);
    [reflexivity | reflexivity | exact Hstore | reflexivity | exact Hid |].
  split; [exact Hfirst|]. split; [exact Hr|]. subst run. rewrite Hmine.
  reflexivity.
Defined.

(** A second style example saved. *)
Lemma saved_example_is_listed_witness :
  let inp := saving_style "Second" "two" EmptyString in
  let s := prepared inp one_style_example in
  my_style_collection (names s) = Some "my_content_style"
  ∧ example_title inp ≠ EmptyString
  ∧ example_script inp ≠ EmptyString
  ∧ ∃ s' out,
      (save_style_form inp ;; view_style inp) s = (Return tt, s', out)
      ∧ Display st_success "Saved: Second" ∈ out
      ∧ Display st_write "You have 2 style examples:" ∈ out
      ∧ last out = Some (Button "Delete" "delete_my_my_style_2").
Proof.
  intros inp s. split; [reflexivity|]. split; [discriminate|].
  split; [discriminate|].
  destruct (saved_example_is_listed inp s "my_content_style")
    as (s' & out & E & _ & Hsaved & Hcount & _ & Hlast).
  - reflexivity.
  - vm_compute. repeat constructor; by eexists.
  - reflexivity.
  - discriminate.
  - discriminate.
  - exists s', out. split; [exact E|]. split; [exact Hsaved|].
    split; [exact Hcount | exact Hlast].
Defined.

(** A save followed by the deletion of what was saved. *)
Lemma store_stays_well_formed_witness :
  let s' := session length_distance canned_openai canned_anthropic
              [saving_style "Intro Hook" "Hey everyone, welcome back..."
                 EmptyString;
               deleting_style "my_style_1"] initial in
  well_formed_store (client initial)
  ∧ Forall (has_keys ["title"]) (collection_of s' "my_content_style")
  ∧ Forall (has_keys ["creator_name"; "content_title"])
      (collection_of s' "favorite_creators").
Proof.
  intros s'.
  assert (Hstore : well_formed_store (client initial))
    by (split; vm_compute; constructor).
  split; [exact Hstore|].
  apply (store_stays_well_formed length_distance canned_openai canned_anthropic
           [saving_style "Intro Hook" "Hey everyone, welcome back..."
              EmptyString;
            deleting_style "my_style_1"] initial Hstore).
Defined.
